(** * course_checker: document normalisation and structured response recovery

    A shallow embedding of the two services of the repository that the
    specification is about:

    - [services/fileProcessor.js]: turning an uploaded PDF or image into
      an ordered list of JPEG pages (module [FileProcessor]);
    - the AI service ([analyzeContent], [analyzeContentWithStatement]):
      cleaning the text a language model returned, parsing it, and
      falling back to a degraded record (module [AIService]).

    JavaScript strings are sequences of UTF-16 code units, exceptions are
    an explicit result type, and the external capabilities (pdf2pic,
    sharp, pdf-parse, the file system) are fields of an environment
    record whose calls are logged in a trace. *)

From Stdlib Require Import List NArith ZArith QArith Qround Bool Lia Lqa String Ascii.
Import ListNotations.

(* ================================================================== *)
(** * JavaScript strings *)
(* ================================================================== *)

Module JsString.

(** A string is its sequence of UTF-16 code units. *)
Definition jsstring := list N.

(** The code units of an ASCII literal. *)
Definition lit (s : string) : jsstring :=
  map N_of_ascii (list_ascii_of_string s).

(** The double quote, which a literal cannot hold. *)
Definition DQ : N := 34%N.

(** [quoted s] is [s] between two double quotes. *)
Definition quoted (s : string) : jsstring := DQ :: lit s ++ [DQ].

(** WhiteSpace and LineTerminator code points: what [trim] removes and
    what the regular expression class [\s] matches. *)
Definition is_whitespace (c : N) : bool :=
  ((9 <=? c) && (c <=? 13)              (* TAB LF VT FF CR *)
   || (c =? 32) || (c =? 160)           (* SP, NBSP *)
   || (c =? 5760)                       (* U+1680 *)
   || ((8192 <=? c) && (c <=? 8202))    (* U+2000 .. U+200A *)
   || (c =? 8232) || (c =? 8233)        (* LS, PS *)
   || (c =? 8239) || (c =? 8287)        (* U+202F, U+205F *)
   || (c =? 12288) || (c =? 65279))%N.  (* U+3000, BOM *)

Fixpoint trimStart (s : jsstring) : jsstring :=
  match s with
  | [] => []
  | c :: r => if is_whitespace c then trimStart r else s
  end.

Definition trimEnd (s : jsstring) : jsstring := rev (trimStart (rev s)).

Definition trim (s : jsstring) : jsstring := trimEnd (trimStart s).

(** [s.startsWith(p)] *)
Fixpoint startsWith (s p : jsstring) {struct p} : bool :=
  match p, s with
  | [], _ => true
  | _ :: _, [] => false
  | a :: p', b :: s' => (a =? b)%N && startsWith s' p'
  end.

(** [s.endsWith(p)] *)
Definition endsWith (s p : jsstring) : bool := startsWith (rev s) (rev p).

(** [s.includes(p)] *)
Fixpoint includes (s p : jsstring) : bool :=
  startsWith s p ||
  match s with
  | [] => false
  | _ :: s' => includes s' p
  end.

(** [s.substring(a, b)] for [a <= b]; both ends are clamped to the
    length. *)
Definition substring (s : jsstring) (a b : nat) : jsstring :=
  firstn (b - a) (skipn a s).

(** [s.replace(/^TAG\s*/, '')]: without the [m] flag the caret is the
    start of the input, and the star is greedy. *)
Definition replace_leading (tag : jsstring) (s : jsstring) : jsstring :=
  if startsWith s tag then trimStart (skipn (List.length tag) s) else s.

(** [s.replace(/\s*TAG$/, '')]: the dollar is the end of the input, so
    the only match is the final [TAG] with the whole white-space run
    in front of it. *)
Definition replace_trailing (tag : jsstring) (s : jsstring) : jsstring :=
  if endsWith s tag
  then trimEnd (firstn (List.length s - List.length tag) s)
  else s.

(** [is_prefix s t]: [t] is [s] with characters appended. *)
Definition is_prefix (s t : jsstring) : Prop := exists u, t = s ++ u.

End JsString.

Import JsString.

(* ================================================================== *)
(** * The response cleaner of [analyzeContentWithStatement] *)
(* ================================================================== *)

Module Cleaner.

Definition fence : jsstring := lit "```".
Definition fence_json : jsstring := lit "```json".

Definition closing_brace : jsstring := lit "}".
Definition quote_brace : jsstring := DQ :: lit "}".
Definition summary_key : jsstring := quoted "summary" ++ lit ":".
Definition recommendations_key : jsstring :=
  quoted "recommendations" ++ lit ":".

(** The text appended to a response cut inside its summary: a double
    quote, a comma, the key [recommendations] with the value
    [Please review the detailed analysis above], and a closing brace. *)
Definition recommendations_patch : jsstring :=
  DQ :: lit ", " ++ quoted "recommendations" ++ lit ": "
     ++ quoted "Please review the detailed analysis above" ++ lit "}".

(** Removal of a markdown code block around the trimmed response. *)
Definition strip_fences (cleanedResponse : jsstring) : jsstring :=
  if startsWith cleanedResponse fence_json then
    replace_trailing fence (replace_leading fence_json cleanedResponse)
  else if startsWith cleanedResponse fence then
    replace_trailing fence (replace_leading fence cleanedResponse)
  else cleanedResponse.

(** The test that guards the repair. *)
Definition looks_truncated (cleanedResponse : jsstring) : bool :=
  negb (endsWith cleanedResponse closing_brace)
  && negb (endsWith cleanedResponse quote_brace).

(** The repair of a response that appears to be truncated. *)
Definition repair_truncation (cleanedResponse : jsstring) : jsstring :=
  if looks_truncated cleanedResponse then
    if includes cleanedResponse summary_key
       && negb (includes cleanedResponse recommendations_key)
    then cleanedResponse ++ recommendations_patch
    else if negb (endsWith cleanedResponse closing_brace)
    then cleanedResponse ++ closing_brace
    else cleanedResponse
  else cleanedResponse.

(** The whole clean step: trim, strip the fences, repair. *)
Definition clean (analysisText : jsstring) : jsstring :=
  repair_truncation (strip_fences (trim analysisText)).

End Cleaner.

(* ================================================================== *)
(** * Exceptions *)
(* ================================================================== *)

Module Exn.

(** The exceptions of the two services, each with its message. *)
Inductive JsError : Type :=
| SyntaxError (message : jsstring)
| TypeError (message : jsstring)
| Error (message : jsstring).

Definition message (e : JsError) : jsstring :=
  match e with
  | SyntaxError m | TypeError m | Error m => m
  end.

(** A computation returns a value or throws. *)
Inductive Result (A : Type) : Type :=
| Ok (a : A)
| Throw (e : JsError).

Arguments Ok {A} a.
Arguments Throw {A} e.

Definition bind {A B} (m : Result A) (k : A -> Result B) : Result B :=
  match m with
  | Ok a => k a
  | Throw e => Throw e
  end.

(** [try { body } catch (e) { handler e }] *)
Definition try_catch {A} (body : Result A) (handler : JsError -> Result A)
  : Result A :=
  match body with
  | Ok a => Ok a
  | Throw e => handler e
  end.

End Exn.

Import Exn.

Declare Scope exn_scope.
Delimit Scope exn_scope with exn.
Notation "'let?' x ':=' m 'in' k" := (Exn.bind m (fun x => k))
  (at level 10, x name, m at level 100, k at level 200) : exn_scope.

(* ================================================================== *)
(** * JavaScript values *)
(* ================================================================== *)

Module JsValue.

(** The values [JSON.parse] builds and the services return.  Numbers
    are exact rationals: every finite double is one, and only the test
    against zero is ever made on them.  An array carries, besides its
    items, the named properties assigned to it. *)
#[warnings="-register-all"] Inductive JsValue : Type :=
| JUndefined
| JNull
| JBool (b : bool)
| JNum (q : Q)
| JStr (s : jsstring)
| JArr (items : list JsValue) (named : list (jsstring * JsValue))
| JObj (fields : list (jsstring * JsValue)).

(** [a === b] on strings. *)
Fixpoint eqb_jsstring (a b : jsstring) : bool :=
  match a, b with
  | [], [] => true
  | x :: a', y :: b' => (x =? y)%N && eqb_jsstring a' b'
  | _, _ => false
  end.

Fixpoint lookup (k : jsstring) (fields : list (jsstring * JsValue))
  : option JsValue :=
  match fields with
  | [] => None
  | (k', v) :: rest => if eqb_jsstring k k' then Some v else lookup k rest
  end.

(** Definition of a data property: an existing key keeps its place. *)
Fixpoint define (k : jsstring) (v : JsValue)
         (fields : list (jsstring * JsValue)) : list (jsstring * JsValue) :=
  match fields with
  | [] => [(k, v)]
  | (k', v') :: rest =>
      if eqb_jsstring k k' then (k, v) :: rest
      else (k', v') :: define k v rest
  end.

(** ToBoolean. *)
Definition truthy (v : JsValue) : bool :=
  match v with
  | JUndefined | JNull => false
  | JBool b => b
  | JNum q => negb (Qeq_bool q 0)
  | JStr s => match s with [] => false | _ => true end
  | JArr _ _ | JObj _ => true
  end.

(** [v.k] for a key [k] that no prototype defines and that is neither
    an index nor [length] (such as [question_analysis]): an own
    property of an object or array, [undefined] on another value, and
    a TypeError on [null] and [undefined]. *)
Definition get_field (v : JsValue) (k : jsstring) : Result JsValue :=
  match v with
  | JUndefined | JNull =>
      Throw (TypeError (lit "Cannot read properties of null or undefined"))
  | JObj fields =>
      Ok (match lookup k fields with Some x => x | None => JUndefined end)
  | JArr _ named =>
      Ok (match lookup k named with Some x => x | None => JUndefined end)
  | JBool _ | JNum _ | JStr _ => Ok JUndefined
  end.

(** [v.k = x] in strict code (a class body is strict): the property is
    defined on an object or array; on a primitive the assignment is a
    TypeError.  The updated value is returned. *)
Definition set_field (v : JsValue) (k : jsstring) (x : JsValue)
  : Result JsValue :=
  match v with
  | JObj fields => Ok (JObj (define k x fields))
  | JArr items named => Ok (JArr items (define k x named))
  | JUndefined | JNull =>
      Throw (TypeError (lit "Cannot set properties of null or undefined"))
  | JBool _ | JNum _ | JStr _ =>
      Throw (TypeError (lit "Cannot create property on a primitive"))
  end.

(** Every number among the fields of a record is zero. *)
Definition numeric_fields_zero (v : JsValue) : Prop :=
  match v with
  | JObj fields =>
      forall k q, lookup k fields = Some (JNum q) -> Qeq q 0
  | _ => False
  end.

(** Every array among the fields of a record is empty. *)
Definition list_fields_empty (v : JsValue) : Prop :=
  match v with
  | JObj fields =>
      forall k items named,
        lookup k fields = Some (JArr items named) ->
        items = [] /\ named = []
  | _ => False
  end.

Definition field_is (v : JsValue) (k : string) (x : JsValue) : Prop :=
  match v with
  | JObj fields => lookup (lit k) fields = Some x
  | _ => False
  end.

End JsValue.

Import JsValue.

(* ================================================================== *)
(** * A model of the built-in [JSON.parse] *)
(* ================================================================== *)

(** The recovery code is verified for an arbitrary parser (a parameter of
    the section below); this model of the built-in, after the JSON
    grammar, is what the concrete runs use.  Numbers keep their exact
    decimal value, and a duplicated key keeps its first place and its
    last value. *)

Module JSON.

Definition json_ws (c : N) : bool :=
  ((c =? 32) || (c =? 9) || (c =? 10) || (c =? 13))%N.

Fixpoint skip_ws (s : jsstring) : jsstring :=
  match s with
  | [] => []
  | c :: r => if json_ws c then skip_ws r else s
  end.

Definition digit (c : N) : option Z :=
  if ((48 <=? c) && (c <=? 57))%N then Some (Z.of_N (c - 48)) else None.

Definition hex_digit (c : N) : option N :=
  if ((48 <=? c) && (c <=? 57))%N then Some (c - 48)%N
  else if ((97 <=? c) && (c <=? 102))%N then Some (c - 87)%N
  else if ((65 <=? c) && (c <=? 70))%N then Some (c - 55)%N
  else None.

(** The longest run of digits at the head of [s]. *)
Fixpoint take_digits (s : jsstring) : list Z * jsstring :=
  match s with
  | [] => ([], [])
  | c :: r =>
      match digit c with
      | Some d => let '(ds, rest) := take_digits r in (d :: ds, rest)
      | None => ([], s)
      end
  end.

Definition digits_value (ds : list Z) : Z :=
  fold_left (fun acc d => 10 * acc + d)%Z ds 0%Z.

(** The characters of a string after its opening quote, up to and
    including the closing quote. *)
Fixpoint parse_chars (s : jsstring) (acc : jsstring)
  : option (jsstring * jsstring) :=
  match s with
  | [] => None
  | c :: r =>
      if (c =? 34)%N then Some (rev acc, r)
      else if (c =? 92)%N then
        match r with
        | [] => None
        | e :: r' =>
            if (e =? 34)%N then parse_chars r' (34%N :: acc)
            else if (e =? 92)%N then parse_chars r' (92%N :: acc)
            else if (e =? 47)%N then parse_chars r' (47%N :: acc)
            else if (e =? 98)%N then parse_chars r' (8%N :: acc)
            else if (e =? 102)%N then parse_chars r' (12%N :: acc)
            else if (e =? 110)%N then parse_chars r' (10%N :: acc)
            else if (e =? 114)%N then parse_chars r' (13%N :: acc)
            else if (e =? 116)%N then parse_chars r' (9%N :: acc)
            else if (e =? 117)%N then
              match r' with
              | h1 :: h2 :: h3 :: h4 :: r'' =>
                  match hex_digit h1, hex_digit h2,
                        hex_digit h3, hex_digit h4 with
                  | Some a, Some b, Some c', Some d =>
                      parse_chars r''
                        ((a * 4096 + b * 256 + c' * 16 + d)%N :: acc)
                  | _, _, _, _ => None
                  end
              | _ => None
              end
            else None
        end
      else if (c <? 32)%N then None
      else parse_chars r (c :: acc)
  end.

(** The optional fraction of a number: its digits and the rest. *)
Definition parse_frac (s : jsstring) : option (list Z * jsstring) :=
  match s with
  | 46%N :: r =>
      match take_digits r with
      | ([], _) => None
      | (ds, rest) => Some (ds, rest)
      end
  | _ => Some ([], s)
  end.

(** The optional exponent of a number: its value and the rest. *)
Definition parse_exp (s : jsstring) : option (Z * jsstring) :=
  let signed (neg : bool) (r : jsstring) :=
    match take_digits r with
    | ([], _) => None
    | (ds, rest) =>
        Some ((if neg then - digits_value ds else digits_value ds)%Z, rest)
    end in
  match s with
  | c :: r =>
      if ((c =? 101) || (c =? 69))%N then
        match r with
        | 43%N :: r' => signed false r'
        | 45%N :: r' => signed true r'
        | _ => signed false r
        end
      else Some (0%Z, s)
  | [] => Some (0%Z, s)
  end.

Definition parse_number (s : jsstring) : option (Q * jsstring) :=
  let '(neg, s1) :=
    match s with
    | 45%N :: r => (true, r)
    | _ => (false, s)
    end in
  let int_part :=
    match s1 with
    | 48%N :: r => Some ([0%Z], r)
    | _ => match take_digits s1 with
           | ([], _) => None
           | (ds, rest) => Some (ds, rest)
           end
    end in
  match int_part with
  | None => None
  | Some (ids, s2) =>
      match parse_frac s2 with
      | None => None
      | Some (fds, s3) =>
          match parse_exp s3 with
          | None => None
          | Some (e, s4) =>
              let mantissa := digits_value (ids ++ fds) in
              let scale := (e - Z.of_nat (List.length fds))%Z in
              let q := (inject_Z mantissa * Qpower (inject_Z 10) scale)%Q in
              Some (Qred (if neg then - q else q)%Q, s4)
          end
      end
  end.

Fixpoint parse_value (fuel : nat) (s : jsstring)
  : option (JsValue * jsstring) :=
  match fuel with
  | O => None
  | S fuel' =>
      match skip_ws s with
      | 123%N :: r =>
          match skip_ws r with
          | 125%N :: r' => Some (JObj [], r')
          | _ => parse_members fuel' r []
          end
      | 91%N :: r =>
          match skip_ws r with
          | 93%N :: r' => Some (JArr [] [], r')
          | _ => parse_elements fuel' r []
          end
      | 34%N :: r =>
          match parse_chars r [] with
          | Some (str, rest) => Some (JStr str, rest)
          | None => None
          end
      | 116%N :: 114%N :: 117%N :: 101%N :: r => Some (JBool true, r)
      | 102%N :: 97%N :: 108%N :: 115%N :: 101%N :: r =>
          Some (JBool false, r)
      | 110%N :: 117%N :: 108%N :: 108%N :: r => Some (JNull, r)
      | s' =>
          match parse_number s' with
          | Some (q, rest) => Some (JNum q, rest)
          | None => None
          end
      end
  end

with parse_elements (fuel : nat) (s : jsstring) (acc : list JsValue)
  : option (JsValue * jsstring) :=
  match fuel with
  | O => None
  | S fuel' =>
      match parse_value fuel' s with
      | None => None
      | Some (v, r) =>
          match skip_ws r with
          | 44%N :: r' => parse_elements fuel' r' (v :: acc)
          | 93%N :: r' => Some (JArr (rev (v :: acc)) [], r')
          | _ => None
          end
      end
  end

with parse_members (fuel : nat) (s : jsstring)
                   (acc : list (jsstring * JsValue))
  : option (JsValue * jsstring) :=
  match fuel with
  | O => None
  | S fuel' =>
      match skip_ws s with
      | 34%N :: r =>
          match parse_chars r [] with
          | None => None
          | Some (key, r1) =>
              match skip_ws r1 with
              | 58%N :: r2 =>
                  match parse_value fuel' r2 with
                  | None => None
                  | Some (v, r3) =>
                      match skip_ws r3 with
                      | 44%N :: r4 =>
                          parse_members fuel' r4 (define key v acc)
                      | 125%N :: r4 => Some (JObj (define key v acc), r4)
                      | _ => None
                      end
                  end
              | _ => None
              end
          end
      | _ => None
      end
  end.

(** [JSON.parse(text)]: one value between white space, or a
    SyntaxError.  Two nested calls consume at least one character, so
    twice the length is enough fuel. *)
Definition parse (text : jsstring) : Result JsValue :=
  match parse_value (2 * List.length text + 2) text with
  | Some (v, rest) =>
      match skip_ws rest with
      | [] => Ok v
      | _ => Throw (SyntaxError (lit "Unexpected non-whitespace character after JSON"))
      end
  | None => Throw (SyntaxError (lit "Unexpected token or end of JSON input"))
  end.

End JSON.

(* ================================================================== *)
(** * The AI service: recovery of a structured record *)
(* ================================================================== *)

Module AIService.

Import Cleaner.

(** What the chat-completion request produced: a rejected request, a
    reply without [choices[0].message], or the message content (absent
    when it is [null]). *)
Inductive ApiReply : Type :=
| RequestFailed (e : JsError)
| BadEnvelope
| Content (content : option jsstring).

Definition key (k : string) (v : JsValue) : jsstring * JsValue := (lit k, v).

Definition empty_array : JsValue := JArr [] [].

Section Recovery.

(** The built-in parser, any function from text to a value or an
    exception. *)
Variable JSON_parse : jsstring -> Result JsValue.

(** The fallback of [analyzeContent]. *)
Definition analyzeContent_fallback (analysisText : jsstring) : JsValue :=
  JObj [ key "score" (JNum 0);
         key "subject" (JStr (lit "Unknown"));
         key "errors" empty_array;
         key "corrections" empty_array;
         key "summary" (JStr analysisText);
         key "raw_response" (JStr analysisText) ].

(** [analyzeContent], from the parse of the response to its end. *)
Definition analyzeContent_recover (analysisText : jsstring)
  : Result JsValue :=
  try_catch
    (JSON_parse analysisText)
    (fun parseError => Ok (analyzeContent_fallback analysisText)).

Definition review_summary : jsstring :=
  lit "Analysis completed but formatting issues occurred. Please review manually.".

Definition review_recommendations : jsstring :=
  lit "Please review the analysis manually".

(** The fallback of [analyzeContentWithStatement]. *)
Definition analyzeContentWithStatement_fallback
           (analysisText : jsstring) : JsValue :=
  JObj [ key "overall_score" (JNum 0);
         key "subject" (JStr (lit "Unknown"));
         key "statement_used" (JBool true);
         key "question_analysis" empty_array;
         key "summary" (JStr review_summary);
         key "recommendations" (JStr review_recommendations);
         key "raw_response" (JStr analysisText) ].

(** The body of the inner [try]: parse, then make sure that
    [question_analysis] exists. *)
Definition parse_and_validate (cleanedResponse : jsstring)
  : Result JsValue :=
  (let? parsedAnalysis := JSON_parse cleanedResponse in
   let? question_analysis :=
     get_field parsedAnalysis (lit "question_analysis") in
   if negb (truthy question_analysis)
   then set_field parsedAnalysis (lit "question_analysis") empty_array
   else Ok parsedAnalysis)%exn.

(** [analyzeContentWithStatement], from the clean-up of the response
    to its end. *)
Definition analyzeContentWithStatement_recover (analysisText : jsstring)
  : Result JsValue :=
  let cleanedResponse := clean analysisText in
  try_catch
    (parse_and_validate cleanedResponse)
    (fun parseError =>
       Ok (analyzeContentWithStatement_fallback analysisText)).

(** The checks made on the reply before the recovery. *)
Definition response_text (reply : ApiReply) : Result jsstring :=
  match reply with
  | RequestFailed e => Throw e
  | BadEnvelope =>
      Throw (Error (lit "Invalid response structure from AI service"))
  | Content None | Content (Some []) =>
      Throw (Error (lit "Empty response from AI service"))
  | Content (Some analysisText) => Ok analysisText
  end.

(** [analyzeContent] after the request. *)
Definition analyzeContent (reply : ApiReply) : Result JsValue :=
  try_catch
    (let? analysisText := response_text reply in
     analyzeContent_recover analysisText)%exn
    (fun error => Throw (Error (lit "Failed to analyze content"))).

(** [analyzeContentWithStatement] after the request. *)
Definition analyzeContentWithStatement (reply : ApiReply)
  : Result JsValue :=
  try_catch
    (let? analysisText := response_text reply in
     analyzeContentWithStatement_recover analysisText)%exn
    (fun error =>
       Throw (Error
                (lit "Failed to analyze content with statement context"))).

End Recovery.

(** A string with a visible character: the least a note for a reader
    must have. *)
Definition has_visible_text (s : jsstring) : bool :=
  existsb (fun c => negb (is_whitespace c)) s.

End AIService.

(* ================================================================== *)
(** * The image library: geometry of [resize] and JPEG output *)
(* ================================================================== *)

(** [sharp] is a library the service calls; its code is not part of the
    repository.  Its decoder is a field of the environment, and its
    [resize] is the model below. *)

Module Sharp.

(** A decoded image: its extents and the picture it shows. *)
Record Raster : Type :=
  { width : Z; height : Z; picture : N }.

Inductive Fit : Type := inside | outside.

Record ResizeOptions : Type :=
  { fit : Fit; withoutEnlargement : bool }.

Definition ratio (a b : Z) : Q := Qmake a (Z.to_pos b).

Definition qmax (a b : Q) : Q := if Qle_bool a b then b else a.
Definition qmin (a b : Q) : Q := if Qle_bool a b then a else b.

(** Modelled from the spec: the shrink factors of the library's
    [resize], one per axis (see [resize] below). *)
Definition resolve_shrink (w h targetWidth targetHeight : Z)
           (o : ResizeOptions) : Q * Q :=
  let hshrink := ratio w targetWidth in
  let vshrink := ratio h targetHeight in
  let shrink :=
    match fit o with
    | inside => qmax hshrink vshrink
    | outside => qmin hshrink vshrink
    end in
  let shrink := if withoutEnlargement o then qmax 1 shrink else shrink in
  (qmin shrink (inject_Z w), qmin shrink (inject_Z h)).

(** Rounding to the nearest integer, halves upwards. *)
Definition round (q : Q) : Z := Qfloor (q + (1 # 2)).

(** Modelled from the spec: the [resize] of the image library, which is
    called by the service and is not among its sources.  The page
    encoder "downscales preserving aspect ratio so neither dimension
    exceeds the configured maximum; never upscales": one shrink factor
    for both axes, the larger of the two ratios of the input's extent
    to the requested one for [fit: 'inside'], at least 1 with
    [withoutEnlargement], at most the input's extent on each axis, and
    extents rounded to the nearest pixel, as the library computes
    them. *)
Definition resize (targetWidth targetHeight : Z) (o : ResizeOptions)
           (img : Raster) : Raster :=
  let '(hshrink, vshrink) :=
    resolve_shrink (width img) (height img) targetWidth targetHeight o in
  {| width := round (inject_Z (width img) / hshrink);
     height := round (inject_Z (height img) / vshrink);
     picture := picture img |}.

(** The output of [.jpeg({ quality }).toBuffer()]. *)
Record Jpeg : Type :=
  { quality : N; image : Raster }.

(** The pages of text the service draws: the SVG template of
    [createTextImage] is determined by the five values it
    interpolates. *)
Record TextPageSvg : Type :=
  { svg_width : Z; svg_height : Z;
    svg_pageNum : nat; svg_totalPages : nat;
    svg_body : jsstring }.

Definition Buffer : Type := list N.

(** What [sharp(...)] is given. *)
Inductive Input : Type :=
| FromPath (p : jsstring)
| FromBuffer (b : Buffer)
| FromSvg (svg : TextPageSvg).

End Sharp.

(* ================================================================== *)
(** * Calls to the outside world, with their trace *)
(* ================================================================== *)

Module IO.

Inductive Event : Type :=
| EvFromPath (pdfPath : jsstring)
| EvConvert (pageNum : nat)
| EvSharp (input : Sharp.Input)
| EvReadFile (p : jsstring)
| EvPdfParse (dataBuffer : Sharp.Buffer).

Definition Trace : Type := list Event.

(** A computation extends the trace and returns, throws, or is still
    running when the fuel of a loop is spent ([None]). *)
Definition IO (A : Type) : Type := Trace -> option (Result A) * Trace.

Definition ret {A} (a : A) : IO A := fun t => (Some (Ok a), t).
Definition throw {A} (e : JsError) : IO A := fun t => (Some (Throw e), t).
Definition unfinished {A} : IO A := fun t => (None, t).

Definition bind {A B} (m : IO A) (k : A -> IO B) : IO B :=
  fun t =>
    match m t with
    | (Some (Ok a), t') => k a t'
    | (Some (Throw e), t') => (Some (Throw e), t')
    | (None, t') => (None, t')
    end.

Definition try_catch {A} (body : IO A) (handler : JsError -> IO A) : IO A :=
  fun t =>
    match body t with
    | (Some (Throw e), t') => handler e t'
    | other => other
    end.

(** A call to an external capability: logged, then its result. *)
Definition call {A} (ev : Event) (r : Result A) : IO A :=
  fun t => (Some r, t ++ [ev]).

(** [while (cond) body] *)
Fixpoint while {St} (fuel : nat) (cond : St -> bool) (body : St -> IO St)
         (s : St) : IO St :=
  if cond s then
    match fuel with
    | O => unfinished
    | S fuel' => bind (body s) (while fuel' cond body)
    end
  else ret s.

(** The events of the text-extraction fallback. *)
Definition tier2_event (e : Event) : bool :=
  match e with
  | EvReadFile _ | EvPdfParse _ | EvSharp (Sharp.FromSvg _) => true
  | _ => false
  end.

End IO.

Declare Scope io_scope.
Delimit Scope io_scope with io.
Notation "'do' x '<-' m ';' k" := (IO.bind m (fun x => k))
  (at level 10, x name, m at level 100, k at level 200) : io_scope.

(* ================================================================== *)
(** * [services/fileProcessor.js] *)
(* ================================================================== *)

Module FileProcessor.

Import Sharp IO.

Record Pdf2PicOptions : Type :=
  { density : Z; saveFilename : jsstring; savePath : jsstring;
    format : jsstring; opt_width : Z; opt_height : Z }.

(** [convert(pageNum, { responseType: 'buffer' })]: an exception, or the
    buffer of the page when [result && result.buffer] holds. *)
Definition Converter : Type := nat -> Result (option Buffer).

Record Pdf2Pic : Type :=
  { fromPath : jsstring -> Pdf2PicOptions -> Result Converter }.

(** The capabilities the module is loaded with. *)
Record Env : Type :=
  { pdf2pic : option Pdf2Pic;          (* [undefined] when the require failed *)
    sharp_decode : Input -> Result Raster;
    fs_readFileSync : jsstring -> Result Buffer;
    pdfParse : Buffer -> Result (option jsstring);   (* [pdfData.text] *)
    extname_lower : jsstring -> jsstring }.          (* [path.extname(..).toLowerCase()] *)

Record UploadedFile : Type :=
  { path : jsstring; originalname : jsstring }.

Section WithEnv.

Variable env : Env.

(** [sharp(input)], an optional [.resize(w, h, o)], then
    [.jpeg({ quality }).toBuffer()]. *)
Definition sharp_to_jpeg (input : Input)
           (resizing : option (Z * Z * ResizeOptions)) (q : N) : IO Jpeg :=
  (do img <- call (EvSharp input) (sharp_decode env input);
   ret {| quality := q;
          image := match resizing with
                   | Some (w, h, o) => resize w h o img
                   | None => img
                   end |})%io.

Definition inside_without_enlargement : ResizeOptions :=
  {| fit := inside; withoutEnlargement := true |}.

(* ---------------------------------------------------------------- *)
(** ** Tier 1: [processPDFWithPdf2Pic] *)

Definition options : Pdf2PicOptions :=
  {| density := 100; saveFilename := lit "page";
     savePath := lit "./uploads"; format := lit "png";
     opt_width := 1024; opt_height := 1448 |}.

Record LoopState : Type :=
  { images : list Jpeg; pageNum : nat; hasMorePages : bool }.

Definition loop_condition (st : LoopState) : bool :=
  hasMorePages st && (pageNum st <=? 20)%nat.

Definition no_more_pages (st : LoopState) : LoopState :=
  {| images := images st; pageNum := pageNum st; hasMorePages := false |}.

(** The body of the loop: one page. *)
Definition convert_page (convert : Converter) (st : LoopState)
  : IO LoopState :=
  try_catch
    (do result <- call (EvConvert (pageNum st)) (convert (pageNum st));
     match result with
     | Some buffer =>
         do optimizedBuffer <-
           sharp_to_jpeg (FromBuffer buffer)
                         (Some (1024, 1448, inside_without_enlargement))%Z
                         85;
         ret {| images := images st ++ [optimizedBuffer];
                pageNum := pageNum st + 1;
                hasMorePages := hasMorePages st |}
     | None => ret (no_more_pages st)
     end)%io
    (fun err => ret (no_more_pages st)).

Definition processPDFWithPdf2Pic (pdfPath : jsstring) : IO (list Jpeg) :=
  match pdf2pic env with
  | None =>
      throw (TypeError (lit "Cannot destructure property of undefined"))
  | Some module =>
      (do convert <-
         call (EvFromPath pdfPath) (fromPath module pdfPath options);
       do st <-
         while 20 loop_condition (convert_page convert)
               {| images := []; pageNum := 1; hasMorePages := true |};
       if (List.length (images st) =? 0)%nat
       then throw (Error (lit "No pages could be converted from PDF using pdf2pic"))
       else ret (images st))%io
  end.

(* ---------------------------------------------------------------- *)
(** ** The text renderer: [createTextImage] *)

Definition remove (p : N -> bool) (s : jsstring) : jsstring :=
  filter (fun c => negb (p c)) s.

Definition replace_all (c : N) (by_ : jsstring) (s : jsstring) : jsstring :=
  flat_map (fun x => if (x =? c)%N then by_ else [x]) s.

(** [\x00-\x08\x0B\x0C\x0E-\x1F\x7F] *)
Definition invalid_control (c : N) : bool :=
  ((c <=? 8) || (c =? 11) || (c =? 12)
   || ((14 <=? c) && (c <=? 31)) || (c =? 127))%N.

(** [\u0000-\u0008\u000B-\u000C\u000E-\u001F] *)
Definition low_control (c : N) : bool :=
  ((c <=? 8) || ((11 <=? c) && (c <=? 12))
   || ((14 <=? c) && (c <=? 31)))%N.

Definition sanitize (text : jsstring) : jsstring :=
  let s := remove invalid_control text in
  let s := remove (fun c => (c =? 65533)%N) s in
  let s := remove low_control s in
  let s := replace_all 38 (lit "&amp;") s in
  let s := replace_all 60 (lit "&lt;") s in
  let s := replace_all 62 (lit "&gt;") s in
  let s := replace_all 34 (lit "&quot;") s in
  let s := replace_all 39 (lit "&apos;") s in
  substring s 0 3000.

Definition text_page (text : jsstring) (pageNum totalPages : nat)
  : TextPageSvg :=
  {| svg_width := 1024; svg_height := 1448;
     svg_pageNum := pageNum; svg_totalPages := totalPages;
     svg_body := sanitize text |}.

Definition createTextImage (text : jsstring) (pageNum totalPages : nat)
  : IO Jpeg :=
  try_catch
    (sharp_to_jpeg (FromSvg (text_page text pageNum totalPages)) None 85)
    (fun error => throw (Error (lit "Failed to create text image"))).

(* ---------------------------------------------------------------- *)
(** ** Tier 2: [processPDFWithTextExtraction] *)

Definition textPerPage : nat := 2000.

Definition placeholder : jsstring :=
  lit "Empty PDF or could not extract text".

(** [for (let i = 0; i < text.length; i += textPerPage)] *)
Fixpoint split_pages (fuel : nat) (text : jsstring) (i : nat)
         (pages : list jsstring) : option (list jsstring) :=
  if (i <? List.length text)%nat then
    match fuel with
    | O => None
    | S fuel' =>
        split_pages fuel' text (i + textPerPage)
                    (pages ++ [substring text i (i + textPerPage)])
    end
  else Some pages.

(** [for (let i = 0; i < pages.length; i++)], from index [i] on. *)
Fixpoint render_pages (rest : list jsstring) (i : nat) (total : nat)
         (images : list Jpeg) : IO (list Jpeg) :=
  match rest with
  | [] => ret images
  | page :: rest' =>
      (do imageBuffer <- createTextImage page (i + 1) total;
       render_pages rest' (i + 1) total (images ++ [imageBuffer]))%io
  end.

Definition processPDFWithTextExtraction (pdfPath : jsstring)
  : IO (list Jpeg) :=
  try_catch
    (do dataBuffer <- call (EvReadFile pdfPath) (fs_readFileSync env pdfPath);
     do pdfData_text <- call (EvPdfParse dataBuffer) (pdfParse env dataBuffer);
     let text := match pdfData_text with Some t => t | None => [] end in
     match split_pages (List.length text) text 0 [] with
     | None => unfinished
     | Some pages =>
         let pages :=
           if (List.length pages =? 0)%nat then pages ++ [placeholder]
           else pages in
         render_pages pages 0 (List.length pages) []
     end)%io
    (fun error =>
       throw (Error (lit "Failed to process PDF file: " ++ message error))).

(* ---------------------------------------------------------------- *)
(** ** [processPDF], [processImage], [processFile] *)

Definition processPDF (pdfPath : jsstring) : IO (list Jpeg) :=
  match pdf2pic env with
  | Some _ =>
      try_catch (processPDFWithPdf2Pic pdfPath)
                (fun error => processPDFWithTextExtraction pdfPath)
  | None => processPDFWithTextExtraction pdfPath
  end.

Definition processImage (imagePath : jsstring) : IO (list Jpeg) :=
  try_catch
    (do imageBuffer <-
       sharp_to_jpeg (FromPath imagePath)
                     (Some (1024, 1024, inside_without_enlargement))%Z 85;
     ret [imageBuffer])%io
    (fun error => throw (Error (lit "Failed to process image file"))).

Definition processFile (file : UploadedFile) : IO (list Jpeg) :=
  let filePath := path file in
  let fileExtension := extname_lower env (originalname file) in
  try_catch
    (if eqb_jsstring fileExtension (lit ".pdf") then processPDF filePath
     else if existsb (eqb_jsstring fileExtension)
                     [lit ".jpg"; lit ".jpeg"; lit ".png"]
     then processImage filePath
     else throw (Error (lit "Unsupported file type: " ++ fileExtension)))
    (fun error => throw error).

End WithEnv.

End FileProcessor.

(* ================================================================== *)
(** * Vocabulary of the statements *)
(* ================================================================== *)

Module Vocabulary.

Import Cleaner.

(** The suffix the repair appends to a response. *)
Definition repair_suffix (c : jsstring) : jsstring :=
  if endsWith c closing_brace then []
  else if includes c summary_key && negb (includes c recommendations_key)
       then recommendations_patch
       else closing_brace.

Import AIService.

(** A record carries a note for the reader when one of its string
    fields, other than the subject and the raw response, has visible
    text. *)
Definition carries_note (record : JsValue) : Prop :=
  exists k note,
    k <> lit "subject" /\ k <> lit "raw_response"
    /\ match record with
       | JObj fields => lookup k fields = Some (JStr note)
       | _ => False
       end
    /\ has_visible_text note = true.

Import Sharp IO FileProcessor.

(** What the encoder promises of a page made from the image [img]
    with the requested extents [W] and [H]: the page is within them,
    no larger than the input, shows the same picture, keeps the
    proportions up to the rounding of one pixel per axis, and is the
    input itself when the input is within the requested extents. *)
Definition encoded_within (W H : Z) (img : Raster) (page : Jpeg) : Prop :=
  let out := image page in
  (1 <= width out <= W)%Z /\ (1 <= height out <= H)%Z
  /\ (width out <= width img)%Z /\ (height out <= height img)%Z
  /\ picture out = picture img
  /\ (Z.abs (width out * height img - height out * width img)
      <= width img + height img)%Z
  /\ ((width img <= W)%Z -> (height img <= H)%Z -> out = img).

(** Page [n] of the document is rendered and encoded as [page]. *)
Definition tier1_page (env : Env) (convert : Converter) (n : nat)
           (page : Jpeg) : Prop :=
  exists buffer img,
    convert n = Ok (Some buffer)
    /\ sharp_decode env (FromBuffer buffer) = Ok img
    /\ page = {| quality := 85;
                 image := resize 1024 1448 inside_without_enlargement img |}.

(** Page [n] of the document is not produced: the renderer throws or
    gives no buffer, or the encoder rejects the buffer. *)
Definition tier1_page_fails (env : Env) (convert : Converter) (n : nat)
  : Prop :=
  (exists e, convert n = Throw e)
  \/ convert n = Ok None
  \/ (exists buffer e,
         convert n = Ok (Some buffer)
         /\ sharp_decode env (FromBuffer buffer) = Throw e).

(** The first tier is not available or gives no page. *)
Definition tier1_gives_nothing (env : Env) (pdfPath : jsstring) : Prop :=
  match pdf2pic env with
  | None => True
  | Some module =>
      match fromPath module pdfPath options with
      | Throw _ => True
      | Ok convert => tier1_page_fails env convert 1
      end
  end.

(** The number of pages of a text: the ceiling of its length over the
    budget of a page, and 1 for the empty text. *)
Definition page_count (len : nat) : nat :=
  if (len =? 0)%nat then 1%nat else ((len + 1999) / 2000)%nat.

(** The text of page [i], counted from 0. *)
Definition chunk (text : jsstring) (i : nat) : jsstring :=
  match text with
  | [] => placeholder
  | _ => substring text (i * 2000) (i * 2000 + 2000)
  end.

(** Page [i] of [n], counted from 0, is the drawing of its chunk. *)
Definition tier2_page (env : Env) (text : jsstring) (i n : nat)
           (page : Jpeg) : Prop :=
  exists img,
    sharp_decode env (FromSvg (text_page (chunk text i) (i + 1) n)) = Ok img
    /\ page = {| quality := 85; image := img |}.

End Vocabulary.

Import Vocabulary.

(* ================================================================== *)
(** * Environments for the concrete runs *)
(* ================================================================== *)

Module Scenario.

Import Sharp IO FileProcessor.

Definition no_such_page : JsError := Error (lit "no such page").

(** A renderer for a document of [k] pages: page [n] is the buffer
    [[n]]. *)
Definition renderer (k : nat) : Pdf2Pic :=
  {| fromPath := fun _ _ =>
       Ok (fun n => if ((1 <=? n) && (n <=? k))%nat
                    then Ok (Some [N.of_nat n])
                    else Throw no_such_page) |}.

(** A decoder: rendered pages are A4 at 300 dpi, files are 4000 by
    3000 photographs, and a text page has the extents of its SVG. *)
Definition decoder (input : Input) : Result Raster :=
  match input with
  | FromBuffer b =>
      Ok {| width := 2480; height := 3508; picture := hd 0%N b |}
  | FromPath _ => Ok {| width := 4000; height := 3000; picture := 0 |}
  | FromSvg svg =>
      Ok {| width := svg_width svg; height := svg_height svg;
            picture := N.of_nat (svg_pageNum svg) |}
  end.

(** A decoder that accepts nothing. *)
Definition rejecting_decoder (input : Input) : Result Raster :=
  Throw (Error (lit "Input buffer contains unsupported image format")).

(** The text from the last dot on, in lower case (ASCII names). *)
Fixpoint from_last_dot (name : jsstring) : option jsstring :=
  match name with
  | [] => None
  | c :: rest =>
      match from_last_dot rest with
      | Some ext => Some ext
      | None => if (c =? 46)%N then Some name else None
      end
  end.

Definition lower (c : N) : N :=
  if ((65 <=? c) && (c <=? 90))%N then (c + 32)%N else c.

Definition extension (name : jsstring) : jsstring :=
  match from_last_dot name with
  | Some ext => map lower ext
  | None => []
  end.

(** The environment of a document with [k] renderable pages when the
    renderer is installed ([None]: not installed), whose extracted
    text is [text]. *)
Definition document (pages : option nat) (text : jsstring)
           (decode : Input -> Result Raster) : Env :=
  {| pdf2pic := option_map renderer pages;
     sharp_decode := decode;
     fs_readFileSync := fun _ => Ok (lit "%PDF");
     pdfParse := fun _ => Ok (Some text);
     extname_lower := extension |}.

(** A decoder that checks one rule of XML on a text page: every
    ampersand of the body begins one of the five predefined entity
    references. *)
Definition entity_names : list jsstring :=
  [lit "amp;"; lit "lt;"; lit "gt;"; lit "quot;"; lit "apos;"].

Fixpoint entities_closed (s : jsstring) : bool :=
  match s with
  | [] => true
  | c :: rest =>
      (if (c =? 38)%N then existsb (startsWith rest) entity_names else true)
      && entities_closed rest
  end.

Definition xml_checking_decoder (input : Input) : Result Raster :=
  match input with
  | FromSvg svg =>
      if entities_closed (svg_body svg) then decoder input
      else Throw (Error (lit "XML parse error"))
  | _ => decoder input
  end.

Definition upload (name : string) : UploadedFile :=
  {| path := lit "uploads/files-1"; originalname := lit name |}.

Definition text_of_length (n : nat) : jsstring := repeat 97%N n.

(** A text of twenty full pages and one character. *)
Definition long_text : jsstring := text_of_length (20 * 2000 + 1).

(** A page of text that opens with a letter and goes on with 1999
    ampersands. *)
Definition ampersand_text : jsstring := 97%N :: repeat 38%N 1999.

(** The number of pages of a run, when it returns. *)
Definition page_total (run : option (Result (list Jpeg)) * Trace)
  : option (Result nat) :=
  match fst run with
  | Some (Ok pages) => Some (Ok (List.length pages))
  | Some (Throw e) => Some (Throw e)
  | None => None
  end.

(** Page [n] of the rendered document, encoded. *)
Definition rendered_page (n : nat) : Jpeg :=
  {| quality := 85;
     image := resize 1024 1448 inside_without_enlargement
                     {| width := 2480; height := 3508;
                        picture := N.of_nat n |} |}.

End Scenario.

(* ================================================================== *)
(** * Vocabulary of the page text *)
(* ================================================================== *)

Module PageText.

Import FileProcessor.

(** The characters that [createTextImage] removes or escapes, the
    ampersand apart. *)
Definition unsafe (c : N) : bool :=
  invalid_control c || (c =? 65533)%N || low_control c
  || (c =? 60)%N || (c =? 62)%N || (c =? 34)%N || (c =? 39)%N.

(** A character that the sanitization leaves as it is. *)
Definition plain (c : N) : bool := negb (unsafe c) && negb (c =? 38)%N.

(** A character that the sanitization keeps, as it is or escaped. *)
Definition kept (c : N) : bool :=
  negb (invalid_control c) && negb (c =? 65533)%N.

(** What stands for a kept character in the page: one of the five
    predefined entity references of XML, or the character. *)
Definition escape (c : N) : jsstring :=
  if (c =? 38)%N then lit "&amp;"
  else if (c =? 60)%N then lit "&lt;"
  else if (c =? 62)%N then lit "&gt;"
  else if (c =? 34)%N then lit "&quot;"
  else if (c =? 39)%N then lit "&apos;"
  else [c].

(** The five characters that are escaped. *)
Definition markup (c : N) : bool :=
  ((c =? 38) || (c =? 60) || (c =? 62) || (c =? 34) || (c =? 39))%N.

(** The pages that the loop of [processPDFWithTextExtraction] hands to
    the image library, for the page texts [rest] from index [i] on. *)
Fixpoint drawn (rest : list jsstring) (i total : nat)
  : list Sharp.TextPageSvg :=
  match rest with
  | [] => []
  | page :: rest' => text_page page (i + 1) total :: drawn rest' (i + 1) total
  end.

(** The call that draws a page. *)
Definition draw (svg : Sharp.TextPageSvg) : IO.Event :=
  IO.EvSharp (Sharp.FromSvg svg).

(** The page numbers the renderer was asked for, in the order of the
    calls. *)
Definition converted (events : list IO.Event) : list nat :=
  flat_map (fun ev => match ev with
                      | IO.EvConvert pageNum => [pageNum]
                      | _ => []
                      end) events.

(** The extensions of the images [processFile] accepts. *)
Definition image_extensions : list jsstring :=
  [lit ".jpg"; lit ".jpeg"; lit ".png"].

End PageText.

(* ================================================================== *)
(** * The other entry points of the AI service *)
(* ================================================================== *)

Module AIServiceCalls.

Import Cleaner AIService.

(** The decimal digits of a number, as a template literal prints an
    index. *)
Fixpoint digits (u : Decimal.uint) : jsstring :=
  match u with
  | Decimal.Nil => []
  | Decimal.D0 u => 48%N :: digits u
  | Decimal.D1 u => 49%N :: digits u
  | Decimal.D2 u => 50%N :: digits u
  | Decimal.D3 u => 51%N :: digits u
  | Decimal.D4 u => 52%N :: digits u
  | Decimal.D5 u => 53%N :: digits u
  | Decimal.D6 u => 54%N :: digits u
  | Decimal.D7 u => 55%N :: digits u
  | Decimal.D8 u => 56%N :: digits u
  | Decimal.D9 u => 57%N :: digits u
  end.

Definition decimal (n : nat) : jsstring := digits (Nat.to_uint n).

(** [Array.isArray(v)] *)
Definition isArray (v : JsValue) : bool :=
  match v with
  | JArr _ _ => true
  | _ => false
  end.

(** [v.length] of an array. *)
Definition array_length (v : JsValue) : nat :=
  match v with
  | JArr items _ => List.length items
  | _ => 0
  end.

(** [v === s] for a string literal [s]. *)
Definition is_string (v : JsValue) (s : jsstring) : bool :=
  match v with
  | JStr x => eqb_jsstring x s
  | _ => false
  end.

(** [a || b] on values. *)
Definition or_else (a b : JsValue) : JsValue := if truthy a then a else b.

(** The number [n] as a value. *)
Definition number (n : nat) : JsValue := JNum (inject_Z (Z.of_nat n)).

(** [items.map((q, index) => f(q, index))], from index [index] on: the
    first exception ends the traversal. *)
Fixpoint map_indexed (f : JsValue -> nat -> Result JsValue)
         (items : list JsValue) (index : nat) : Result (list JsValue) :=
  match items with
  | [] => Ok []
  | q :: rest =>
      (let? v := f q index in
       let? vs := map_indexed f rest (index + 1) in
       Ok (v :: vs))%exn
  end.

(** The callback of the [map] in [generateQuiz].  A property of [q] is
    read without an exception unless [q] is [null], whatever the
    property: after the first read the others cannot throw, so that
    the short circuits of the tests do not show. *)
Definition validate_question (q : JsValue) (index : nat) : Result JsValue :=
  (let? type := get_field q (lit "type") in
   let? question := get_field q (lit "question") in
   let? correctAnswer := get_field q (lit "correctAnswer") in
   if negb (truthy type) || negb (truthy question)
      || negb (truthy correctAnswer)
   then Throw (Error (lit "Invalid question at index " ++ decimal index
                          ++ lit ": missing required fields"))
   else
     let? options := get_field q (lit "options") in
     if is_string type (lit "multiple_choice")
        && (negb (truthy options) || negb (isArray options)
            || (array_length options <? 2)%nat)
     then Throw (Error (lit "Invalid multiple choice question at index "
                            ++ decimal index ++ lit ": insufficient options"))
     else
       let? id := get_field q (lit "id") in
       Ok (JObj [ key "id" (or_else id (number (index + 1)));
                  key "type" type;
                  key "question" question;
                  key "options" (or_else options JNull);
                  key "correctAnswer" correctAnswer ]))%exn.

(** The first stage of [extractContent] on the reply of the vision
    model. *)
Definition vision_text (reply : ApiReply) : Result jsstring :=
  match reply with
  | RequestFailed e => Throw e
  | BadEnvelope =>
      Throw (Error (lit "Invalid response structure from vision API"))
  | Content None | Content (Some []) =>
      Throw (Error (lit "Empty response from vision API"))
  | Content (Some extractedContent) => Ok extractedContent
  end.

(** [extractContent] after the request. *)
Definition extractContent (reply : ApiReply) : Result jsstring :=
  try_catch
    (vision_text reply)
    (fun error => Throw (Error (lit "Failed to extract content from images"))).

(** The chat-completion service: the reply to each request the
    service makes, as a function of what the request is made of. *)
Record Api : Type :=
  { vision : list Sharp.Jpeg -> ApiReply;
    analysis : jsstring -> jsstring -> ApiReply;
    enhanced : jsstring -> JsValue -> jsstring -> ApiReply }.

Section Calls.

Variable JSON_parse : jsstring -> Result JsValue.

(** The inner [try] of [generateQuiz]. *)
Definition parse_quiz (cleanedResponse : jsstring) : Result JsValue :=
  (let? quizData := JSON_parse cleanedResponse in
   let? questions := get_field quizData (lit "questions") in
   if negb (truthy questions) || negb (isArray questions)
   then Throw (Error (lit "Invalid quiz format: missing questions array"))
   else
     let? validatedQuestions :=
       map_indexed validate_question
                   (match questions with JArr items _ => items | _ => [] end)
                   0 in
     Ok (JArr validatedQuestions []))%exn.

(** [generateQuiz] after the request. *)
Definition generateQuiz (reply : ApiReply) : Result JsValue :=
  try_catch
    (let? quizText := response_text reply in
     let cleanedResponse := strip_fences (trim quizText) in
     try_catch
       (parse_quiz cleanedResponse)
       (fun parseError =>
          Throw (Error (lit "Failed to parse quiz response: "
                            ++ message parseError))))%exn
    (fun error =>
       Throw (Error (lit "Quiz generation failed: " ++ message error))).



(** [analyzeExam]; [now] is [new Date().toISOString()]. *)
Definition analyzeExam (api : Api) (now : jsstring)
           (images : list Sharp.Jpeg) (filename : jsstring)
  : Result JsValue :=
  try_catch
    (let? extractedContent := extractContent (vision api images) in
     let? analysis :=
       analyzeContent JSON_parse (analysis api extractedContent filename) in
     Ok (JObj [ key "filename" (JStr filename);
                key "extractedContent" (JStr extractedContent);
                key "analysis" analysis;
                key "timestamp" (JStr now) ]))%exn
    (fun error =>
       Throw (Error (lit "AI analysis failed: " ++ message error))).

(** [analyzeExamWithStatement] *)
Definition analyzeExamWithStatement (api : Api) (now : jsstring)
           (images : list Sharp.Jpeg) (statementQuestions : JsValue)
           (filename : jsstring) : Result JsValue :=
  try_catch
    (let? studentContent := extractContent (vision api images) in
     let? analysis :=
       analyzeContentWithStatement
         JSON_parse
         (enhanced api studentContent statementQuestions filename) in
     Ok (JObj [ key "filename" (JStr filename);
                key "extractedContent" (JStr studentContent);
                key "analysis" analysis;
                key "statement_used" (JBool true);
                key "timestamp" (JStr now) ]))%exn
    (fun error =>
       Throw (Error (lit "Enhanced analysis failed: " ++ message error))).

End Calls.

(** A question as [generateQuiz] returns it: the five fields, with an
    identifier, a type, a text and an answer that are not empty, with
    options that are present or [null], and with at least two options
    when the type is [multiple_choice]. *)
Definition valid_question (v : JsValue) : Prop :=
  exists id type question options correctAnswer,
    v = JObj [ key "id" id; key "type" type; key "question" question;
               key "options" options; key "correctAnswer" correctAnswer ]
    /\ truthy id = true /\ truthy type = true /\ truthy question = true
    /\ truthy correctAnswer = true
    /\ (options = JNull \/ truthy options = true)
    /\ (type = JStr (lit "multiple_choice") ->
        exists items named,
          options = JArr items named /\ (2 <= List.length items)%nat).

(** A value has a property that is not empty. *)
Definition has_field (v : JsValue) (k : string) : Prop :=
  exists x, get_field v (lit k) = Ok x /\ truthy x = true.

End AIServiceCalls.

(** Replies of the model for the concrete runs of [generateQuiz]. *)
Module QuizScenario.

Import AIService AIServiceCalls.

Definition field (k v : string) : jsstring :=
  quoted k ++ lit ": " ++ quoted v.

(** A true/false question with its three fields. *)
Definition true_false_question : jsstring :=
  lit "{" ++ field "type" "true_false" ++ lit ", "
      ++ field "question" "2 + 2 = 4?" ++ lit ", "
      ++ field "correctAnswer" "true" ++ lit "}".

(** A multiple-choice question with an identifier and three options. *)
Definition choice_question : jsstring :=
  lit "{" ++ quoted "id" ++ lit ": 7, "
      ++ field "type" "multiple_choice" ++ lit ", "
      ++ field "question" "2 + 2 = ?" ++ lit ", "
      ++ quoted "options" ++ lit ": [" ++ quoted "3" ++ lit ", "
      ++ quoted "4" ++ lit ", " ++ quoted "5" ++ lit "], "
      ++ field "correctAnswer" "4" ++ lit "}".

(** A question without its answer. *)
Definition unanswered_question : jsstring :=
  lit "{" ++ field "type" "true_false" ++ lit ", "
      ++ field "question" "2 + 2 = 5?" ++ lit "}".

Definition quiz_of (questions : jsstring) : jsstring :=
  lit "{" ++ quoted "questions" ++ lit ": [" ++ questions ++ lit "]}".

(** A quiz of two questions in a code block. *)
Definition fenced_quiz : jsstring :=
  Cleaner.fence_json ++ [10%N]
    ++ quiz_of (true_false_question ++ lit ", " ++ choice_question)
    ++ [10%N] ++ Cleaner.fence.

Definition validated_quiz : list JsValue :=
  [ JObj [ key "id" (JNum 1); key "type" (JStr (lit "true_false"));
           key "question" (JStr (lit "2 + 2 = 4?"));
           key "options" JNull; key "correctAnswer" (JStr (lit "true")) ];
    JObj [ key "id" (JNum 7); key "type" (JStr (lit "multiple_choice"));
           key "question" (JStr (lit "2 + 2 = ?"));
           key "options" (JArr [JStr (lit "3"); JStr (lit "4"); JStr (lit "5")] []);
           key "correctAnswer" (JStr (lit "4")) ] ].

(** A quiz whose second question has no answer. *)
Definition incomplete_quiz : jsstring :=
  quiz_of (true_false_question ++ lit ", " ++ unanswered_question).

End QuizScenario.

(* ================================================================== *)
(** * The built-in [Map], with strings as keys *)
(* ================================================================== *)

Module JsMap.

Section Entries.

Context {V : Type}.

(** The entries of a map, in the order of their insertion. *)
Definition entries : Type := list (jsstring * V).

(** [m.get(k)] *)
Fixpoint map_get (k : jsstring) (m : entries) : option V :=
  match m with
  | [] => None
  | (k', v) :: rest => if eqb_jsstring k k' then Some v else map_get k rest
  end.

(** [m.has(k)] *)
Definition map_has (k : jsstring) (m : entries) : bool :=
  match map_get k m with
  | Some _ => true
  | None => false
  end.

(** [m.set(k, v)]: an existing key keeps its place. *)
Fixpoint map_set (k : jsstring) (v : V) (m : entries) : entries :=
  match m with
  | [] => [(k, v)]
  | (k', v') :: rest =>
      if eqb_jsstring k k' then (k, v) :: rest
      else (k', v') :: map_set k v rest
  end.

(** [m.delete(k)] *)
Definition map_delete (k : jsstring) (m : entries) : entries :=
  filter (fun entry => negb (eqb_jsstring k (fst entry))) m.

(** The keys, in order. *)
Definition keys (m : entries) : list jsstring := map fst m.

End Entries.

End JsMap.

(* ================================================================== *)
(** * The statement service *)
(* ================================================================== *)

Module StatementService.

Import Cleaner AIService AIServiceCalls JsMap.

(** A statement document as the service stores it; [st_content] is
    [null] until the extraction. *)
Record Statement : Type :=
  { st_id : jsstring;
    st_filename : jsstring;
    st_originalPath : jsstring;
    st_content : option jsstring;
    st_questions : JsValue;
    st_timestamp : jsstring;
    st_processed : bool }.

(** The fields of the service. *)
Record State : Type :=
  { documents : list (jsstring * Statement);
    questionCache : list (jsstring * JsValue);
    activeStatement : option jsstring;
    idCounter : nat }.

(** The state the constructor makes. *)
Definition initial : State :=
  {| documents := []; questionCache := [];
     activeStatement := None; idCounter := 1 |}.

(** The file system calls of [removeStatement] and [cleanup]. *)
Record Fs : Type :=
  { existsSync : jsstring -> bool;
    unlinkSync : jsstring -> Result unit }.

(** [v.length] *)
Definition get_length (v : JsValue) : Result JsValue :=
  match v with
  | JUndefined | JNull =>
      Throw (TypeError (lit "Cannot read properties of null or undefined"))
  | JArr items _ => Ok (number (List.length items))
  | JStr s => Ok (number (List.length s))
  | JObj fields =>
      Ok (match lookup (lit "length") fields with
          | Some x => x
          | None => JUndefined
          end)
  | JBool _ | JNum _ => Ok JUndefined
  end.

(** The identifier of the statement number [counter] made at the time
    [now] (in milliseconds). *)
Definition statement_id (counter now : nat) : jsstring :=
  lit "stmt_" ++ decimal counter ++ lit "_" ++ decimal now.

(** [processStatement]; [now] is [Date.now()] and [iso] is
    [new Date().toISOString()].  Nothing in the body of its [try]
    throws, so that its [catch] is never entered. *)
Definition processStatement (file : FileProcessor.UploadedFile)
           (now : nat) (iso : jsstring) (s : State)
  : Result Statement * State :=
  let statementId := statement_id (idCounter s) now in
  let statementData :=
    {| st_id := statementId;
       st_filename := FileProcessor.originalname file;
       st_originalPath := FileProcessor.path file;
       st_content := None;
       st_questions := empty_array;
       st_timestamp := iso;
       st_processed := false |} in
  (Ok statementData,
   {| documents := map_set statementId statementData (documents s);
      questionCache := questionCache s;
      activeStatement := activeStatement s;
      idCounter := idCounter s + 1 |}).

Section WithParser.

Variable JSON_parse : jsstring -> Result JsValue.

(** [response.data.choices[0].message.content], read without a check,
    and then [.trim()]. *)
Definition unchecked_text (reply : ApiReply) : Result jsstring :=
  match reply with
  | RequestFailed e => Throw e
  | BadEnvelope | Content None =>
      Throw (TypeError (lit "Cannot read properties of null or undefined"))
  | Content (Some analysisText) => Ok analysisText
  end.

(** [parseQuestionsFromContent] after the request. *)
Definition parseQuestionsFromContent (reply : ApiReply) : Result JsValue :=
  try_catch
    (let? analysisText := unchecked_text reply in
     let cleanedResponse := strip_fences (trim analysisText) in
     match JSON_parse cleanedResponse with
     | Throw parseError => Ok empty_array
     | Ok parsedQuestions =>
         let? questions := get_field parsedQuestions (lit "questions") in
         Ok (or_else questions empty_array)
     end)%exn
    (fun error => Ok empty_array).

(** [extractQuestions], run without another request in between;
    [vision] is the reply to the request of [extractContent] and
    [extraction] the reply to the request of
    [parseQuestionsFromContent], given the content and the file
    name. *)
Definition extractQuestions (vision : ApiReply)
           (extraction : jsstring -> jsstring -> ApiReply)
           (statementId : jsstring) (s : State) : Result JsValue * State :=
  let failed (error : JsError) : JsError :=
    Error (lit "Failed to extract questions: " ++ message error) in
  match map_get statementId (documents s) with
  | None => (Throw (failed (Error (lit "Statement document not found"))), s)
  | Some statement =>
      match
        (let? extractedContent := extractContent vision in
         let? questions :=
           parseQuestionsFromContent
             (extraction extractedContent (st_filename statement)) in
         Ok (extractedContent, questions))%exn
      with
      | Throw error => (Throw (failed error), s)
      | Ok (extractedContent, questions) =>
          let statement' :=
            {| st_id := st_id statement;
               st_filename := st_filename statement;
               st_originalPath := st_originalPath statement;
               st_content := Some extractedContent;
               st_questions := questions;
               st_timestamp := st_timestamp statement;
               st_processed := true |} in
          let s' :=
            {| documents := map_set statementId statement' (documents s);
               questionCache :=
                 map_set statementId questions (questionCache s);
               activeStatement := activeStatement s;
               idCounter := idCounter s |} in
          (match get_length questions with
           | Ok _ => Ok questions
           | Throw error => Throw (failed error)
           end, s')
      end
  end.

(** [extractQuestions] from its call to its first [await]: the
    statement it finds, or the error it throws. *)
Definition beginExtraction (statementId : jsstring) (s : State)
  : Result Statement :=
  match map_get statementId (documents s) with
  | None =>
      Throw (Error (lit "Failed to extract questions: "
                        ++ lit "Statement document not found"))
  | Some statement => Ok statement
  end.

(** [extractQuestions] from its first [await] on: what it does when it
    is resumed, in the state [s] that the requests served in the
    meantime have left.  [stored] tells whether the statement object
    it holds is still the one stored under [statementId] (it is not
    after a [removeStatement] of that identifier or a [cleanup]): the
    object is changed in either case, and that shows in the documents
    when it is still stored; the cache is written in either case.
    [extraction] is the reply to the request of
    [parseQuestionsFromContent], given the content. *)
Definition completeExtraction (vision : ApiReply)
           (extraction : jsstring -> ApiReply) (stored : bool)
           (statementId : jsstring) (s : State) : Result JsValue * State :=
  let failed (error : JsError) : JsError :=
    Error (lit "Failed to extract questions: " ++ message error) in
  match
    (let? extractedContent := extractContent vision in
     let? questions := parseQuestionsFromContent (extraction extractedContent) in
     Ok (extractedContent, questions))%exn
  with
  | Throw error => (Throw (failed error), s)
  | Ok (extractedContent, questions) =>
      let s' :=
        {| documents :=
             match (if stored then map_get statementId (documents s)
                    else None) with
             | Some statement =>
                 map_set statementId
                         {| st_id := st_id statement;
                            st_filename := st_filename statement;
                            st_originalPath := st_originalPath statement;
                            st_content := Some extractedContent;
                            st_questions := questions;
                            st_timestamp := st_timestamp statement;
                            st_processed := true |}
                         (documents s)
             | None => documents s
             end;
           questionCache := map_set statementId questions (questionCache s);
           activeStatement := activeStatement s;
           idCounter := idCounter s |} in
      (match get_length questions with
       | Ok _ => Ok questions
       | Throw error => Throw (failed error)
       end, s')
  end.

End WithParser.

(** [selectStatement] *)
Definition selectStatement (statementId : jsstring) (s : State)
  : Result JsValue * State :=
  match map_get statementId (documents s) with
  | None => (Throw (Error (lit "Statement document not found")), s)
  | Some statement =>
      ((let? questions_count := get_length (st_questions statement) in
        Ok (JObj [ key "id" (JStr (st_id statement));
                   key "filename" (JStr (st_filename statement));
                   key "questions_count" questions_count;
                   key "processed" (JBool (st_processed statement)) ]))%exn,
       {| documents := documents s;
          questionCache := questionCache s;
          activeStatement := Some statementId;
          idCounter := idCounter s |})
  end.

(** [getActiveStatement]: [None] is [null]. *)
Definition getActiveStatement (s : State) : option Statement :=
  match activeStatement s with
  | None | Some [] => None
  | Some statementId => map_get statementId (documents s)
  end.

(** [getQuestions] *)
Definition getQuestions (statementId : jsstring) (s : State) : JsValue :=
  if map_has statementId (questionCache s) then
    match map_get statementId (questionCache s) with
    | Some questions => questions
    | None => JUndefined
    end
  else
    match map_get statementId (documents s) with
    | Some statement => st_questions statement
    | None => empty_array
    end.

(** [removeStatement] *)
Definition removeStatement (fs : Fs) (statementId : jsstring) (s : State)
  : bool * State :=
  match map_get statementId (documents s) with
  | None => (false, s)
  | Some statement =>
      match
        (if match st_originalPath statement with [] => false | _ => true end
            && existsSync fs (st_originalPath statement)
         then unlinkSync fs (st_originalPath statement)
         else Ok tt)
      with
      | Throw error => (false, s)
      | Ok _ =>
          (true,
           {| documents := map_delete statementId (documents s);
              questionCache := map_delete statementId (questionCache s);
              activeStatement :=
                match activeStatement s with
                | Some active =>
                    if eqb_jsstring active statementId then None
                    else Some active
                | None => None
                end;
              idCounter := idCounter s |})
      end
  end.

(** [cleanup]: the files are deleted as far as the file system lets
    them be, and the fields are reset. *)
Definition cleanup (fs : Fs) (s : State) : State :=
  {| documents := []; questionCache := [];
     activeStatement := None; idCounter := 1 |}.

(** [getStats]: the two sizes and the active statement. *)
Definition getStats (s : State) : nat * option jsstring * nat :=
  (List.length (documents s), activeStatement s,
   List.length (questionCache s)).

(** A call of [extractQuestions] that has found its statement and
    waits for the replies of the model: the identifier it was called
    with, and whether the statement object it holds is still the one
    stored under that identifier. *)
Record Extraction : Type :=
  { ex_id : jsstring; ex_stored : bool }.

(** The service and the calls of [extractQuestions] that are
    waiting. *)
Record System : Type :=
  { service : State; running : list Extraction }.

(** What [removeStatement] of an identifier and [cleanup] do to the
    waiting calls: their statement objects are no longer stored. *)
Definition detach (statementId : jsstring) (calls : list Extraction)
  : list Extraction :=
  map (fun call =>
         if eqb_jsstring (ex_id call) statementId
         then {| ex_id := ex_id call; ex_stored := false |}
         else call) calls.

Definition detach_all (calls : list Extraction) : list Extraction :=
  map (fun call => {| ex_id := ex_id call; ex_stored := false |}) calls.

(** One stretch of code of the service that runs without waiting:
    [processStatement], [selectStatement], [removeStatement] and
    [cleanup] as a whole; [extractQuestions] in two, from its call to
    its first [await] (nothing is written; a call that does not find
    its statement throws there and leaves no trace), and from its
    last [await] to its end.  Between the two any other stretch may
    run. *)
Inductive step (JSON_parse : jsstring -> Result JsValue) (sys : System)
  : System -> Prop :=
| step_processStatement (file : FileProcessor.UploadedFile) (now : nat)
                        (iso : jsstring) :
    step JSON_parse sys
         {| service := snd (processStatement file now iso (service sys));
            running := running sys |}
| step_selectStatement (statementId : jsstring) :
    step JSON_parse sys
         {| service := snd (selectStatement statementId (service sys));
            running := running sys |}
| step_removeStatement (fs : Fs) (statementId : jsstring) :
    step JSON_parse sys
         {| service := snd (removeStatement fs statementId (service sys));
            running :=
              if fst (removeStatement fs statementId (service sys))
              then detach statementId (running sys)
              else running sys |}
| step_cleanup (fs : Fs) :
    step JSON_parse sys
         {| service := cleanup fs (service sys);
            running := detach_all (running sys) |}
| step_beginExtraction (statementId : jsstring) (statement : Statement) :
    beginExtraction statementId (service sys) = Ok statement ->
    step JSON_parse sys
         {| service := service sys;
            running := {| ex_id := statementId; ex_stored := true |}
                         :: running sys |}
| step_completeExtraction (before after : list Extraction)
                          (call : Extraction) (vision : ApiReply)
                          (extraction : jsstring -> ApiReply) :
    running sys = before ++ call :: after ->
    step JSON_parse sys
         {| service :=
              snd (completeExtraction JSON_parse vision extraction
                                      (ex_stored call) (ex_id call)
                                      (service sys));
            running := before ++ after |}.

(** What the stretches make of the service the constructor made. *)
Inductive running_system (JSON_parse : jsstring -> Result JsValue)
  : System -> Prop :=
| system_initial :
    running_system JSON_parse {| service := initial; running := [] |}
| system_step (sys sys' : System) :
    running_system JSON_parse sys -> step JSON_parse sys sys' ->
    running_system JSON_parse sys'.

(** The states of the service: the states it is in between two
    stretches. *)
Definition reachable (JSON_parse : jsstring -> Result JsValue) (s : State)
  : Prop :=
  exists sys, running_system JSON_parse sys /\ service sys = s.

(** A value that is neither [null] nor [undefined]. *)
Definition defined (v : JsValue) : Prop := v <> JNull /\ v <> JUndefined.

(** The invariant of the service: the keys of the documents are
    identifiers made with a counter below the current one, each
    document is stored under its identifier and has questions that are
    neither [null] nor [undefined], the questions in the cache are
    neither [null] nor [undefined], and the active statement is a
    stored document.  The cache may hold the
    questions of a statement that is no longer stored. *)
Record invariant (s : State) : Prop :=
  { inv_keys :
      forall k statement,
        map_get k (documents s) = Some statement ->
        st_id statement = k
        /\ defined (st_questions statement)
        /\ exists counter now,
             k = statement_id counter now /\ (counter < idCounter s)%nat;
    inv_cache :
      forall k questions,
        map_get k (questionCache s) = Some questions -> defined questions;
    inv_active :
      forall k, activeStatement s = Some k ->
                map_has k (documents s) = true }.

End StatementService.

(* ================================================================== *)
(** * The routes of the server that call the services *)
(* ================================================================== *)

Module Server.

Import Sharp IO FileProcessor AIService AIServiceCalls StatementService.

(** [res.status(status).json(body)] *)
Record Response : Type := { status : nat; body : JsValue }.

(** A computation that makes no call. *)
Definition lift {A} (r : Result A) : IO A := fun t => (Some r, t).

Definition failure (status : nat) (error : string) : Response :=
  {| status := status; body := JObj [ key "error" (JStr (lit error)) ] |}.

Definition failure_with_details (error : string) (e : JsError) : Response :=
  {| status := 500;
     body := JObj [ key "error" (JStr (lit error));
                    key "details" (JStr (message e)) ] |}.

(** The messages of the errors of [analyzeExam] and
    [analyzeExamWithStatement]. *)
Definition analysis_errors : list jsstring :=
  [ lit "AI analysis failed: Failed to extract content from images";
    lit "AI analysis failed: Failed to analyze content";
    lit "Enhanced analysis failed: Failed to extract content from images";
    lit "Enhanced analysis failed: Failed to analyze content with statement context" ].

Section Routes.

Variable env : Env.
Variable JSON_parse : jsstring -> Result JsValue.

(** The chat-completion service and the time at the analysis of the
    file of a given index in the request. *)
Variable api : nat -> Api.
Variable clock : nat -> jsstring.

(** The reply to the request of [parseQuestionsFromContent], given the
    content and the file name. *)
Variable extraction : jsstring -> jsstring -> ApiReply.

(** [v > 0] for an operand that is not a number. *)
Variable other_greater_than_zero : JsValue -> bool.

(** [v > 0] *)
Definition greater_than_zero (v : JsValue) : bool :=
  match v with
  | JNum q => negb (Qle_bool q 0)
  | _ => other_greater_than_zero v
  end.

(** [statementQuestions && statementQuestions.length > 0] *)
Definition has_questions (statementQuestions : JsValue) : Result bool :=
  if truthy statementQuestions then
    (let? n := get_length statementQuestions in Ok (greater_than_zero n))%exn
  else Ok false.

(** The loop of the route [/api/analyze] over the files of the
    request, from the file of index [index] on.  The call of
    [cleanup] at the end of a turn never throws and is left out. *)
Fixpoint analyze_files (statementQuestions : JsValue)
         (files : list UploadedFile) (index : nat) (results : list JsValue)
  : IO (list JsValue) :=
  match files with
  | [] => ret results
  | file :: rest =>
      (do images <- processFile env file;
       do enhanced <- lift (has_questions statementQuestions);
       do analysis <-
         lift (if enhanced
               then analyzeExamWithStatement
                      JSON_parse (api index) (clock index) images
                      statementQuestions (originalname file)
               else analyzeExam JSON_parse (api index) (clock index) images
                                (originalname file));
       analyze_files statementQuestions rest (index + 1)
                     (results ++ [JObj [ key "filename" (JStr (originalname file));
                                         key "analysis" analysis ]]))%io
  end.

(** The questions of the statement the request names, after the read
    of their [length]; [null] without a statement. *)
Definition statement_questions (statement_id : option jsstring) (s : State)
  : Result JsValue :=
  match statement_id with
  | Some (c :: rest) =>
      let statementQuestions := getQuestions (c :: rest) s in
      (let? n := get_length statementQuestions in Ok statementQuestions)%exn
  | _ => Ok JNull
  end.

(** The handler of [POST /api/analyze]: [files] is [req.files], empty
    when it is absent, and [statement_id] is [req.body.statement_id]. *)
Definition analyze (files : list UploadedFile) (statement_id : option jsstring)
           (s : State) : IO Response :=
  try_catch
    (match files with
     | [] => ret (failure 400 "No files uploaded")
     | _ :: _ =>
         do statementQuestions <- lift (statement_questions statement_id s);
         do results <- analyze_files statementQuestions files 0 [];
         ret {| status := 200;
                body := JObj [ key "success" (JBool true);
                               key "results" (JArr results []);
                               key "statement_used"
                                   (JBool match statement_id with
                                          | Some (_ :: _) => true
                                          | _ => false
                                          end) ] |}
     end)%io
    (fun error => ret (failure_with_details "Failed to process files" error)).

(** The handler of [POST /api/statement] waits three times, for
    [processStatement], for [processFile] and for [extractQuestions]
    (which itself waits twice for the model), and other requests are
    served in the meantime.  Its first stretch makes the checks of
    the request and runs [processStatement]: it gives an answer, or
    the file and the statement made, and the state the other requests
    find; [now] and [iso] are the time of [processStatement]. *)
Definition upload_statement_begin (files : list UploadedFile) (now : nat)
           (iso : jsstring) (s : State)
  : (Response + UploadedFile * Statement) * State :=
  match files with
  | [] => (inl (failure 400 "No statement document uploaded"), s)
  | _ :: _ :: _ =>
      (inl (failure 400 "Please upload only one statement document at a time"),
       s)
  | [file] =>
      match processStatement file now iso s with
      | (Throw error, s1) =>
          (inl (failure_with_details "Failed to process statement document"
                                     error), s1)
      | (Ok statementData, s1) => (inr (file, statementData), s1)
      end
  end.

(** The rest of the handler.  [resumed] is the state of the service
    when [processFile] has returned and [extractQuestions] is called,
    [completed] the state when [extractQuestions] is resumed, and
    [stored] tells whether the statement object it holds is then still
    stored.  The state returned is the state at the answer. *)
Definition upload_statement_resume (file : UploadedFile)
           (statementData : Statement) (t : Trace)
           (resumed completed : State) (stored : bool)
  : option Response * State * Trace :=
  let failed := failure_with_details "Failed to process statement document" in
  match processFile env file t with
  | (None, t') => (None, resumed, t')
  | (Some (Throw error), t') => (Some (failed error), resumed, t')
  | (Some (Ok images), t') =>
      match beginExtraction (st_id statementData) resumed with
      | Throw error => (Some (failed error), resumed, t')
      | Ok statement =>
          match completeExtraction
                  JSON_parse (vision (api 0) images)
                  (fun extractedContent =>
                     extraction extractedContent (st_filename statement))
                  stored (st_id statementData) completed with
          | (Throw error, s') => (Some (failed error), s', t')
          | (Ok questions, s') =>
              match get_length questions with
              | Throw error => (Some (failed error), s', t')
              | Ok questions_extracted =>
                  (Some {| status := 200;
                           body :=
                             JObj [ key "success" (JBool true);
                                    key "statement"
                                        (JObj [ key "id" (JStr (st_id statementData));
                                                key "filename" (JStr (st_filename statementData));
                                                key "questions_extracted" questions_extracted;
                                                key "timestamp" (JStr (st_timestamp statementData)) ]) ] |},
                   s', t')
              end
          end
      end
  end.

End Routes.

(** The result of the route [/api/analyze] for a file. *)
Definition result_of (file : UploadedFile) (result : JsValue) : Prop :=
  exists analysis,
    result = JObj [ key "filename" (JStr (originalname file));
                    key "analysis" analysis ].

End Server.

(** States of the statement service for the concrete runs. *)
Module StatementScenario.

Import AIService StatementService.

Definition iso : jsstring := lit "2024-01-01T00:00:00.000Z".

(** The service after the upload of one statement at the time 42. *)
Definition uploaded : State :=
  snd (processStatement (Scenario.upload "statement.pdf") 42 iso initial).

(** The reply of the model: two questions. *)
Definition two_questions : jsstring :=
  lit "{" ++ quoted "questions" ++ lit ": [{" ++ quoted "number" ++ lit ": "
      ++ quoted "1" ++ lit "}, {" ++ quoted "number" ++ lit ": "
      ++ quoted "2" ++ lit "}]}".

Definition extracted_questions : JsValue :=
  JArr [ JObj [ key "number" (JStr (lit "1")) ];
         JObj [ key "number" (JStr (lit "2")) ] ] [].

(** The service after the extraction of the questions of that
    statement. *)
Definition extracted : Result JsValue * State :=
  extractQuestions JSON.parse
                   (Content (Some (lit "1. ... 2. ...")))
                   (fun _ _ => Content (Some two_questions))
                   (lit "stmt_1_42") uploaded.

(** A file system without the uploaded file. *)
Definition no_files : Fs :=
  {| existsSync := fun _ => false; unlinkSync := fun _ => Ok tt |}.

(** The service when that statement is removed while the call of
    [extractQuestions] for it is waiting, and the call is then
    resumed. *)
Definition removed_meanwhile : Result JsValue * State :=
  completeExtraction JSON.parse
                     (Content (Some (lit "1. ... 2. ...")))
                     (fun _ => Content (Some two_questions))
                     false (lit "stmt_1_42")
                     (snd (removeStatement no_files (lit "stmt_1_42")
                                           uploaded)).

End StatementScenario.

(* ================================================================== *)
(** * Properties of the string operations *)
(* ================================================================== *)

Section StringFacts.

Lemma startsWith_app (p s : jsstring) : startsWith (p ++ s) p = true.
Proof.
  induction p as [|a p IH]; simpl; [reflexivity|].
  now rewrite N.eqb_refl, IH.
Qed.

Lemma startsWith_prefix (s p q : jsstring) :
  startsWith s (p ++ q) = true -> startsWith s p = true.
Proof.
  revert s; induction p as [|a p IH]; intros s H; simpl in *; [reflexivity|].
  destruct s as [|b s]; [discriminate|].
  apply andb_true_iff in H as [Hab H].
  rewrite Hab; simpl; now apply IH.
Qed.

Lemma startsWith_long (s u p : jsstring) :
  (List.length p <= List.length s)%nat ->
  startsWith (s ++ u) p = startsWith s p.
Proof.
  revert s; induction p as [|a p IH]; intros s Hlen; simpl.
  - now destruct s.
  - destruct s as [|b s]; simpl in *; [lia|].
    rewrite IH by lia; reflexivity.
Qed.

Lemma endsWith_app (s p : jsstring) : endsWith (s ++ p) p = true.
Proof.
  unfold endsWith; rewrite rev_app_distr; apply startsWith_app.
Qed.

Lemma endsWith_last (s : jsstring) (c : N) :
  endsWith s [c] = true -> exists r, rev s = c :: r.
Proof.
  unfold endsWith; simpl; destruct (rev s) as [|b r]; [discriminate|].
  intros H; apply andb_true_iff in H as [H _].
  apply N.eqb_eq in H; subst; now exists r.
Qed.

Lemma trimStart_keeps (c : N) (r : jsstring) :
  is_whitespace c = false -> trimStart (c :: r) = c :: r.
Proof. intros H; simpl; now rewrite H. Qed.

Lemma trimStart_shape (s : jsstring) :
  trimStart s = [] \/
  exists c r, trimStart s = c :: r /\ is_whitespace c = false.
Proof.
  induction s as [|a s IH]; simpl; [now left|].
  destruct (is_whitespace a) eqn:Ha; [exact IH|].
  right; now exists a, s.
Qed.

Lemma trimStart_snoc (l : jsstring) (c : N) :
  is_whitespace c = false -> trimStart (l ++ [c]) = trimStart l ++ [c].
Proof.
  intros Hc; induction l as [|a l IH]; simpl.
  - now rewrite Hc.
  - destruct (is_whitespace a); [exact IH | reflexivity].
Qed.

Lemma trimStart_idem (s : jsstring) : trimStart (trimStart s) = trimStart s.
Proof.
  destruct (trimStart_shape s) as [E | (c & r & E & Hc)]; rewrite E.
  - reflexivity.
  - now apply trimStart_keeps.
Qed.

(** A string that begins and ends with a visible character is its own
    trim. *)
Lemma trim_fixed (s : jsstring) (c d : N) (r r' : jsstring) :
  s = c :: r -> is_whitespace c = false ->
  rev s = d :: r' -> is_whitespace d = false ->
  trim s = s.
Proof.
  intros Hs Hc Hr Hd; unfold trim, trimEnd.
  rewrite Hs, (trimStart_keeps c r Hc), <- Hs, Hr, (trimStart_keeps d r' Hd).
  rewrite <- Hr; apply rev_involutive.
Qed.

(** The result of [trim] is empty, or begins and ends with a visible
    character. *)
Lemma trim_shape (x : jsstring) :
  trim x = [] \/
  exists c r d r',
    trim x = c :: r /\ is_whitespace c = false /\
    rev (trim x) = d :: r' /\ is_whitespace d = false.
Proof.
  unfold trim, trimEnd.
  destruct (trimStart_shape x) as [E | (c & r & E & Hc)]; rewrite E.
  - now left.
  - right.
    assert (Et : trimStart (rev (c :: r)) = trimStart (rev r) ++ [c])
      by (simpl; apply trimStart_snoc; exact Hc).
    exists c, (rev (trimStart (rev r))).
    rewrite rev_involutive, Et, rev_app_distr; simpl.
    destruct (trimStart_shape (rev r)) as [E' | (d & r' & E' & Hd)]; rewrite E'.
    + now exists c, [].
    + now exists d, (r' ++ [c]).
Qed.

Lemma trim_idem (x : jsstring) : trim (trim x) = trim x.
Proof.
  destruct (trim_shape x) as [E | (c & r & d & r' & E & Hc & Er & Hd)].
  - rewrite E; reflexivity.
  - exact (trim_fixed _ c d r r' E Hc Er Hd).
Qed.

Lemma startsWith_extend (s u p : jsstring) :
  startsWith s p = true -> startsWith (s ++ u) p = true.
Proof.
  revert s; induction p as [|a p IH]; intros s H; [reflexivity|].
  destruct s as [|b s]; cbn in *; [discriminate|].
  apply andb_true_iff in H as [Hab H].
  rewrite Hab; cbn; now apply IH.
Qed.

Lemma includes_head (s p : jsstring) :
  startsWith s p = true -> includes s p = true.
Proof. intros H; destruct s; cbn; now rewrite H. Qed.

Lemma includes_after (l s p : jsstring) :
  includes s p = true -> includes (l ++ s) p = true.
Proof.
  intros H; induction l as [|c l IH]; [exact H|].
  cbn; rewrite IH; apply orb_true_r.
Qed.

Lemma trimStart_is_suffix (x : jsstring) : exists l, x = l ++ trimStart x.
Proof.
  induction x as [|c x [l IH]]; [now exists []|].
  cbn; destruct (is_whitespace c).
  - exists (c :: l); cbn; now rewrite <- IH.
  - now exists [].
Qed.

Lemma trimEnd_is_prefix (y : jsstring) : exists w, y = trimEnd y ++ w.
Proof.
  unfold trimEnd.
  destruct (trimStart_is_suffix (rev y)) as [l Hl].
  exists (rev l).
  rewrite <- rev_app_distr, <- Hl; symmetry; apply rev_involutive.
Qed.

(** The trimmed text is a part of the text: what the text does not
    contain, its trim does not start with. *)
Lemma trim_starts_with_included (x p : jsstring) :
  includes x p = false -> startsWith (trim x) p = false.
Proof.
  intros Hfree.
  destruct (startsWith (trim x) p) eqn:E; [|reflexivity].
  destruct (trimStart_is_suffix x) as [l Hl].
  destruct (trimEnd_is_prefix (trimStart x)) as [w Hw].
  fold (trim x) in Hw.
  rewrite Hl, Hw in Hfree.
  rewrite includes_after in Hfree; [discriminate|].
  apply includes_head, startsWith_extend, E.
Qed.

End StringFacts.

(* ================================================================== *)
(** * The response cleaner *)
(* ================================================================== *)

Section CleanerFacts.

Import Cleaner.

Lemma quote_brace_is_brace (c : jsstring) :
  endsWith c quote_brace = true -> endsWith c closing_brace = true.
Proof.
  unfold endsWith; change (rev quote_brace) with (rev closing_brace ++ [DQ]).
  apply startsWith_prefix.
Qed.

Lemma looks_truncated_brace (c : jsstring) :
  looks_truncated c = negb (endsWith c closing_brace).
Proof.
  unfold looks_truncated.
  destruct (endsWith c closing_brace) eqn:E1; simpl; [reflexivity|].
  destruct (endsWith c quote_brace) eqn:E2; [|reflexivity].
  apply quote_brace_is_brace in E2; congruence.
Qed.

Lemma repair_truncation_suffix (c : jsstring) :
  repair_truncation c = c ++ repair_suffix c.
Proof.
  unfold repair_truncation, repair_suffix.
  rewrite looks_truncated_brace.
  destruct (endsWith c closing_brace); simpl.
  - now rewrite app_nil_r.
  - now destruct (includes c summary_key && negb (includes c recommendations_key)).
Qed.

Lemma repair_suffix_cases (c : jsstring) :
  repair_suffix c = [] /\ endsWith c closing_brace = true \/
  repair_suffix c = recommendations_patch \/
  repair_suffix c = closing_brace.
Proof.
  unfold repair_suffix.
  destruct (endsWith c closing_brace); [now left|].
  destruct (includes c summary_key && negb (includes c recommendations_key));
    auto.
Qed.

Lemma repair_ends_with_brace (c : jsstring) :
  endsWith (repair_truncation c) closing_brace = true.
Proof.
  rewrite repair_truncation_suffix.
  destruct (repair_suffix_cases c) as [[E H] | [E | E]]; rewrite E.
  - now rewrite app_nil_r.
  - change recommendations_patch
      with (removelast recommendations_patch ++ closing_brace).
    rewrite app_assoc; apply endsWith_app.
  - apply endsWith_app.
Qed.

Lemma repair_fixed (c : jsstring) :
  endsWith c closing_brace = true -> repair_truncation c = c.
Proof.
  intros H; rewrite repair_truncation_suffix; unfold repair_suffix.
  rewrite H; apply app_nil_r.
Qed.

(** Appending a text that does not begin with a backquote cannot
    complete an opening fence. *)
Lemma no_fence_after_append (t : jsstring) (a : N) (u : jsstring) :
  a <> 96%N ->
  startsWith t fence = false -> startsWith (t ++ a :: u) fence = false.
Proof.
  intros Ha H.
  assert (Hne : (96 =? a)%N = false) by (apply N.eqb_neq; congruence).
  destruct t as [|x [|y [|z t]]]; cbn in *.
  - now rewrite Hne.
  - rewrite Hne; cbn; apply andb_false_r.
  - rewrite Hne; cbn; now rewrite !andb_false_r.
  - exact H.
Qed.

Lemma strip_fences_none (c : jsstring) :
  startsWith c fence = false -> strip_fences c = c.
Proof.
  intros H; unfold strip_fences; rewrite H.
  destruct (startsWith c fence_json) eqn:E; [|reflexivity].
  change fence_json with (fence ++ lit "json") in E.
  apply startsWith_prefix in E; congruence.
Qed.

Lemma repair_keeps_fence_free (t : jsstring) :
  startsWith t fence = false ->
  startsWith (repair_truncation t) fence = false.
Proof.
  intros H; rewrite repair_truncation_suffix.
  destruct (repair_suffix_cases t) as [[E _] | [E | E]]; rewrite E.
  - now rewrite app_nil_r.
  - apply no_fence_after_append; [discriminate | exact H].
  - apply no_fence_after_append; [discriminate | exact H].
Qed.

Lemma repair_of_trimmed_is_trimmed (t : jsstring) :
  trim t = t -> trim (repair_truncation t) = repair_truncation t.
Proof.
  intros Ht.
  destruct (endsWith_last _ _ (repair_ends_with_brace t)) as [r' Hr].
  rewrite repair_truncation_suffix in *.
  destruct (trim_shape t) as [E | (c & r & _ & _ & E & Hc & _)];
    rewrite Ht in E.
  - subst t; cbn.
    reflexivity.
  - rewrite E in *; simpl app in *.
    eapply trim_fixed; [reflexivity | exact Hc | exact Hr | reflexivity].
Qed.

End CleanerFacts.

Section CleanerClaims.

Import Cleaner.

(** C7. The response is taken to be truncated exactly when it does not
    end with a closing brace (the second test, on a quote followed by a
    brace, never changes the outcome).  A response taken to be
    truncated gets the recommendations patch appended when it contains
    the summary key and not the recommendations key, and a single
    closing brace otherwise; any other response is returned as it
    is. *)
Theorem truncation_repair_rule (c : jsstring) :
  looks_truncated c = negb (endsWith c closing_brace)
  /\ looks_truncated c
     = negb (endsWith c closing_brace) && negb (endsWith c quote_brace)
  /\ repair_truncation c =
     if looks_truncated c then
       if includes c summary_key && negb (includes c recommendations_key)
       then c ++ recommendations_patch
       else c ++ closing_brace
     else c.
Proof.
  split; [apply looks_truncated_brace|].
  split; [reflexivity|].
  rewrite repair_truncation_suffix, looks_truncated_brace.
  unfold repair_suffix.
  destruct (endsWith c closing_brace); simpl.
  - apply app_nil_r.
  - now destruct (includes c summary_key && negb (includes c recommendations_key)).
Qed.

(** C10. The repair only appends: the response is a prefix of the
    repaired text, and a response that ends with a closing brace is
    returned unchanged. *)
Theorem repair_only_appends (c : jsstring) :
  is_prefix c (repair_truncation c)
  /\ (endsWith c closing_brace = true -> repair_truncation c = c).
Proof.
  split.
  - exists (repair_suffix c); apply repair_truncation_suffix.
  - apply repair_fixed.
Qed.

Lemma repair_only_appends_witness :
  is_prefix (lit "{}") (repair_truncation (lit "{}"))
  /\ repair_truncation (lit "{}") = lit "{}".
Proof.
  destruct (repair_only_appends (lit "{}")) as [Hprefix Hfixed].
  split; [exact Hprefix | apply Hfixed; reflexivity].
Defined.

(** C8. The clean step is idempotent on a response without a code
    fence: when the trimmed response does not open with three
    backquotes (as is the case of every response that contains no run
    of three backquotes, by [trim_starts_with_included]), cleaning the
    cleaned text gives the cleaned text. *)
Theorem clean_idempotent (x : jsstring) :
  startsWith (trim x) fence = false ->
  clean (clean x) = clean x.
Proof.
  intros Hfree.
  assert (Hclean : clean x = repair_truncation (trim x))
    by (unfold clean; now rewrite strip_fences_none).
  unfold clean at 1.
  rewrite Hclean.
  rewrite (repair_of_trimmed_is_trimmed _ (trim_idem x)).
  rewrite (strip_fences_none _ (repair_keeps_fence_free _ Hfree)).
  apply repair_fixed, repair_ends_with_brace.
Qed.

Lemma clean_idempotent_witness :
  startsWith (trim (lit "  {x: 1  ")) fence = false
  /\ clean (clean (lit "  {x: 1  ")) = clean (lit "  {x: 1  ").
Proof.
  split; [reflexivity | apply clean_idempotent; reflexivity].
Defined.

(** With a fence the clean step need not be idempotent: a block nested
    in a block loses one fence at each pass. *)
Example clean_not_idempotent_on_fences :
  let x := lit "```json```json{}``````" in
  clean x = lit "```json{}```}" /\ clean (clean x) = lit "{}```}".
Proof. split; reflexivity. Qed.

End CleanerClaims.

(* ================================================================== *)
(** * Recovery of the structured record *)
(* ================================================================== *)

Lemma eqb_jsstring_eq (a b : jsstring) : eqb_jsstring a b = true <-> a = b.
Proof.
  revert b; induction a as [|x a IH]; intros [|y b]; simpl;
    try (split; [discriminate | discriminate]); [tauto|].
  rewrite andb_true_iff, N.eqb_eq, IH.
  split; [intros [-> ->]; reflexivity | intros H; inversion H; auto].
Qed.

(** Case analysis on every key comparison of a lookup. *)
Ltac lookup_cases :=
  repeat match goal with
         | H : context [if eqb_jsstring ?k ?x then _ else _] |- _ =>
             let E := fresh "E" in
             destruct (eqb_jsstring k x) eqn:E;
             [apply eqb_jsstring_eq in E|]
         end.

Section RecoveryClaims.

Import Cleaner AIService.

Variable JSON_parse : jsstring -> Result JsValue.

(** C1. The recovery never raises, whatever the parser does with the
    text: [analyzeContentWithStatement], from its clean-up on, returns
    the parsed and validated record or its fallback record, and
    [analyzeContent], from its parse on, returns the parsed value or
    its fallback record. *)
Theorem recover_never_raises (analysisText : jsstring) :
  (exists record,
      analyzeContentWithStatement_recover JSON_parse analysisText = Ok record
      /\ (parse_and_validate JSON_parse (clean analysisText) = Ok record
          \/ record = analyzeContentWithStatement_fallback analysisText))
  /\ (exists record,
         analyzeContent_recover JSON_parse analysisText = Ok record
         /\ (JSON_parse analysisText = Ok record
             \/ record = analyzeContent_fallback analysisText)).
Proof.
  split.
  - unfold analyzeContentWithStatement_recover, try_catch.
    destruct (parse_and_validate JSON_parse (clean analysisText))
      as [record | e] eqn:E.
    + exists record; auto.
    + eexists; split; [reflexivity | now right].
  - unfold analyzeContent_recover, try_catch.
    destruct (JSON_parse analysisText) as [record | e] eqn:E.
    + exists record; auto.
    + eexists; split; [reflexivity | now right].
Qed.

(** The exceptions of the inner [try] are those of the parser and the
    type errors of the validation; all of them reach the handler. *)
Lemma parse_and_validate_throws (cleanedResponse : jsstring) (e : JsError) :
  parse_and_validate JSON_parse cleanedResponse = Throw e ->
  JSON_parse cleanedResponse = Throw e
  \/ exists parsed m,
      JSON_parse cleanedResponse = Ok parsed /\ e = TypeError m
      /\ match parsed with JObj _ | JArr _ _ => False | _ => True end.
Proof.
  unfold parse_and_validate, Exn.bind.
  destruct (JSON_parse cleanedResponse) as [parsed | e'] eqn:E;
    [|intros H; left; congruence].
  intros H; right; exists parsed.
  destruct parsed; cbn in H; try discriminate;
    try (inversion H; subst; eexists; repeat split; reflexivity).
  - destruct (lookup _ named); [destruct (negb (truthy j))|];
      discriminate.
  - destruct (lookup _ fields); [destruct (negb (truthy j))|];
      discriminate.
Qed.

(** Outside the recovery, the empty response is rejected before the
    clean-up starts. *)
Lemma empty_response_rejected :
  analyzeContentWithStatement JSON_parse (Content (Some []))
  = Throw (Error (lit "Failed to analyze content with statement context"))
  /\ analyzeContent JSON_parse (Content (Some []))
     = Throw (Error (lit "Failed to analyze content")).
Proof. split; reflexivity. Qed.

Lemma nonempty_response_recovered (analysisText : jsstring) :
  analysisText <> [] ->
  analyzeContentWithStatement JSON_parse (Content (Some analysisText))
  = analyzeContentWithStatement_recover JSON_parse analysisText
  /\ analyzeContent JSON_parse (Content (Some analysisText))
     = analyzeContent_recover JSON_parse analysisText.
Proof.
  intros Hne.
  destruct analysisText as [|c s]; [congruence|].
  unfold analyzeContentWithStatement, analyzeContent; cbn [response_text Exn.bind].
  unfold analyzeContentWithStatement_recover, analyzeContent_recover, try_catch.
  destruct (parse_and_validate JSON_parse (clean (c :: s)));
    destruct (JSON_parse (c :: s)); split; reflexivity.
Qed.

Lemma statement_fallback_fields (analysisText : jsstring) :
  let record := analyzeContentWithStatement_fallback analysisText in
  numeric_fields_zero record /\ list_fields_empty record
  /\ field_is record "overall_score" (JNum 0)
  /\ field_is record "subject" (JStr (lit "Unknown"))
  /\ field_is record "question_analysis" empty_array
  /\ field_is record "summary" (JStr review_summary)
  /\ field_is record "recommendations" (JStr review_recommendations)
  /\ field_is record "raw_response" (JStr analysisText)
  /\ carries_note record.
Proof.
  cbv zeta; repeat split.
  - intros k q H; cbn in H; lookup_cases; try discriminate.
    now inversion H.
  - cbn in H; lookup_cases; try discriminate; now inversion H.
  - cbn in H; lookup_cases; try discriminate; now inversion H.
  - exists (lit "summary"), review_summary; repeat split; discriminate.
Qed.

Lemma content_fallback_fields (analysisText : jsstring) :
  let record := analyzeContent_fallback analysisText in
  numeric_fields_zero record /\ list_fields_empty record
  /\ field_is record "score" (JNum 0)
  /\ field_is record "subject" (JStr (lit "Unknown"))
  /\ field_is record "errors" empty_array
  /\ field_is record "corrections" empty_array
  /\ field_is record "summary" (JStr analysisText)
  /\ field_is record "raw_response" (JStr analysisText).
Proof.
  cbv zeta; repeat split.
  - intros k q H; cbn in H; lookup_cases; try discriminate.
    now inversion H.
  - cbn in H; lookup_cases; try discriminate; now inversion H.
  - cbn in H; lookup_cases; try discriminate; now inversion H.
Qed.

(** C6, as the code has it.  When the inner [try] of
    [analyzeContentWithStatement] throws (the parse or the validation),
    and when the parse of [analyzeContent] throws, the fallback record
    of that function is returned.  Both fallback records have 0 in
    their score, the subject [Unknown], an empty array in every list
    field and the response as received in [raw_response].  The
    fallback of [analyzeContentWithStatement] has fixed notes asking
    for a manual review in [summary] and [recommendations]; the
    fallback of [analyzeContent] has the response itself in
    [summary]. *)
Theorem degraded_record_contents (analysisText : jsstring) :
  (forall e,
      parse_and_validate JSON_parse (clean analysisText) = Throw e ->
      analyzeContentWithStatement_recover JSON_parse analysisText
      = Ok (analyzeContentWithStatement_fallback analysisText))
  /\ (forall e,
         JSON_parse analysisText = Throw e ->
         analyzeContent_recover JSON_parse analysisText
         = Ok (analyzeContent_fallback analysisText))
  /\ (let record := analyzeContentWithStatement_fallback analysisText in
      numeric_fields_zero record /\ list_fields_empty record
      /\ field_is record "overall_score" (JNum 0)
      /\ field_is record "subject" (JStr (lit "Unknown"))
      /\ field_is record "question_analysis" empty_array
      /\ field_is record "summary" (JStr review_summary)
      /\ field_is record "recommendations" (JStr review_recommendations)
      /\ field_is record "raw_response" (JStr analysisText)
      /\ carries_note record)
  /\ (let record := analyzeContent_fallback analysisText in
      numeric_fields_zero record /\ list_fields_empty record
      /\ field_is record "score" (JNum 0)
      /\ field_is record "subject" (JStr (lit "Unknown"))
      /\ field_is record "errors" empty_array
      /\ field_is record "corrections" empty_array
      /\ field_is record "summary" (JStr analysisText)
      /\ field_is record "raw_response" (JStr analysisText)).
Proof.
  split; [|split; [|split]].
  - intros e H; unfold analyzeContentWithStatement_recover.
    now rewrite H.
  - intros e H; unfold analyzeContent_recover.
    now rewrite H.
  - apply statement_fallback_fields.
  - apply content_fallback_fields.
Qed.

End RecoveryClaims.

Section RecoveryRuns.

Import Cleaner AIService.

Lemma degraded_record_contents_witness :
  analyzeContentWithStatement_recover JSON.parse (lit " ")
  = Ok (analyzeContentWithStatement_fallback (lit " "))
  /\ analyzeContent_recover JSON.parse (lit " ")
     = Ok (analyzeContent_fallback (lit " ")).
Proof.
  destruct (degraded_record_contents JSON.parse (lit " ")) as (H1 & H2 & _).
  split; [eapply H1 | eapply H2]; vm_compute; reflexivity.
Defined.

(** C6, as stated, fails on [analyzeContent]: for a response that is
    one space the parse throws, and the fallback record carries the
    space as its summary, not a note for the reader. *)
Lemma content_fallback_without_note :
  (exists e, JSON.parse (lit " ") = Throw e)
  /\ analyzeContent_recover JSON.parse (lit " ")
     = Ok (analyzeContent_fallback (lit " "))
  /\ field_is (analyzeContent_fallback (lit " ")) "summary" (JStr (lit " "))
  /\ ~ carries_note (analyzeContent_fallback (lit " ")).
Proof.
  split; [eexists; vm_compute; reflexivity|].
  split; [reflexivity|].
  split; [reflexivity|].
  intros (k & note & Hsubject & Hraw & Hfield & Hvisible).
  cbn in Hfield; lookup_cases; try discriminate;
    try (now apply Hsubject); try (now apply Hraw).
  inversion Hfield; subst note.
  vm_compute in Hvisible; discriminate.
Qed.

(** The inputs the specification lists, run through both recoveries
    with the model of the built-in parser. *)

Example recover_empty_string :
  analyzeContentWithStatement_recover JSON.parse []
  = Ok (analyzeContentWithStatement_fallback [])
  /\ analyzeContent_recover JSON.parse [] = Ok (analyzeContent_fallback []).
Proof. split; reflexivity. Qed.

Example recover_white_space :
  let text := lit "   " in
  analyzeContentWithStatement_recover JSON.parse text
  = Ok (analyzeContentWithStatement_fallback text)
  /\ analyzeContent_recover JSON.parse text
     = Ok (analyzeContent_fallback text).
Proof. split; reflexivity. Qed.

(** Valid JSON of another shape: an array is not an object, and an
    object without [question_analysis] gets an empty one. *)
Example recover_wrong_shape :
  let array := lit "[1, 2]" in
  let object := lit "{" ++ quoted "score" ++ lit ": 85, "
                    ++ quoted "errors" ++ lit ": []}" in
  analyzeContentWithStatement_recover JSON.parse array
  = Ok (analyzeContentWithStatement_fallback array)
  /\ analyzeContent_recover JSON.parse array
     = Ok (JArr [JNum 1; JNum 2] [])
  /\ analyzeContentWithStatement_recover JSON.parse object
     = Ok (JObj [ key "score" (JNum 85); key "errors" empty_array;
                  key "question_analysis" empty_array ]).
Proof. repeat split; vm_compute; reflexivity. Qed.

(** A response cut inside its summary: the repair closes it, and the
    repaired text parses. *)
Example recover_truncated_summary :
  let text := lit "{" ++ quoted "summary" ++ lit ": " ++ DQ :: lit "Good work" in
  analyzeContentWithStatement_recover JSON.parse text
  = Ok (JObj [ key "summary" (JStr (lit "Good work"));
               key "recommendations"
                   (JStr (lit "Please review the detailed analysis above"));
               key "question_analysis" empty_array ])
  /\ analyzeContent_recover JSON.parse text
     = Ok (analyzeContent_fallback text).
Proof. split; vm_compute; reflexivity. Qed.

Example recover_fenced :
  let text := lit "```json
{" ++ quoted "score" ++ lit ": 90}
```" in
  analyzeContentWithStatement_recover JSON.parse text
  = Ok (JObj [ key "score" (JNum 90); key "question_analysis" empty_array ]).
Proof. vm_compute; reflexivity. Qed.

End RecoveryRuns.

(* ================================================================== *)
(** * The geometry of the page encoder *)
(* ================================================================== *)

Section Geometry.

Import Sharp.

Local Open Scope Q_scope.

Lemma qmax_l (a b : Q) : a <= qmax a b.
Proof.
  unfold qmax; destruct (Qle_bool a b) eqn:E.
  - now apply Qle_bool_iff.
  - apply Qle_refl.
Qed.

Lemma qmax_r (a b : Q) : b <= qmax a b.
Proof.
  unfold qmax; destruct (Qle_bool a b) eqn:E.
  - apply Qle_refl.
  - apply Qlt_le_weak, Qnot_le_lt; intros H.
    apply Qle_bool_iff in H; congruence.
Qed.

Lemma qmax_lub (a b c : Q) : a <= c -> b <= c -> qmax a b <= c.
Proof. unfold qmax; now destruct (Qle_bool a b). Qed.

Lemma qmin_cases (a b : Q) :
  qmin a b = a /\ a <= b \/ qmin a b = b /\ b <= a.
Proof.
  unfold qmin; destruct (Qle_bool a b) eqn:E.
  - left; split; [reflexivity | now apply Qle_bool_iff].
  - right; split; [reflexivity|].
    apply Qlt_le_weak, Qnot_le_lt; intros H.
    apply Qle_bool_iff in H; congruence.
Qed.

Lemma Qfloor_half (n : Z) : Qfloor (inject_Z n + (1 # 2)) = n.
Proof.
  unfold Qfloor, Qplus, inject_Z; simpl.
  symmetry; apply (Z.div_unique_pos _ _ _ 1); lia.
Qed.

Lemma round_le (x : Q) (n : Z) : x <= inject_Z n -> (round x <= n)%Z.
Proof.
  intros H; unfold round.
  rewrite <- (Qfloor_half n); apply Qfloor_resp_le; lra.
Qed.

Lemma round_ge (x : Q) (n : Z) : inject_Z n <= x -> (n <= round x)%Z.
Proof.
  intros H; unfold round.
  rewrite <- (Qfloor_half n) at 1; apply Qfloor_resp_le; lra.
Qed.

Lemma inject_Z_ge_1 (w : Z) : (1 <= w)%Z -> 1 <= inject_Z w.
Proof. intros H; unfold Qle; simpl; lia. Qed.

(** A requested extent, as a rational, times the ratio of the input's
    extent to it, is the input's extent. *)
Lemma ratio_spec (w target : Z) :
  (1 <= target)%Z -> inject_Z target * ratio w target == inject_Z w.
Proof.
  intros Ht; unfold ratio, Qeq, Qmult, inject_Z; simpl.
  rewrite Z2Pos.id by lia; ring.
Qed.

(** One axis: with a shrink factor of at least 1 and at least the
    ratio of the input's extent to the requested one, the scaled
    extent lies between 1 and both of them. *)
Lemma axis_bounds (w target : Z) (shrink : Q) :
  (1 <= w)%Z -> (1 <= target)%Z ->
  1 <= shrink -> ratio w target <= shrink ->
  let x := inject_Z w / qmin shrink (inject_Z w) in
  1 <= x /\ x <= inject_Z target /\ x <= inject_Z w.
Proof.
  intros Hw Ht Hs Hr x.
  assert (Hw' : 1 <= inject_Z w) by (apply inject_Z_ge_1; exact Hw).
  assert (Ht' : 1 <= inject_Z target) by (apply inject_Z_ge_1; exact Ht).
  pose proof (ratio_spec w target Ht) as Hspec.
  assert (Hmul : inject_Z w <= inject_Z target * shrink).
  { rewrite <- Hspec. apply Qmult_le_l; [lra | exact Hr]. }
  subst x.
  destruct (qmin_cases shrink (inject_Z w)) as [[-> Hle] | [-> Hle]].
  - repeat split.
    + apply Qle_shift_div_l; lra.
    + apply Qle_shift_div_r; lra.
    + apply Qle_shift_div_r; [lra|].
      rewrite <- (Qmult_1_r (inject_Z w)) at 1.
      apply Qmult_le_l; lra.
  - assert (E : inject_Z w / inject_Z w == 1)
      by (apply Qmult_inv_r; lra).
    rewrite E; repeat split; lra.
Qed.

(** One axis of an input within the requested extents: a shrink
    factor of exactly 1 leaves the extent as it is. *)
Lemma axis_unchanged (w : Z) (shrink : Q) :
  (1 <= w)%Z -> shrink == 1 ->
  round (inject_Z w / qmin shrink (inject_Z w)) = w.
Proof.
  intros Hw Hs.
  assert (Hw' : 1 <= inject_Z w) by (apply inject_Z_ge_1; exact Hw).
  assert (E : inject_Z w / qmin shrink (inject_Z w) == inject_Z w).
  { destruct (qmin_cases shrink (inject_Z w)) as [[-> Hle] | [-> Hle]].
    - rewrite Hs; unfold Qdiv; change (/ 1) with 1; apply Qmult_1_r.
    - assert (Hone : inject_Z w == 1) by lra.
      unfold Qdiv; rewrite Qmult_inv_r by lra.
      now symmetry. }
  apply Z.le_antisymm; [apply round_le | apply round_ge]; rewrite E; lra.
Qed.

Lemma round_near (x : Q) :
  inject_Z (round x) <= x + (1 # 2) /\ x + (1 # 2) < inject_Z (round x) + 1.
Proof.
  unfold round; split.
  - apply Qfloor_le.
  - pose proof (Qlt_floor (x + (1 # 2))) as H.
    rewrite inject_Z_plus in H. exact H.
Qed.

Lemma div_mul (x s : Q) : 0 < s -> (x / s) * s == x.
Proof. intros H. field. lra. Qed.

Ltac nonneg_product x y :=
  assert (0 <= x * y) by (apply Qmult_le_0_compat; lra).

(** The arithmetic of the proportions, on rationals: [qa] and [qb] are
    the rounded extents, [a] and [b] the exact ones. *)
Lemma proportions_kept (iw ih s hs vs a b qa qb : Q) :
  1 <= iw -> 1 <= ih -> 1 <= s ->
  (hs == s /\ s <= iw \/ hs == iw /\ iw <= s /\ qa == 1) ->
  (vs == s /\ s <= ih \/ vs == ih /\ ih <= s /\ qb == 1) ->
  a * hs == iw -> b * vs == ih -> 0 <= a -> 0 <= b ->
  qa <= a + (1 # 2) -> a + (1 # 2) < qa + 1 ->
  qb <= b + (1 # 2) -> b + (1 # 2) < qb + 1 ->
  - (iw + ih) <= qa * ih - qb * iw <= iw + ih.
Proof.
  intros Hw Hh Hs [[E1 L1] | (E1 & L1 & I1)] [[E2 L2] | (E2 & L2 & I2)]
         Ea Eb Ha Hb A1 A2 B1 B2.
  - rewrite E1 in Ea; rewrite E2 in Eb.
    assert (Eab : a * ih == b * iw) by (rewrite <- Ea, <- Eb; ring).
    nonneg_product (a + (1 # 2) - qa) ih.
    nonneg_product (qa + 1 - (a + (1 # 2))) ih.
    nonneg_product (b + (1 # 2) - qb) iw.
    nonneg_product (qb + 1 - (b + (1 # 2))) iw.
    split; lra.
  - rewrite E1 in Ea; rewrite I2.
    nonneg_product a (s - ih).
    nonneg_product a ih.
    nonneg_product (a + (1 # 2) - qa) ih.
    nonneg_product (qa + 1 - (a + (1 # 2))) ih.
    split; lra.
  - rewrite E2 in Eb; rewrite I1.
    nonneg_product b (s - iw).
    nonneg_product b iw.
    nonneg_product (b + (1 # 2) - qb) iw.
    nonneg_product (qb + 1 - (b + (1 # 2))) iw.
    split; lra.
  - rewrite I1, I2; split; lra.
Qed.

Lemma round_one (x : Q) : x == 1 -> round x = 1%Z.
Proof.
  intros E; apply Z.le_antisymm; [apply round_le | apply round_ge];
    rewrite E; apply Qle_refl.
Qed.

Lemma aspect_kept (w h : Z) (s : Q) :
  (1 <= w)%Z -> (1 <= h)%Z -> 1 <= s ->
  let A := round (inject_Z w / qmin s (inject_Z w)) in
  let B := round (inject_Z h / qmin s (inject_Z h)) in
  (Z.abs (A * h - B * w) <= w + h)%Z.
Proof.
  intros Hw Hh Hs A B.
  pose proof (inject_Z_ge_1 w Hw) as Hw'.
  pose proof (inject_Z_ge_1 h Hh) as Hh'.
  assert (axis : forall x : Z, 1 <= inject_Z x ->
            let hs := qmin s (inject_Z x) in
            let a := inject_Z x / hs in
            (hs == s /\ s <= inject_Z x
             \/ hs == inject_Z x /\ inject_Z x <= s /\ inject_Z (round a) == 1)
            /\ a * hs == inject_Z x /\ 0 <= a).
  { intros x Hx hs a; subst a hs.
    destruct (qmin_cases s (inject_Z x)) as [[E L] | [E L]]; rewrite E.
    - split; [left; split; [reflexivity | exact L]|].
      split; [apply div_mul; lra | apply Qle_shift_div_l; lra].
    - assert (Ex : inject_Z x / inject_Z x == 1) by (field; lra).
      split; [right; split; [reflexivity | split; [exact L|]]|].
      + now rewrite (round_one _ Ex).
      + split; [apply div_mul; lra | apply Qle_shift_div_l; lra]. }
  destruct (axis w Hw') as (Cw & Ea & Ha).
  destruct (axis h Hh') as (Ch & Eb & Hb).
  destruct (round_near (inject_Z w / qmin s (inject_Z w))) as [A1 A2].
  destruct (round_near (inject_Z h / qmin s (inject_Z h))) as [B1 B2].
  pose proof (proportions_kept _ _ _ _ _ _ _ _ _
                Hw' Hh' Hs Cw Ch Ea Eb Ha Hb A1 A2 B1 B2) as [Lo Hi].
  fold A in Lo, Hi; fold B in Lo, Hi.
  apply Z.abs_le.
  rewrite !Zle_Qle.
  unfold Z.sub.
  rewrite !inject_Z_opp, !inject_Z_plus, !inject_Z_opp, !inject_Z_mult.
  split; lra.
Qed.

Lemma ratio_le_1 (w target : Z) :
  (1 <= target)%Z -> (w <= target)%Z -> ratio w target <= 1.
Proof.
  intros Ht Hw; unfold ratio, Qle; simpl.
  rewrite Z2Pos.id by lia; lia.
Qed.

(** The resize of the service: inside the requested extents, without
    enlargement. *)
Lemma resize_inside (W H : Z) (q : N) (img : Raster) :
  (1 <= W)%Z -> (1 <= H)%Z ->
  (1 <= width img)%Z -> (1 <= height img)%Z ->
  encoded_within W H img
    {| quality := q;
       image := resize W H FileProcessor.inside_without_enlargement img |}.
Proof.
  intros HW HH Hw Hh.
  destruct img as [w h pic]; cbn in Hw, Hh.
  unfold encoded_within, resize, resolve_shrink.
  cbn [image width height picture fit withoutEnlargement
       FileProcessor.inside_without_enlargement].
  set (s := qmax 1 (qmax (ratio w W) (ratio h H))).
  assert (Hs : 1 <= s) by apply qmax_l.
  assert (Hsw : ratio w W <= s).
  { eapply Qle_trans; [apply qmax_l | apply qmax_r]. }
  assert (Hsh : ratio h H <= s).
  { eapply Qle_trans; [apply (qmax_r (ratio w W)) | apply qmax_r]. }
  destruct (axis_bounds w W s Hw HW Hs Hsw) as (w1 & w2 & w3).
  destruct (axis_bounds h H s Hh HH Hs Hsh) as (h1 & h2 & h3).
  repeat split;
    try (apply round_le; assumption);
    try (apply (round_ge _ 1); assumption).
  - apply aspect_kept; assumption.
  - intros Hin_w Hin_h.
    assert (Es : s == 1).
    { apply Qle_antisym; [|exact Hs].
      apply qmax_lub; [apply Qle_refl|].
      apply qmax_lub; apply ratio_le_1; assumption. }
    now rewrite (axis_unchanged w s Hw Es), (axis_unchanged h s Hh Es).
Qed.

End Geometry.

(* ================================================================== *)
(** * The file processor *)
(* ================================================================== *)

Section Encoder.

Import Sharp IO FileProcessor.

Variable env : Env.

Lemma sharp_to_jpeg_ok (input : Input)
      (resizing : option (Z * Z * ResizeOptions)) (q : N)
      (img : Raster) (t : Trace) :
  sharp_decode env input = Ok img ->
  sharp_to_jpeg env input resizing q t
  = (Some (Ok {| quality := q;
                 image := match resizing with
                          | Some (w, h, o) => resize w h o img
                          | None => img
                          end |}),
     t ++ [EvSharp input]).
Proof.
  intros H; unfold sharp_to_jpeg, bind, call, ret; now rewrite H.
Qed.

Lemma sharp_to_jpeg_throw (input : Input)
      (resizing : option (Z * Z * ResizeOptions)) (q : N)
      (e : JsError) (t : Trace) :
  sharp_decode env input = Throw e ->
  sharp_to_jpeg env input resizing q t
  = (Some (Throw e), t ++ [EvSharp input]).
Proof.
  intros H; unfold sharp_to_jpeg, bind, call, ret; now rewrite H.
Qed.

(** The loop body on a page that is rendered and encoded. *)
Lemma convert_page_ok (convert : Converter) (st : LoopState)
      (buffer : Buffer) (img : Raster) (t : Trace) :
  convert (pageNum st) = Ok (Some buffer) ->
  sharp_decode env (FromBuffer buffer) = Ok img ->
  convert_page env convert st t
  = (Some (Ok {| images :=
                   images st
                   ++ [{| quality := 85;
                          image := resize 1024 1448
                                          inside_without_enlargement img |}];
                 pageNum := pageNum st + 1;
                 hasMorePages := hasMorePages st |}),
     t ++ [EvConvert (pageNum st); EvSharp (FromBuffer buffer)]).
Proof.
  intros Hc Hd; unfold convert_page, try_catch, bind at 1, call.
  rewrite Hc; unfold bind.
  rewrite (sharp_to_jpeg_ok _ _ _ img _ Hd).
  unfold ret; now rewrite <- app_assoc.
Qed.

(** C9. The page encoder keeps every decodable image within the
    configured extents and never enlarges it: the page that
    [processImage] returns is within 1024 by 1024, and the page that
    the loop of [processPDFWithPdf2Pic] appends is within 1024 by
    1448; neither is larger than the decoded image, both keep its
    proportions up to the rounding of a pixel, and an image already
    within the extents keeps its extents. *)
Theorem encoder_respects_bounds (img : Raster) :
  (1 <= width img)%Z -> (1 <= height img)%Z ->
  (forall imagePath t,
      sharp_decode env (FromPath imagePath) = Ok img ->
      exists page,
        processImage env imagePath t
        = (Some (Ok [page]), t ++ [EvSharp (FromPath imagePath)])
        /\ quality page = 85%N
        /\ encoded_within 1024 1024 img page)
  /\ (forall convert st buffer t,
         convert (pageNum st) = Ok (Some buffer) ->
         sharp_decode env (FromBuffer buffer) = Ok img ->
         exists page,
           convert_page env convert st t
           = (Some (Ok {| images := images st ++ [page];
                          pageNum := pageNum st + 1;
                          hasMorePages := hasMorePages st |}),
              t ++ [EvConvert (pageNum st); EvSharp (FromBuffer buffer)])
           /\ quality page = 85%N
           /\ encoded_within 1024 1448 img page).
Proof.
  intros Hw Hh; split.
  - intros imagePath t Hd.
    eexists; split.
    + unfold processImage, try_catch, bind.
      rewrite (sharp_to_jpeg_ok _ _ _ img _ Hd); reflexivity.
    + split; [reflexivity|].
      apply resize_inside; (assumption || lia).
  - intros convert st buffer t Hc Hd.
    eexists; split.
    + apply (convert_page_ok _ _ _ img); assumption.
    + split; [reflexivity|].
      apply resize_inside; (assumption || lia).
Qed.

End Encoder.

Lemma encoder_respects_bounds_witness :
  let env := Scenario.document None [] Scenario.decoder in
  let img := {| Sharp.width := 4000; Sharp.height := 3000;
                Sharp.picture := 0 |} in
  exists page,
    FileProcessor.processImage env (lit "uploads/files-1") []
    = (Some (Ok [page]), [IO.EvSharp (Sharp.FromPath (lit "uploads/files-1"))])
    /\ Sharp.quality page = 85%N
    /\ encoded_within 1024 1024 img page.
Proof.
  intros env img.
  destruct (encoder_respects_bounds env img) as [Himage _];
    [simpl; lia | simpl; lia |].
  apply (Himage (lit "uploads/files-1") []); reflexivity.
Defined.

Example photograph_is_scaled_down :
  FileProcessor.processImage (Scenario.document None [] Scenario.decoder)
                             (lit "uploads/files-1") []
  = (Some (Ok [ {| Sharp.quality := 85;
                   Sharp.image := {| Sharp.width := 1024;
                                     Sharp.height := 768;
                                     Sharp.picture := 0 |} |} ]),
     [IO.EvSharp (Sharp.FromPath (lit "uploads/files-1"))]).
Proof. vm_compute; reflexivity. Qed.

Section Tier1.

Import Sharp IO FileProcessor.

Variable env : Env.

Lemma while_done {St} (fuel : nat) (cond : St -> bool) (body : St -> IO St)
      (s : St) :
  cond s = false -> while fuel cond body s = ret s.
Proof. intros H; destruct fuel; simpl; now rewrite H. Qed.

Lemma while_step {St} (fuel : nat) (cond : St -> bool) (body : St -> IO St)
      (s : St) :
  cond s = true ->
  while (S fuel) cond body s = bind (body s) (while fuel cond body).
Proof. intros H; simpl; now rewrite H. Qed.

(** The loop body on a page that is not produced: the loop is told to
    stop, and nothing is appended. *)
Lemma convert_page_stops (convert : Converter) (st : LoopState) (t : Trace) :
  tier1_page_fails env convert (pageNum st) ->
  exists events,
    convert_page env convert st t
    = (Some (Ok (no_more_pages st)), t ++ events)
    /\ existsb tier2_event events = false.
Proof.
  intros [[e Hc] | [Hc | (buffer & e & Hc & Hd)]];
    unfold convert_page, try_catch, bind at 1, call; rewrite Hc.
  - exists [EvConvert (pageNum st)]; split; reflexivity.
  - exists [EvConvert (pageNum st)]; split; reflexivity.
  - exists [EvConvert (pageNum st); EvSharp (FromBuffer buffer)].
    unfold bind; rewrite (sharp_to_jpeg_throw env _ _ _ e _ Hd).
    unfold ret; rewrite <- app_assoc; split; reflexivity.
Qed.

(** The loop from page [p] on, when the pages [p], [p + 1], ... are
    produced as [rest] and the next one, if within the limit, is
    not. *)
Lemma tier1_loop (convert : Converter) (rest : list Jpeg) :
  forall (fuel : nat) (done : list Jpeg) (p : nat) (t : Trace),
    (p + List.length rest <= 21)%nat ->
    (21 <= fuel + p)%nat ->
    (forall i page,
        nth_error rest i = Some page ->
        tier1_page env convert (p + i) page) ->
    ((p + List.length rest <= 20)%nat ->
     tier1_page_fails env convert (p + List.length rest)) ->
    exists st' events,
      while fuel loop_condition (convert_page env convert)
            {| images := done; pageNum := p; hasMorePages := true |} t
      = (Some (Ok st'), t ++ events)
      /\ images st' = done ++ rest
      /\ existsb tier2_event events = false.
Proof.
  induction rest as [|page rest IH]; intros fuel done p t Hlim Hfuel Hok Hfail;
    cbn [List.length] in *.
  - destruct (Nat.leb_spec p 20) as [Hp | Hp].
    + destruct fuel as [|fuel]; [lia|].
      rewrite while_step
        by (unfold loop_condition; cbn; now apply Nat.leb_le).
      destruct (convert_page_stops
                  convert
                  {| images := done; pageNum := p; hasMorePages := true |} t)
        as (events & Hbody & Hev).
      { cbn. replace p with (p + 0)%nat by lia. apply Hfail; lia. }
      unfold bind; rewrite Hbody.
      rewrite while_done by reflexivity.
      eexists; exists events; split; [reflexivity|].
      split; [cbn; now rewrite app_nil_r | exact Hev].
    + rewrite while_done
        by (unfold loop_condition; cbn; apply Nat.leb_gt; lia).
      eexists; exists []; split; [unfold ret; now rewrite app_nil_r|].
      split; [cbn; now rewrite app_nil_r | reflexivity].
  - destruct fuel as [|fuel]; [lia|].
    rewrite while_step
      by (unfold loop_condition; cbn; apply Nat.leb_le; lia).
    destruct (Hok 0%nat page eq_refl) as (buffer & img & Hc & Hd & Hpage).
    replace (p + 0)%nat with p in Hc by lia.
    unfold bind.
    rewrite (convert_page_ok env convert _ buffer img t) by exact Hc || exact Hd.
    cbn [images pageNum hasMorePages]; rewrite <- Hpage.
    destruct (IH fuel (done ++ [page]) (p + 1)%nat
                 (t ++ [EvConvert p; EvSharp (FromBuffer buffer)]))
      as (st' & events & Hrun & Himg & Hev).
    + lia.
    + lia.
    + intros i page' Hi.
      replace (p + 1 + i)%nat with (p + S i)%nat by lia.
      apply Hok; exact Hi.
    + intros Hle.
      replace (p + 1 + List.length rest)%nat
        with (p + S (List.length rest))%nat by lia.
      apply Hfail; lia.
    + exists st', ([EvConvert p; EvSharp (FromBuffer buffer)] ++ events).
      split; [rewrite Hrun; now rewrite <- app_assoc|].
      split; [rewrite Himg; now rewrite <- app_assoc|].
      exact Hev.
Qed.

(** C3. When the renderer is installed, pages 1 to [k] of a PDF are
    rendered and encoded (with [k] from 1 to 20) and page [k + 1] is
    not (no such page is tried after page 20), [processPDF] returns
    exactly these [k] pages in the order of the document, and no call
    of the text-extraction fallback is made. *)
Theorem tier1_pages_in_order (module : Pdf2Pic) (convert : Converter)
        (pdfPath : jsstring) (pages : list Jpeg) (t : Trace) :
  pdf2pic env = Some module ->
  fromPath module pdfPath options = Ok convert ->
  (1 <= List.length pages <= 20)%nat ->
  (forall i page,
      nth_error pages i = Some page ->
      tier1_page env convert (i + 1) page) ->
  ((List.length pages < 20)%nat ->
   tier1_page_fails env convert (List.length pages + 1)) ->
  exists events,
    processPDF env pdfPath t = (Some (Ok pages), t ++ events)
    /\ existsb tier2_event events = false.
Proof.
  intros Hmod Hfrom Hlen Hok Hfail.
  destruct (tier1_loop convert pages 20 [] 1 (t ++ [EvFromPath pdfPath]))
    as (st' & events & Hrun & Himg & Hev).
  - lia.
  - lia.
  - intros i page Hi.
    replace (1 + i)%nat with (i + 1)%nat by lia; now apply Hok.
  - intros Hle.
    replace (1 + List.length pages)%nat
      with (List.length pages + 1)%nat by lia.
    apply Hfail; lia.
  - exists (EvFromPath pdfPath :: events).
    split; [|exact Hev].
    unfold processPDF, processPDFWithPdf2Pic; rewrite Hmod.
    unfold try_catch, bind at 1, call; rewrite Hfrom.
    unfold bind; rewrite Hrun, Himg; cbn [app].
    destruct pages as [|page pages]; [cbn in Hlen; lia|].
    cbn; unfold ret.
    now rewrite <- app_assoc.
Qed.

End Tier1.

Lemma tier1_pages_in_order_witness :
  let env := Scenario.document (Some 2%nat) [] Scenario.decoder in
  exists events,
    FileProcessor.processPDF env (lit "uploads/files-1") []
    = (Some (Ok [Scenario.rendered_page 1; Scenario.rendered_page 2]),
       [] ++ events)
    /\ existsb IO.tier2_event events = false.
Proof.
  intros env.
  refine (tier1_pages_in_order
            env (Scenario.renderer 2)
            (fun n => if ((1 <=? n) && (n <=? 2))%nat
                      then Ok (Some [N.of_nat n])
                      else Throw Scenario.no_such_page)
            (lit "uploads/files-1")
            [Scenario.rendered_page 1; Scenario.rendered_page 2] []
            eq_refl eq_refl _ _ _).
  - simpl; lia.
  - intros [|[|i]] page Hpage; cbn [nth_error] in Hpage.
    + injection Hpage as <-.
      exists [1%N]; eexists; repeat split; reflexivity.
    + injection Hpage as <-.
      exists [2%N]; eexists; repeat split; reflexivity.
    + destruct i; discriminate.
  - intros _; left; eexists; reflexivity.
Defined.

Section Tier2.

Import Sharp IO FileProcessor.

Variable env : Env.

Lemma split_pages_more (fuel : nat) (text : jsstring) (i : nat)
      (pages : list jsstring) :
  (i < List.length text)%nat ->
  split_pages (S fuel) text i pages
  = split_pages fuel text (i + textPerPage)
                (pages ++ [substring text i (i + textPerPage)]).
Proof.
  intros H; simpl.
  destruct (Nat.ltb_spec i (List.length text)); [reflexivity | lia].
Qed.

Lemma split_pages_end (fuel : nat) (text : jsstring) (i : nat)
      (pages : list jsstring) :
  (List.length text <= i)%nat -> split_pages fuel text i pages = Some pages.
Proof.
  intros H; destruct fuel; simpl;
    destruct (Nat.ltb_spec i (List.length text)); (reflexivity || lia).
Qed.

Lemma ceiling_bounds (len : nat) :
  let n := ((len + 1999) / 2000)%nat in
  (len <= n * 2000 /\ n * 2000 < len + 2000)%nat.
Proof.
  intros n.
  pose proof (Nat.div_mod_eq (len + 1999) 2000) as Hdiv.
  pose proof (Nat.mod_upper_bound (len + 1999) 2000 ltac:(lia)) as Hmod.
  fold n in Hdiv; clearbody n; lia.
Qed.

(** The pages of the text from page [j] on, [n] being the ceiling of
    the length over 2000. *)
Lemma split_pages_from (text : jsstring) (n : nat) :
  (List.length text <= n * 2000)%nat ->
  (n * 2000 < List.length text + 2000)%nat ->
  forall (fuel j : nat) (pages : list jsstring),
    (n - j <= fuel)%nat ->
    split_pages fuel text (j * 2000) pages
    = Some (pages
            ++ map (fun i => substring text (i * 2000) (i * 2000 + 2000))
                   (seq j (n - j))).
Proof.
  intros Hup Hlow.
  induction fuel as [|fuel IH]; intros j pages Hfuel.
  - rewrite split_pages_end by lia.
    replace (n - j)%nat with 0%nat by lia; cbn; now rewrite app_nil_r.
  - destruct (Nat.ltb_spec (j * 2000) (List.length text)) as [Hlt | Hge].
    + rewrite split_pages_more by exact Hlt.
      replace (j * 2000 + textPerPage)%nat with (S j * 2000)%nat
        by (unfold textPerPage; lia).
      rewrite IH by lia.
      replace (n - j)%nat with (S (n - S j)) by lia.
      cbn [seq map]; rewrite <- app_assoc.
      replace (S j * 2000)%nat with (j * 2000 + 2000)%nat by lia.
      reflexivity.
    + rewrite split_pages_end by exact Hge.
      replace (n - j)%nat with 0%nat by lia.
      cbn; now rewrite app_nil_r.
Qed.

Lemma substring_chunk (text : jsstring) (i : nat) :
  substring text (i * 2000) (i * 2000 + 2000)
  = firstn 2000 (skipn (i * 2000) text).
Proof.
  unfold substring; f_equal; lia.
Qed.

(** The chunks from page [j] on are the text from character
    [j * 2000] on. *)
Lemma chunks_cover_from (text : jsstring) :
  forall n j,
    (List.length text <= (j + n) * 2000)%nat ->
    List.concat (map (fun i => substring text (i * 2000) (i * 2000 + 2000))
                (seq j n))
    = skipn (j * 2000) text.
Proof.
  induction n as [|n IH]; intros j Hlen; cbn [seq map List.concat].
  - symmetry; apply skipn_all2; lia.
  - rewrite IH by lia.
    rewrite substring_chunk.
    replace (S j * 2000)%nat with (2000 + j * 2000)%nat by lia.
    rewrite <- skipn_skipn.
    apply firstn_skipn.
Qed.

Lemma nth_error_map_seq {A} (f : nat -> A) :
  forall n s k,
    nth_error (map f (seq s n)) k
    = if (k <? n)%nat then Some (f (s + k)%nat) else None.
Proof.
  induction n as [|n IH]; intros s k; cbn [seq map].
  - now destruct k.
  - destruct k as [|k]; cbn [nth_error].
    + now rewrite Nat.add_0_r.
    + rewrite IH.
      replace (S s + k)%nat with (s + S k)%nat by lia.
      reflexivity.
Qed.

(** The texts of the pages, after the placeholder has been put in for
    an empty text. *)
Lemma pages_of_text (text : jsstring) :
  exists pages,
    split_pages (List.length text) text 0 [] = Some pages
    /\ (if (List.length pages =? 0)%nat then pages ++ [placeholder]
        else pages)
       = map (chunk text) (seq 0 (page_count (List.length text))).
Proof.
  destruct (ceiling_bounds (List.length text)) as [Hup Hlow].
  set (n := ((List.length text + 1999) / 2000)%nat) in *.
  eexists; split.
  - apply (split_pages_from text n Hup Hlow (List.length text) 0 []); lia.
  - rewrite Nat.sub_0_r; cbn [app].
    rewrite length_map, length_seq.
    unfold page_count; fold n.
    destruct text as [|c text]; [reflexivity|].
    cbn [List.length] in *.
    destruct (Nat.eqb_spec n 0) as [E | _]; [lia|].
    reflexivity.
Qed.

Lemma createTextImage_ok (text : jsstring) (pageNum totalPages : nat)
      (img : Raster) (t : Trace) :
  sharp_decode env (FromSvg (text_page text pageNum totalPages)) = Ok img ->
  createTextImage env text pageNum totalPages t
  = (Some (Ok {| quality := 85; image := img |}),
     t ++ [EvSharp (FromSvg (text_page text pageNum totalPages))]).
Proof.
  intros H; unfold createTextImage, try_catch.
  now rewrite (sharp_to_jpeg_ok env _ _ _ img _ H).
Qed.

Lemma createTextImage_throw (text : jsstring) (pageNum totalPages : nat)
      (e : JsError) (t : Trace) :
  sharp_decode env (FromSvg (text_page text pageNum totalPages)) = Throw e ->
  createTextImage env text pageNum totalPages t
  = (Some (Throw (Error (lit "Failed to create text image"))),
     t ++ [EvSharp (FromSvg (text_page text pageNum totalPages))]).
Proof.
  intros H; unfold createTextImage, try_catch.
  now rewrite (sharp_to_jpeg_throw env _ _ _ e _ H).
Qed.

(** The rendering loop, when every page is drawn. *)
Lemma render_pages_ok (total : nat) (rest : list jsstring) :
  forall (i : nat) (done : list Jpeg) (t : Trace),
    (forall k c,
        nth_error rest k = Some c ->
        exists img,
          sharp_decode env (FromSvg (text_page c (i + k + 1) total)) = Ok img) ->
    exists imgs events,
      render_pages env rest i total done t
      = (Some (Ok (done ++ imgs)), t ++ events)
      /\ List.length imgs = List.length rest
      /\ (forall k page,
             nth_error imgs k = Some page ->
             exists c img,
               nth_error rest k = Some c
               /\ sharp_decode env (FromSvg (text_page c (i + k + 1) total))
                  = Ok img
               /\ page = {| quality := 85; image := img |}).
Proof.
  induction rest as [|c rest IH]; intros i done t Hok; cbn [render_pages].
  - exists [], []; unfold ret; rewrite !app_nil_r.
    split; [reflexivity | split; [reflexivity|]].
    intros [|k] page H; discriminate.
  - destruct (Hok 0%nat c eq_refl) as [img Himg].
    replace (i + 0 + 1)%nat with (i + 1)%nat in Himg by lia.
    unfold bind; rewrite (createTextImage_ok _ _ _ img _ Himg).
    destruct (IH (i + 1)%nat
                 (done ++ [{| quality := 85; image := img |}])
                 (t ++ [EvSharp (FromSvg (text_page c (i + 1) total))]))
      as (imgs & events & Hrun & Hlen & Hpages).
    { intros k c' Hk.
      replace (i + 1 + k + 1)%nat with (i + S k + 1)%nat by lia.
      now apply Hok. }
    exists ({| quality := 85; image := img |} :: imgs),
           (EvSharp (FromSvg (text_page c (i + 1) total)) :: events).
    split; [rewrite Hrun; now rewrite <- !app_assoc|].
    split; [cbn; now rewrite Hlen|].
    intros [|k] page Hk; cbn [nth_error] in *.
    + injection Hk as <-; exists c, img.
      replace (i + 0 + 1)%nat with (i + 1)%nat by lia; auto.
    + destruct (Hpages k page Hk) as (c' & img' & H1 & H2 & H3).
      exists c', img'.
      replace (i + S k + 1)%nat with (i + 1 + k + 1)%nat by lia; auto.
Qed.

(** The fallback, when the file is read, its text extracted and
    every page drawn. *)
Lemma text_extraction_pages (pdfPath : jsstring) (dataBuffer : Buffer)
      (pdfData_text : option jsstring) (t : Trace) :
  fs_readFileSync env pdfPath = Ok dataBuffer ->
  pdfParse env dataBuffer = Ok pdfData_text ->
  let text := match pdfData_text with Some x => x | None => [] end in
  let n := page_count (List.length text) in
  (forall i, (i < n)%nat ->
             exists img,
               sharp_decode env (FromSvg (text_page (chunk text i) (i + 1) n))
               = Ok img) ->
  exists pages events,
    processPDFWithTextExtraction env pdfPath t
    = (Some (Ok pages), t ++ events)
    /\ List.length pages = n
    /\ (forall i page,
           nth_error pages i = Some page -> tier2_page env text i n page).
Proof.
  intros Hread Hparse text n Hdraw.
  destruct (pages_of_text text) as (texts & Hsplit & Htexts).
  destruct (render_pages_ok
              n (map (chunk text) (seq 0 n)) 0 []
              ((t ++ [EvReadFile pdfPath]) ++ [EvPdfParse dataBuffer]))
    as (imgs & events & Hrun & Hlen & Hpages).
  { intros k c Hk; rewrite nth_error_map_seq in Hk.
    destruct (Nat.ltb_spec k n) as [Hlt | _]; [|discriminate].
    injection Hk as <-; cbn [Nat.add]; now apply Hdraw. }
  exists imgs, (EvReadFile pdfPath :: EvPdfParse dataBuffer :: events).
  split; [|split].
  - unfold processPDFWithTextExtraction, try_catch, bind, call.
    rewrite Hread, Hparse; fold text.
    rewrite Hsplit, Htexts; fold n.
    rewrite length_map, length_seq, Hrun.
    now rewrite <- !app_assoc.
  - now rewrite Hlen, length_map, length_seq.
  - intros i page Hi.
    destruct (Hpages i page Hi) as (c & img & Hc & Himg & Hpage).
    rewrite nth_error_map_seq in Hc.
    destruct (Nat.ltb_spec i n) as [Hlt | _]; [|discriminate].
    injection Hc as <-; cbn [Nat.add] in Himg.
    now exists img.
Qed.

(** When the first tier gives nothing, [processPDF] is the fallback,
    after the calls of the first tier. *)
Lemma tier1_nothing_falls_back (pdfPath : jsstring) (t : Trace) :
  tier1_gives_nothing env pdfPath ->
  exists events,
    processPDF env pdfPath t
    = processPDFWithTextExtraction env pdfPath (t ++ events)
    /\ existsb tier2_event events = false.
Proof.
  unfold tier1_gives_nothing, processPDF, processPDFWithPdf2Pic.
  destruct (pdf2pic env) as [module|].
  - unfold try_catch, bind at 1, call.
    destruct (fromPath module pdfPath options) as [convert | e].
    + intros Hfail.
      rewrite while_step by reflexivity.
      destruct (convert_page_stops
                  env convert
                  {| images := []; pageNum := 1; hasMorePages := true |}
                  (t ++ [EvFromPath pdfPath]) Hfail)
        as (events & Hbody & Hev).
      unfold bind; rewrite Hbody.
      rewrite while_done by reflexivity.
      exists (EvFromPath pdfPath :: events); split; [|exact Hev].
      cbn; now rewrite <- app_assoc.
    + intros _; exists [EvFromPath pdfPath]; split; reflexivity.
  - intros _; exists []; now rewrite app_nil_r.
Qed.

(** The pages of the fallback.  When the first tier is not available
    or gives no page, and the file is read, its text extracted and
    each page drawn, [processPDF] returns the pages of the fallback: as
    many as the ceiling of the length of the text over 2000, and one
    for an empty text; page [i] is the drawing of the [i]-th chunk of
    2000 characters, and the chunks, in order, make up the text. *)
Theorem tier2_page_count (pdfPath : jsstring) (dataBuffer : Buffer)
        (pdfData_text : option jsstring) (t : Trace) :
  tier1_gives_nothing env pdfPath ->
  fs_readFileSync env pdfPath = Ok dataBuffer ->
  pdfParse env dataBuffer = Ok pdfData_text ->
  let text := match pdfData_text with Some x => x | None => [] end in
  let n := page_count (List.length text) in
  (forall i, (i < n)%nat ->
             exists img,
               sharp_decode env (FromSvg (text_page (chunk text i) (i + 1) n))
               = Ok img) ->
  exists pages t',
    processPDF env pdfPath t = (Some (Ok pages), t')
    /\ List.length pages = n
    /\ n = (if (List.length text =? 0)%nat then 1
            else (List.length text + 1999) / 2000)%nat
    /\ (forall i page,
           nth_error pages i = Some page -> tier2_page env text i n page)
    /\ (text <> [] -> List.concat (map (chunk text) (seq 0 n)) = text).
Proof.
  intros Hnone Hread Hparse text n Hdraw.
  destruct (tier1_nothing_falls_back pdfPath t Hnone) as (events1 & Hfall & _).
  destruct (text_extraction_pages pdfPath dataBuffer pdfData_text
                                  (t ++ events1) Hread Hparse Hdraw)
    as (pages & events2 & Hrun & Hlen & Hpages).
  exists pages, ((t ++ events1) ++ events2).
  split; [now rewrite Hfall|].
  split; [exact Hlen|].
  split; [reflexivity|].
  split; [exact Hpages|].
  intros Hne; subst n; unfold page_count.
  destruct text as [|c text']; [congruence|].
  set (text0 := c :: text') in *.
  destruct (ceiling_bounds (List.length text0)) as [Hup _].
  cbn [List.length Nat.eqb text0].
  change (map (chunk text0))
    with (map (fun i => substring text0 (i * 2000) (i * 2000 + 2000))).
  rewrite chunks_cover_from by (cbn [Nat.add]; exact Hup).
  reflexivity.
Qed.

End Tier2.

Lemma tier2_page_count_witness :
  let env := Scenario.document None (Scenario.text_of_length 4500)
                               Scenario.decoder in
  exists pages t',
    FileProcessor.processPDF env (lit "uploads/files-1") []
    = (Some (Ok pages), t')
    /\ List.length pages = 3%nat.
Proof.
  intros env.
  destruct (tier2_page_count
              env (lit "uploads/files-1") (lit "%PDF")
              (Some (Scenario.text_of_length 4500)) [] I eq_refl eq_refl)
    as (pages & t' & Hrun & Hlen & _).
  - intros i _; eexists; reflexivity.
  - exists pages, t'; split; [exact Hrun | exact Hlen].
Defined.

(** The example of the specification: 4500 characters make 3 pages; and
    an empty text makes the one page of the placeholder. *)
Example fallback_of_4500_characters :
  Scenario.page_total
    (FileProcessor.processFile
       (Scenario.document None (Scenario.text_of_length 4500) Scenario.decoder)
       (Scenario.upload "exam.pdf") [])
  = Some (Ok 3%nat).
Proof. vm_compute; reflexivity. Qed.

Example fallback_of_empty_text :
  FileProcessor.processFile
    (Scenario.document None [] Scenario.decoder) (Scenario.upload "exam.pdf") []
  = (Some (Ok [ {| Sharp.quality := 85;
                   Sharp.image := {| Sharp.width := 1024;
                                     Sharp.height := 1448;
                                     Sharp.picture := 1 |} |} ]),
     [ IO.EvReadFile (lit "uploads/files-1");
       IO.EvPdfParse (lit "%PDF");
       IO.EvSharp
         (Sharp.FromSvg
            {| Sharp.svg_width := 1024; Sharp.svg_height := 1448;
               Sharp.svg_pageNum := 1; Sharp.svg_totalPages := 1;
               Sharp.svg_body := FileProcessor.placeholder |}) ]).
Proof. vm_compute; reflexivity. Qed.

Section Totality.

Import Sharp IO FileProcessor.

Variable env : Env.

Lemma tier1_page_or_not (convert : Converter) (n : nat) :
  tier1_page_fails env convert n \/ exists page, tier1_page env convert n page.
Proof.
  unfold tier1_page_fails, tier1_page.
  destruct (convert n) as [[buffer|] | e] eqn:Hc.
  - destruct (sharp_decode env (FromBuffer buffer)) as [img | e] eqn:Hd.
    + right; eexists; exists buffer, img; auto.
    + left; right; right; exists buffer, e; auto.
  - left; right; left; reflexivity.
  - left; left; exists e; reflexivity.
Qed.

(** The loop of the first tier always ends within its fuel, and with
    no more than one page for each page number up to 20. *)
Lemma tier1_loop_total (convert : Converter) :
  forall (fuel : nat) (st : LoopState) (t : Trace),
    (21 <= fuel + pageNum st)%nat ->
    exists st' events,
      while fuel loop_condition (convert_page env convert) st t
      = (Some (Ok st'), t ++ events)
      /\ (List.length (images st')
          <= List.length (images st) + (21 - pageNum st))%nat
      /\ existsb tier2_event events = false.
Proof.
  induction fuel as [|fuel IH]; intros st t Hfuel;
    destruct (loop_condition st) eqn:Hcond;
    try (rewrite while_done by exact Hcond;
         exists st, []; unfold ret; rewrite app_nil_r;
         split; [reflexivity | split; [lia | reflexivity]]).
  - unfold loop_condition in Hcond.
    apply andb_true_iff in Hcond as [_ Hle]; apply Nat.leb_le in Hle; lia.
  - rewrite while_step by exact Hcond.
    unfold loop_condition in Hcond.
    apply andb_true_iff in Hcond as [Hmore Hle]; apply Nat.leb_le in Hle.
    unfold bind.
    destruct (tier1_page_or_not convert (pageNum st))
      as [Hfail | (page & buffer & img & Hc & Hd & Hpage)].
    + destruct (convert_page_stops env convert st t Hfail)
        as (events & Hbody & Hev).
      rewrite Hbody, while_done by reflexivity.
      exists (no_more_pages st), events.
      split; [reflexivity | split; [cbn; lia | exact Hev]].
    + rewrite (convert_page_ok env convert st buffer img t Hc Hd).
      destruct (IH {| images := images st
                                ++ [{| quality := 85;
                                       image := resize 1024 1448
                                                  inside_without_enlargement
                                                  img |}];
                      pageNum := pageNum st + 1;
                      hasMorePages := hasMorePages st |}
                   (t ++ [EvConvert (pageNum st); EvSharp (FromBuffer buffer)]))
        as (st' & events & Hrun & Hlen & Hev); [cbn; lia|].
      exists st', ([EvConvert (pageNum st); EvSharp (FromBuffer buffer)]
                     ++ events).
      split; [rewrite Hrun; now rewrite <- app_assoc|].
      split; [|exact Hev].
      cbn [images pageNum] in Hlen; rewrite length_app in Hlen.
      cbn [List.length] in Hlen; lia.
Qed.

(** The first tier returns or throws, never more than 20 pages, and
    makes no call of the fallback. *)
Lemma tier1_within_limit (pdfPath : jsstring) (t : Trace) :
  exists r events,
    processPDFWithPdf2Pic env pdfPath t = (Some r, t ++ events)
    /\ (forall pages,
           r = Ok pages -> (1 <= List.length pages <= 20)%nat)
    /\ existsb tier2_event events = false.
Proof.
  unfold processPDFWithPdf2Pic.
  destruct (pdf2pic env) as [module|].
  - unfold bind at 1, call.
    destruct (fromPath module pdfPath options) as [convert | e].
    + destruct (tier1_loop_total
                  convert 20
                  {| images := []; pageNum := 1; hasMorePages := true |}
                  (t ++ [EvFromPath pdfPath]))
        as (st' & events & Hrun & Hlen & Hev); [cbn; lia|].
      unfold bind; rewrite Hrun.
      cbn [images pageNum List.length] in Hlen.
      destruct (images st') as [|page pages] eqn:Himg; cbn.
      * eexists; exists (EvFromPath pdfPath :: events).
        unfold throw; rewrite <- app_assoc.
        split; [reflexivity | split; [discriminate | exact Hev]].
      * eexists; exists (EvFromPath pdfPath :: events).
        unfold ret; rewrite <- app_assoc.
        split; [reflexivity | split; [|exact Hev]].
        intros pages' Heq; injection Heq as <-; cbn in *; lia.
    + eexists; exists [EvFromPath pdfPath].
      split; [reflexivity | split; [discriminate | reflexivity]].
  - eexists; exists []; unfold throw; rewrite app_nil_r.
    split; [reflexivity | split; [discriminate | reflexivity]].
Qed.

Lemma createTextImage_total (text : jsstring) (pageNum totalPages : nat)
      (t : Trace) :
  exists r,
    createTextImage env text pageNum totalPages t
    = (Some r, t ++ [EvSharp (FromSvg (text_page text pageNum totalPages))]).
Proof.
  destruct (sharp_decode env (FromSvg (text_page text pageNum totalPages)))
    as [img | e] eqn:Hd.
  - eexists; apply (createTextImage_ok env _ _ _ img _ Hd).
  - eexists; apply (createTextImage_throw env _ _ _ e _ Hd).
Qed.

Lemma render_pages_total (total : nat) (rest : list jsstring) :
  forall (i : nat) (done : list Jpeg) (t : Trace),
  exists r t', render_pages env rest i total done t = (Some r, t').
Proof.
  induction rest as [|c rest IH]; intros i done t; cbn [render_pages].
  - eexists; eexists; reflexivity.
  - unfold bind.
    destruct (createTextImage_total c (i + 1) total t) as [[page | e] Hrun];
      rewrite Hrun.
    + apply IH.
    + eexists; eexists; reflexivity.
Qed.

Lemma text_extraction_total (pdfPath : jsstring) (t : Trace) :
  exists r t', processPDFWithTextExtraction env pdfPath t = (Some r, t').
Proof.
  unfold processPDFWithTextExtraction, try_catch, bind, call.
  destruct (fs_readFileSync env pdfPath) as [dataBuffer | e];
    [|eexists; eexists; reflexivity].
  destruct (pdfParse env dataBuffer) as [pdfData_text | e];
    [|eexists; eexists; reflexivity].
  set (text := match pdfData_text with Some x => x | None => [] end).
  destruct (pages_of_text text) as (pages & Hsplit & _); rewrite Hsplit.
  match goal with
  | |- context [render_pages env ?texts ?i ?n ?done ?tr] =>
      destruct (render_pages_total n texts i done tr) as ([imgs | e] & t' & Hrun);
        rewrite Hrun
  end; eexists; eexists; reflexivity.
Qed.

(** Every run of [processFile] returns or throws: no loop of the
    model runs out of fuel. *)
Lemma processFile_total (file : UploadedFile) (t : Trace) :
  exists r t', processFile env file t = (Some r, t').
Proof.
  unfold processFile, try_catch at 1.
  destruct (eqb_jsstring _ (lit ".pdf")).
  - unfold processPDF.
    destruct (pdf2pic env) as [module|] eqn:Hmod.
    + unfold try_catch.
      destruct (tier1_within_limit (path file) t)
        as ([pages | e] & events & Hrun & _); rewrite Hrun.
      * eexists; eexists; reflexivity.
      * destruct (text_extraction_total (path file) (t ++ events))
          as ([imgs | e'] & t' & Hrun'); rewrite Hrun';
          eexists; eexists; reflexivity.
    + destruct (text_extraction_total (path file) t)
        as ([imgs | e'] & t' & Hrun'); rewrite Hrun';
        eexists; eexists; reflexivity.
  - destruct (existsb _ _).
    + unfold processImage, try_catch, bind, sharp_to_jpeg, bind, call.
      destruct (sharp_decode env (FromPath (path file)));
        eexists; eexists; reflexivity.
    + eexists; eexists; reflexivity.
Qed.

End Totality.

(** The fallback has no limit: whenever it runs to its end on a text of
    more than 20 pages of 2000 characters, it returns more than 20
    pages. *)
Lemma fallback_has_no_limit (env : FileProcessor.Env) (pdfPath : jsstring)
      (dataBuffer : Sharp.Buffer) (pdfData_text : option jsstring)
      (t : IO.Trace) :
  tier1_gives_nothing env pdfPath ->
  FileProcessor.fs_readFileSync env pdfPath = Ok dataBuffer ->
  FileProcessor.pdfParse env dataBuffer = Ok pdfData_text ->
  let text := match pdfData_text with Some x => x | None => [] end in
  let n := page_count (List.length text) in
  (forall i, (i < n)%nat ->
             exists img,
               FileProcessor.sharp_decode
                 env (Sharp.FromSvg
                        (FileProcessor.text_page (chunk text i) (i + 1) n))
               = Ok img) ->
  (20 * 2000 < List.length text)%nat ->
  exists pages t',
    FileProcessor.processPDF env pdfPath t = (Some (Ok pages), t')
    /\ (20 < List.length pages)%nat.
Proof.
  intros Hnone Hread Hparse text n Hdraw Hlong.
  destruct (tier1_nothing_falls_back env pdfPath t Hnone)
    as (events1 & Hfall & _).
  destruct (text_extraction_pages env pdfPath dataBuffer pdfData_text
                                  (t ++ events1) Hread Hparse Hdraw)
    as (pages & events2 & Hrun & Hlen & _).
  exists pages, ((t ++ events1) ++ events2).
  split; [now rewrite Hfall|].
  fold text in Hlen; fold n in Hlen; rewrite Hlen.
  subst n; unfold page_count.
  destruct (ceiling_bounds (List.length text)) as [Hup _].
  destruct (Nat.eqb_spec (List.length text) 0); lia.
Qed.

(** C2. The limit of 20 pages is kept by the first tier only (see
    [tier1_within_limit]): for a PDF whose renderer is not installed and
    whose extracted text has 40001 characters, [processFile] returns 21
    pages. *)
Theorem text_fallback_exceeds_limit :
  Scenario.page_total
    (FileProcessor.processFile
       (Scenario.document None Scenario.long_text Scenario.decoder)
       (Scenario.upload "exam.pdf") [])
  = Some (Ok 21%nat).
Proof. vm_compute; reflexivity. Qed.

(** The same text behind a renderer that is installed and produces no
    page. *)
Example text_fallback_after_empty_tier1 :
  Scenario.page_total
    (FileProcessor.processFile
       (Scenario.document (Some 0%nat) Scenario.long_text Scenario.decoder)
       (Scenario.upload "exam.pdf") [])
  = Some (Ok 21%nat).
Proof. vm_compute; reflexivity. Qed.

(** A document of 30 renderable pages gives the first 20. *)
Example tier1_stops_at_20 :
  Scenario.page_total
    (FileProcessor.processFile
       (Scenario.document (Some 30%nat) [] Scenario.decoder)
       (Scenario.upload "exam.pdf") [])
  = Some (Ok 20%nat).
Proof. vm_compute; reflexivity. Qed.

Section TextRenderer.

Import Sharp IO FileProcessor.

Variable env : Env.

(** The text renderer.  [createTextImage] asks the image library
    for one image of the page and returns exactly that one page when
    the library accepts the page; when the library rejects it, the
    exception is replaced by the error [Failed to create text image].
    No text is refused for being empty or blank.  The placeholder is
    put in by [processPDFWithTextExtraction] when the extracted text
    is absent or empty, and the one page returned is then the drawing
    of the placeholder. *)
Theorem text_renderer_outcome (text : jsstring) (pageNum totalPages : nat)
        (t : Trace) :
  let page := FromSvg (text_page text pageNum totalPages) in
  (forall img,
      sharp_decode env page = Ok img ->
      createTextImage env text pageNum totalPages t
      = (Some (Ok {| quality := 85; image := img |}), t ++ [EvSharp page]))
  /\ (forall e,
         sharp_decode env page = Throw e ->
         createTextImage env text pageNum totalPages t
         = (Some (Throw (Error (lit "Failed to create text image"))),
            t ++ [EvSharp page]))
  /\ (forall pdfPath dataBuffer pdfData_text img,
         fs_readFileSync env pdfPath = Ok dataBuffer ->
         pdfParse env dataBuffer = Ok pdfData_text ->
         pdfData_text = None \/ pdfData_text = Some [] ->
         sharp_decode env (FromSvg (text_page placeholder 1 1)) = Ok img ->
         processPDFWithTextExtraction env pdfPath t
         = (Some (Ok [{| quality := 85; image := img |}]),
            t ++ [EvReadFile pdfPath; EvPdfParse dataBuffer;
                  EvSharp (FromSvg (text_page placeholder 1 1))]))
  /\ svg_body (text_page placeholder 1 1) = placeholder.
Proof.
  intros page; split; [|split; [|split]].
  - intros img H; now apply createTextImage_ok.
  - intros e H; now apply (createTextImage_throw env _ _ _ e).
  - intros pdfPath dataBuffer pdfData_text img Hread Hparse Hempty Hdraw.
    unfold processPDFWithTextExtraction, try_catch, bind, call.
    rewrite Hread, Hparse.
    assert (E : match pdfData_text with Some x => x | None => [] end = [])
      by (destruct Hempty; subst; reflexivity).
    rewrite E; cbn [List.length split_pages Nat.ltb Nat.leb Nat.eqb app
                    render_pages Nat.add].
    unfold bind.
    rewrite (createTextImage_ok env _ _ _ img _ Hdraw).
    unfold ret; cbn [app]; now rewrite <- !app_assoc.
  - vm_compute; reflexivity.
Qed.

End TextRenderer.

Lemma text_renderer_outcome_witness :
  let env := Scenario.document None [] Scenario.decoder in
  let img n := {| Sharp.width := 1024; Sharp.height := 1448;
                  Sharp.picture := n |} in
  fst (FileProcessor.createTextImage env (lit "   ") 2 3 [])
  = Some (Ok {| Sharp.quality := 85; Sharp.image := img 2%N |})
  /\ fst (FileProcessor.processPDFWithTextExtraction
            env (lit "uploads/files-1") [])
     = Some (Ok [{| Sharp.quality := 85; Sharp.image := img 1%N |}]).
Proof.
  intros env img.
  destruct (text_renderer_outcome env (lit "   ") 2 3 [])
    as (Hok & _ & Hplaceholder & _).
  split.
  - rewrite (Hok (img 2%N)); reflexivity.
  - rewrite (Hplaceholder (lit "uploads/files-1") (lit "%PDF") (Some [])
                          (img 1%N));
      (reflexivity || (right; reflexivity)).
Defined.

(** C5. The renderer fails on a page of text it is given by the
    fallback.  The text of one letter and 1999 ampersands has the
    2000 characters of a full page.  [createTextImage] escapes it and
    then cuts the escaped text at 3000 characters, inside an entity
    reference: the body ends with [&amp;&amp], which is not the XML
    that the escaping was written to produce.  An image library that
    checks the entity references rejects the page, and
    [createTextImage] throws [Failed to create text image] where a
    page was to be produced. *)
Theorem text_page_cut_inside_reference :
  List.length Scenario.ampersand_text = 2000%nat
  /\ List.length (FileProcessor.sanitize Scenario.ampersand_text) = 3000%nat
  /\ skipn 2991 (FileProcessor.sanitize Scenario.ampersand_text)
     = lit "&amp;&amp"
  /\ Scenario.entities_closed (FileProcessor.sanitize Scenario.ampersand_text)
     = false
  /\ fst (FileProcessor.createTextImage
            (Scenario.document None [] Scenario.xml_checking_decoder)
            Scenario.ampersand_text 1 1 [])
     = Some (Throw (Error (lit "Failed to create text image"))).
Proof. repeat split; vm_compute; reflexivity. Qed.

(** C4. The fallback does not return the page of such a text.  For a
    PDF whose renderer is not installed, or is installed and gives no
    page, and whose extracted text is the letter and the 1999
    ampersands, the page count is one (2000 characters);
    [processFile] throws [Failed to process PDF file: Failed to create
    text image] and returns no page. *)
Theorem fallback_loses_ampersand_page :
  page_count (List.length Scenario.ampersand_text) = 1%nat
  /\ fst (FileProcessor.processFile
            (Scenario.document None Scenario.ampersand_text
                               Scenario.xml_checking_decoder)
            (Scenario.upload "exam.pdf") [])
     = Some (Throw (Error (lit "Failed to process PDF file: Failed to create text image")))
  /\ fst (FileProcessor.processFile
            (Scenario.document (Some 0%nat) Scenario.ampersand_text
                               Scenario.xml_checking_decoder)
            (Scenario.upload "exam.pdf") [])
     = Some (Throw (Error (lit "Failed to process PDF file: Failed to create text image"))).
Proof. repeat split; vm_compute; reflexivity. Qed.

(* ================================================================== *)
(** * The text of a page *)
(* ================================================================== *)

Section PageTextFacts.

Import Sharp IO FileProcessor PageText.

Lemma In_remove (p : N -> bool) (s : jsstring) (c : N) :
  In c (remove p s) -> In c s /\ p c = false.
Proof.
  unfold remove; intros H; apply filter_In in H as [Hin Hp].
  split; [exact Hin | now apply negb_true_iff].
Qed.

Lemma In_replace_all (c : N) (by_ s : jsstring) (x : N) :
  In x (replace_all c by_ s) -> In x by_ \/ (In x s /\ x <> c).
Proof.
  unfold replace_all; intros H; apply in_flat_map in H as (y & Hy & Hx).
  destruct (N.eqb_spec y c) as [-> | Hne]; [now left|].
  destruct Hx as [<- | []]; right; auto.
Qed.

Lemma In_substring (s : jsstring) (a b : nat) (x : N) :
  In x (substring s a b) -> In x s.
Proof.
  unfold substring; intros H.
  assert (Hskip : In x (skipn a s)).
  { rewrite <- (firstn_skipn (b - a) (skipn a s)); apply in_or_app; now left. }
  rewrite <- (firstn_skipn a s); apply in_or_app; now right.
Qed.

(** X1. The body of a text page has at most 3000 characters, and none
    of them is a character that the sanitization removes (control
    characters, U+FFFD) or escapes (angle brackets and quotes): of the
    markup characters only the ampersand is left. *)
Theorem sanitize_output_is_safe (text : jsstring) :
  (List.length (sanitize text) <= 3000)%nat
  /\ Forall (fun c => unsafe c = false) (sanitize text).
Proof.
  split.
  - unfold sanitize, substring; rewrite length_firstn; lia.
  - apply Forall_forall; intros c Hc.
    unfold sanitize in Hc; apply In_substring in Hc.
    repeat match goal with
           | H : In _ (replace_all _ _ _) |- _ =>
               apply In_replace_all in H as [H | [H ?]];
               [cbn in H;
                repeat (destruct H as [<- | H]; [reflexivity|]);
                destruct H|]
           end.
    apply In_remove in Hc as [Hc Hlow].
    apply In_remove in Hc as [Hc Hrepl].
    apply In_remove in Hc as [_ Hctl].
    unfold unsafe; rewrite Hctl, Hrepl, Hlow; cbn.
    repeat match goal with
           | H : c <> _ |- _ => apply N.eqb_neq in H; rewrite H; clear H
           end.
    reflexivity.
Qed.

(** The second class of control characters is within the first. *)
Lemma low_control_is_invalid (c : N) :
  invalid_control c = false -> low_control c = false.
Proof.
  unfold invalid_control, low_control.
  destruct (N.leb_spec c 8), (N.eqb_spec c 11), (N.eqb_spec c 12),
    (N.leb_spec 14 c), (N.leb_spec c 31), (N.eqb_spec c 127),
    (N.leb_spec 11 c), (N.leb_spec c 12);
    cbn; intros Hc; try discriminate Hc; try reflexivity; lia.
Qed.

Lemma removals_are_one_filter (text : jsstring) :
  remove low_control
         (remove (fun c => (c =? 65533)%N) (remove invalid_control text))
  = filter kept text.
Proof.
  unfold remove, kept; induction text as [|c text IH]; [reflexivity|].
  cbn [filter].
  destruct (invalid_control c) eqn:Hc; cbn [negb andb]; [exact IH|].
  cbn [filter].
  destruct (c =? 65533)%N; cbn [negb]; [exact IH|].
  cbn [filter]; rewrite (low_control_is_invalid c Hc); cbn [negb].
  now rewrite IH.
Qed.

Lemma replace_all_flat_map (c : N) (by_ : jsstring) (f : N -> jsstring)
      (s : jsstring) :
  replace_all c by_ (flat_map f s)
  = flat_map (fun x => replace_all c by_ (f x)) s.
Proof.
  unfold replace_all; induction s as [|x s IH]; [reflexivity|].
  cbn [flat_map]; now rewrite flat_map_app, IH.
Qed.

(** The five replacements, made one after the other with the ampersand
    first, escape each character once. *)
Lemma escape_stages (x : N) :
  replace_all 39 (lit "&apos;")
    (replace_all 34 (lit "&quot;")
       (replace_all 62 (lit "&gt;")
          (replace_all 60 (lit "&lt;")
             (replace_all 38 (lit "&amp;") [x]))))
  = escape x.
Proof.
  unfold escape.
  destruct (N.eqb_spec x 38) as [-> | H38]; [reflexivity|].
  destruct (N.eqb_spec x 60) as [-> | H60]; [reflexivity|].
  destruct (N.eqb_spec x 62) as [-> | H62]; [reflexivity|].
  destruct (N.eqb_spec x 34) as [-> | H34]; [reflexivity|].
  destruct (N.eqb_spec x 39) as [-> | H39]; [reflexivity|].
  apply N.eqb_neq in H38, H60, H62, H34, H39.
  unfold replace_all; cbn [flat_map app].
  rewrite H38; cbn [flat_map app].
  rewrite H60; cbn [flat_map app].
  rewrite H62; cbn [flat_map app].
  rewrite H34; cbn [flat_map app].
  now rewrite H39.
Qed.

Lemma sanitize_stages (text : jsstring) :
  sanitize text = substring (flat_map escape (filter kept text)) 0 3000.
Proof.
  unfold sanitize; rewrite removals_are_one_filter; f_equal.
  set (s := filter kept text).
  replace s with (flat_map (fun x => [x]) s) at 1
    by (clear; induction s as [|x s IH]; [reflexivity | cbn; now rewrite IH]).
  rewrite !replace_all_flat_map.
  apply flat_map_ext; intros x; apply escape_stages.
Qed.

(** X2. The eight replacements of [createTextImage] amount to one pass
    over the text: a control character other than tab, line feed and
    carriage return, and U+FFFD, is dropped; each of the five markup
    characters becomes its entity reference, once (the ampersand of a
    reference is not escaped again); any other character is kept; and
    the result is cut at 3000 characters. *)
Theorem sanitize_is_one_pass (text : jsstring) :
  sanitize text = firstn 3000 (flat_map escape (filter kept text)).
Proof. rewrite sanitize_stages; reflexivity. Qed.

Lemma entities_closed_escape (c : N) (rest : jsstring) :
  Scenario.entities_closed rest = true ->
  Scenario.entities_closed (escape c ++ rest) = true.
Proof.
  intros Hrest; unfold escape.
  destruct (N.eqb_spec c 38) as [-> | H38];
    [cbn; exact Hrest|].
  destruct (N.eqb_spec c 60) as [-> | H60];
    [cbn; exact Hrest|].
  destruct (N.eqb_spec c 62) as [-> | H62];
    [cbn; exact Hrest|].
  destruct (N.eqb_spec c 34) as [-> | H34];
    [cbn; exact Hrest|].
  destruct (N.eqb_spec c 39) as [-> | H39];
    [cbn; exact Hrest|].
  apply N.eqb_neq in H38.
  cbn [app Scenario.entities_closed]; now rewrite H38.
Qed.

Lemma entities_closed_escaped (s : jsstring) :
  Scenario.entities_closed (flat_map escape s) = true.
Proof.
  induction s as [|c s IH]; [reflexivity|].
  cbn [flat_map]; now apply entities_closed_escape.
Qed.

(** X3. A page body that was not cut (it is shorter than 3000
    characters) is well formed as far as its ampersands go: each one
    begins one of the five entity references. *)
Theorem uncut_body_entities_closed (text : jsstring) :
  (List.length (sanitize text) < 3000)%nat ->
  Scenario.entities_closed (sanitize text) = true.
Proof.
  rewrite sanitize_stages; unfold substring; cbn [skipn Nat.sub].
  set (s := flat_map escape (filter kept text)).
  intros Hlen; rewrite length_firstn in Hlen.
  rewrite firstn_all2 by lia.
  apply entities_closed_escaped.
Qed.

Lemma uncut_body_entities_closed_witness :
  Scenario.entities_closed (sanitize (lit "a < b && b > c")) = true.
Proof.
  apply uncut_body_entities_closed; vm_compute; lia.
Defined.

Lemma escape_length (c : N) :
  (List.length (escape c) <= 1 + 5 * (if markup c then 1 else 0))%nat.
Proof.
  unfold escape, markup.
  destruct (c =? 38)%N, (c =? 60)%N, (c =? 62)%N, (c =? 34)%N, (c =? 39)%N;
    cbn; lia.
Qed.

Lemma escaped_length (s : jsstring) :
  (List.length (flat_map escape s)
   <= List.length s + 5 * List.length (filter markup s))%nat.
Proof.
  induction s as [|c s IH]; [cbn; lia|].
  cbn [flat_map filter List.length]; rewrite length_app.
  pose proof (escape_length c) as Hc.
  destruct (markup c); cbn [List.length]; lia.
Qed.

Lemma kept_markup_length (s : jsstring) :
  (List.length (filter kept s) + 5 * List.length (filter markup (filter kept s))
   <= List.length s + 5 * List.length (filter markup s))%nat.
Proof.
  induction s as [|c s IH]; [cbn; lia|].
  cbn [filter]; destruct (kept c), (markup c) eqn:Hm;
    cbn [filter List.length]; rewrite ?Hm; cbn [List.length]; lia.
Qed.

(** X4. A page text with few markup characters is not cut: when the
    length of the text plus five times the number of its markup
    characters is at most 3000 (so for every page of the fallback, of
    at most 2000 characters, with at most 200 markup characters), the
    body of the page is the whole escaped text, and each of its
    ampersands begins an entity reference. *)
Theorem page_with_few_markup_is_whole (text : jsstring) :
  (List.length text + 5 * List.length (filter markup text) <= 3000)%nat ->
  sanitize text = flat_map escape (filter kept text)
  /\ Scenario.entities_closed (sanitize text) = true.
Proof.
  intros Hlen.
  assert (E : sanitize text = flat_map escape (filter kept text)).
  { rewrite sanitize_stages; unfold substring; cbn [skipn Nat.sub].
    apply firstn_all2.
    pose proof (escaped_length (filter kept text)).
    pose proof (kept_markup_length text).
    lia. }
  split; [exact E|].
  rewrite E; apply entities_closed_escaped.
Qed.

Lemma page_with_few_markup_is_whole_witness :
  sanitize (lit "if (a < b && b > c) { x = 'y'; }")
  = lit "if (a &lt; b &amp;&amp; b &gt; c) { x = &apos;y&apos;; }".
Proof.
  destruct (page_with_few_markup_is_whole
              (lit "if (a < b && b > c) { x = 'y'; }")) as [E _];
    [vm_compute; lia|].
  rewrite E; vm_compute; reflexivity.
Defined.

End PageTextFacts.

(* ================================================================== *)
(** * The runs of the file processor *)
(* ================================================================== *)

Section Runs.

Import Sharp IO FileProcessor PageText.

Variable env : Env.

(** The rendering loop: it draws the pages in order and stops at the
    first one that the image library rejects. *)
Lemma render_pages_run (total : nat) (rest : list jsstring) :
  forall (i : nat) (done : list Jpeg) (t : Trace),
  exists r k,
    render_pages env rest i total done t
    = (Some r, t ++ map draw (firstn k (drawn rest i total)))
    /\ match r with
       | Ok pages =>
           k = List.length rest
           /\ List.length pages = (List.length done + List.length rest)%nat
       | Throw e => e = Error (lit "Failed to create text image")
       end.
Proof.
  induction rest as [|c rest IH]; intros i done t; cbn [render_pages drawn].
  - exists (Ok done), 0%nat; unfold ret; cbn; rewrite app_nil_r.
    split; [reflexivity | split; [reflexivity | lia]].
  - unfold bind.
    destruct (sharp_decode env (FromSvg (text_page c (i + 1) total)))
      as [img | e] eqn:Hd.
    + rewrite (createTextImage_ok env _ _ _ img _ Hd).
      destruct (IH (i + 1)%nat (done ++ [{| quality := 85; image := img |}])
                   (t ++ [EvSharp (FromSvg (text_page c (i + 1) total))]))
        as (r & k & Hrun & Hr).
      exists r, (S k); rewrite Hrun; cbn [firstn map]; rewrite <- app_assoc.
      split; [reflexivity|].
      destruct r as [pages | e]; [|exact Hr].
      rewrite length_app in Hr; cbn [List.length] in *; lia.
    + rewrite (createTextImage_throw env _ _ _ e _ Hd).
      exists (Throw (Error (lit "Failed to create text image"))), 1%nat.
      split; reflexivity.
Qed.

Lemma page_count_positive (len : nat) : (1 <= page_count len)%nat.
Proof.
  unfold page_count; destruct (Nat.eqb_spec len 0) as [E | E]; [lia|].
  destruct (ceiling_bounds len) as [Hup _]; lia.
Qed.

(** The fallback after the file has been read and its text extracted. *)
Lemma text_extraction_drawn (pdfPath : jsstring) (dataBuffer : Buffer)
      (pdfData_text : option jsstring) (t : Trace) :
  fs_readFileSync env pdfPath = Ok dataBuffer ->
  pdfParse env dataBuffer = Ok pdfData_text ->
  let text := match pdfData_text with Some x => x | None => [] end in
  let n := page_count (List.length text) in
  exists r k,
    processPDFWithTextExtraction env pdfPath t
    = (Some r,
       t ++ EvReadFile pdfPath :: EvPdfParse dataBuffer
         :: map draw (firstn k (drawn (map (chunk text) (seq 0 n)) 0 n)))
    /\ match r with
       | Ok pages => k = n /\ List.length pages = n
       | Throw e =>
           e = Error (lit "Failed to process PDF file: "
                          ++ lit "Failed to create text image")
       end.
Proof.
  intros Hread Hparse text n.
  destruct (pages_of_text text) as (texts & Hsplit & Htexts).
  destruct (render_pages_run
              n (map (chunk text) (seq 0 n)) 0 []
              ((t ++ [EvReadFile pdfPath]) ++ [EvPdfParse dataBuffer]))
    as (r & k & Hrun & Hr).
  unfold processPDFWithTextExtraction, try_catch, bind, call.
  rewrite Hread, Hparse; fold text.
  rewrite Hsplit, Htexts; fold n.
  rewrite length_map, length_seq, Hrun, <- !app_assoc; cbn [app].
  destruct r as [pages | e].
  - exists (Ok pages), k; split; [reflexivity|].
    rewrite length_map, length_seq in Hr; cbn in Hr; exact Hr.
  - subst e; eexists; exists k; split; reflexivity.
Qed.

(** Every run of the fallback: it begins by reading the file, gives at
    least one page when it returns, and one of three errors when it
    throws. *)
Lemma text_extraction_run (pdfPath : jsstring) (t : Trace) :
  exists r events,
    processPDFWithTextExtraction env pdfPath t
    = (Some r, t ++ EvReadFile pdfPath :: events)
    /\ match r with
       | Ok pages => (1 <= List.length pages)%nat
       | Throw e =>
           exists m,
             e = Error (lit "Failed to process PDF file: " ++ m)
             /\ ((exists e0,
                     fs_readFileSync env pdfPath = Throw e0 /\ m = message e0)
                 \/ (exists dataBuffer e0,
                        fs_readFileSync env pdfPath = Ok dataBuffer
                        /\ pdfParse env dataBuffer = Throw e0
                        /\ m = message e0)
                 \/ m = lit "Failed to create text image")
       end.
Proof.
  destruct (fs_readFileSync env pdfPath) as [dataBuffer | e0] eqn:Hread.
  - destruct (pdfParse env dataBuffer) as [pdfData_text | e0] eqn:Hparse.
    + destruct (text_extraction_drawn pdfPath dataBuffer pdfData_text t
                                      Hread Hparse)
        as (r & k & Hrun & Hr).
      rewrite Hrun; exists r; eexists; split; [reflexivity|].
      destruct r as [pages | e].
      * destruct Hr as [_ ->]; apply page_count_positive.
      * subst e; eexists; split; [reflexivity | now right; right].
    + unfold processPDFWithTextExtraction, try_catch, bind, call.
      rewrite Hread, Hparse.
      eexists; exists [EvPdfParse dataBuffer]; rewrite <- app_assoc.
      split; [reflexivity|].
      eexists; split; [reflexivity|].
      right; left; exists dataBuffer, e0; auto.
  - unfold processPDFWithTextExtraction, try_catch, bind, call.
    rewrite Hread.
    eexists; exists []; split; [reflexivity|].
    eexists; split; [reflexivity|].
    left; exists e0; auto.
Qed.

(** Every run of [processPDF]: the pages of the first tier, or a run
    of the fallback after the calls of the first tier. *)
Lemma processPDF_run (pdfPath : jsstring) (t : Trace) :
  exists r events,
    processPDF env pdfPath t = (Some r, t ++ events)
    /\ ((exists pages,
            r = Ok pages /\ existsb tier2_event events = false
            /\ (1 <= List.length pages <= 20)%nat)
        \/ (exists events1 events2,
               events = events1 ++ EvReadFile pdfPath :: events2
               /\ processPDFWithTextExtraction env pdfPath (t ++ events1)
                  = (Some r, (t ++ events1) ++ EvReadFile pdfPath :: events2))).
Proof.
  unfold processPDF.
  destruct (pdf2pic env) as [module|] eqn:Hmod.
  - unfold try_catch.
    destruct (tier1_within_limit env pdfPath t)
      as ([pages | e] & events1 & Hrun & Hlen & Hev); rewrite Hrun.
    + exists (Ok pages), events1; split; [reflexivity|].
      left; exists pages; auto.
    + destruct (text_extraction_run pdfPath (t ++ events1))
        as (r & events2 & Hrun2 & _).
      exists r, (events1 ++ EvReadFile pdfPath :: events2).
      rewrite Hrun2, <- app_assoc; split; [reflexivity|].
      right; exists events1, events2; split; [reflexivity | exact Hrun2].
  - destruct (text_extraction_run pdfPath t) as (r & events2 & Hrun2 & _).
    exists r, (EvReadFile pdfPath :: events2); rewrite Hrun2.
    split; [reflexivity|].
    right; exists [], events2; rewrite !app_nil_r; split; [reflexivity | exact Hrun2].
Qed.

End Runs.

Section ProcessorProperties.

Import Sharp IO FileProcessor PageText.

Variable env : Env.

Lemma plain_is_kept (c : N) : plain c = true -> kept c = true /\ escape c = [c].
Proof.
  unfold plain, unsafe, kept, escape.
  destruct (invalid_control c), (c =? 65533)%N, (low_control c),
    (c =? 60)%N, (c =? 62)%N, (c =? 34)%N, (c =? 39)%N, (c =? 38)%N;
    cbn; intros Hc; try discriminate Hc; split; reflexivity.
Qed.

(** A text of at most 3000 characters none of which is removed or
    escaped is its own page body. *)
Lemma sanitize_of_plain (text : jsstring) :
  Forall (fun c => plain c = true) text ->
  (List.length text <= 3000)%nat ->
  sanitize text = text.
Proof.
  intros Hplain Hlen; rewrite sanitize_stages.
  assert (E : flat_map escape (filter kept text) = text).
  { induction Hplain as [|c s Hc _ IH]; [reflexivity|].
    destruct (plain_is_kept c Hc) as [Hk He].
    cbn [filter]; rewrite Hk; cbn [flat_map]; rewrite He.
    cbn [List.length] in Hlen; rewrite IH by lia; reflexivity. }
  rewrite E; unfold substring; cbn [skipn]; apply firstn_all2; lia.
Qed.

Lemma chunk_is_plain (text : jsstring) (i : nat) :
  Forall (fun c => plain c = true) text ->
  Forall (fun c => plain c = true) (chunk text i)
  /\ (List.length (chunk text i) <= 3000)%nat.
Proof.
  intros Hplain; destruct text as [|c text]; cbn [chunk].
  - split; [repeat constructor | cbn; lia].
  - split.
    + apply Forall_forall; intros x Hx; apply In_substring in Hx.
      revert x Hx; now apply Forall_forall.
    + rewrite substring_chunk, length_firstn; lia.
Qed.

Lemma drawn_bodies (rest : list jsstring) (total : nat) :
  forall i,
    List.length (drawn rest i total) = List.length rest
    /\ map svg_body (drawn rest i total) = map sanitize rest.
Proof.
  induction rest as [|c rest IH]; intros i; cbn [drawn map List.length].
  - split; reflexivity.
  - destruct (IH (i + 1)%nat) as [Hlen Hmap]; rewrite Hlen, Hmap.
    split; reflexivity.
Qed.

(** X5. Plain text reaches the pages of the fallback in full: when the
    text extracted from a PDF holds no character that is removed or
    escaped and the fallback returns, the pages it handed to the image
    library, in order, carry the whole text (the placeholder for an
    empty text), one drawing for each page returned. *)
Theorem plain_text_reaches_pages (pdfPath : jsstring) (dataBuffer : Buffer)
        (pdfData_text : option jsstring) (pages : list Jpeg) (t t' : Trace) :
  fs_readFileSync env pdfPath = Ok dataBuffer ->
  pdfParse env dataBuffer = Ok pdfData_text ->
  let text := match pdfData_text with Some x => x | None => [] end in
  Forall (fun c => plain c = true) text ->
  processPDFWithTextExtraction env pdfPath t = (Some (Ok pages), t') ->
  exists svgs,
    t' = t ++ EvReadFile pdfPath :: EvPdfParse dataBuffer :: map draw svgs
    /\ List.length svgs = List.length pages
    /\ List.concat (map svg_body svgs)
       = match text with [] => placeholder | _ => text end.
Proof.
  intros Hread Hparse text Hplain Hrun.
  destruct (text_extraction_drawn env pdfPath dataBuffer pdfData_text t
                                  Hread Hparse)
    as (r & k & Hrun' & Hr).
  fold text in Hrun', Hr.
  rewrite Hrun in Hrun'; injection Hrun' as <- ->.
  destruct Hr as [-> Hlen].
  set (n := page_count (List.length text)) in *.
  destruct (drawn_bodies (map (chunk text) (seq 0 n)) n 0) as [Hd Hb].
  rewrite length_map, length_seq in Hd.
  rewrite firstn_all2 by lia.
  exists (drawn (map (chunk text) (seq 0 n)) 0 n).
  split; [reflexivity|].
  split; [lia|].
  rewrite Hb, map_map.
  rewrite (map_ext_in _ (chunk text))
    by (intros i _; destruct (chunk_is_plain text i Hplain);
        now apply sanitize_of_plain).
  subst n; unfold page_count.
  destruct text as [|c text']; [reflexivity|].
  set (text0 := c :: text') in *.
  destruct (ceiling_bounds (List.length text0)) as [Hup _].
  cbn [List.length Nat.eqb text0].
  change (map (chunk text0))
    with (map (fun i => substring text0 (i * 2000) (i * 2000 + 2000))).
  rewrite (chunks_cover_from text0) by (cbn [Nat.add]; exact Hup).
  reflexivity.
Qed.

(** [processPDF] lets no error of the first tier out: whatever it
    throws is the error of the fallback. *)
Lemma processPDF_throws (pdfPath : jsstring) (t t' : Trace) (e : JsError) :
  processPDF env pdfPath t = (Some (Throw e), t') ->
  exists m,
    e = Error (lit "Failed to process PDF file: " ++ m)
    /\ ((exists e0,
            fs_readFileSync env pdfPath = Throw e0 /\ m = message e0)
        \/ (exists dataBuffer e0,
               fs_readFileSync env pdfPath = Ok dataBuffer
               /\ pdfParse env dataBuffer = Throw e0
               /\ m = message e0)
        \/ m = lit "Failed to create text image").
Proof.
  intros Hrun.
  destruct (processPDF_run env pdfPath t)
    as (r & events & Hrun' & [(pages & Hr & _) | (ev1 & ev2 & _ & Hfall)]);
    rewrite Hrun in Hrun'; injection Hrun' as <- _.
  - discriminate Hr.
  - destruct (text_extraction_run env pdfPath (t ++ ev1))
      as (r & events2 & Hrun2 & Hr).
    rewrite Hfall in Hrun2; injection Hrun2 as <- _.
    exact Hr.
Qed.

(** X6. The errors of [processFile].  For a PDF it lets no error of
    the first tier out: whatever it throws is the error of the
    fallback, [Failed to process PDF file:] followed by the message
    of the file system, the message of the text extraction, or
    [Failed to create text image].  For an image it throws
    [Failed to process image file] only, and for any other extension
    [Unsupported file type:] followed by the extension. *)
Theorem processFile_errors (file : UploadedFile) (t t' : Trace) (e : JsError) :
  processFile env file t = (Some (Throw e), t') ->
  let fileExtension := extname_lower env (originalname file) in
  (fileExtension = lit ".pdf"
   /\ exists m,
        e = Error (lit "Failed to process PDF file: " ++ m)
        /\ ((exists e0,
                fs_readFileSync env (path file) = Throw e0 /\ m = message e0)
            \/ (exists dataBuffer e0,
                   fs_readFileSync env (path file) = Ok dataBuffer
                   /\ pdfParse env dataBuffer = Throw e0
                   /\ m = message e0)
            \/ m = lit "Failed to create text image"))
  \/ (In fileExtension image_extensions
      /\ e = Error (lit "Failed to process image file"))
  \/ (fileExtension <> lit ".pdf"
      /\ ~ In fileExtension image_extensions
      /\ e = Error (lit "Unsupported file type: " ++ fileExtension)).
Proof.
  intros Hrun fileExtension; revert Hrun.
  unfold processFile, try_catch at 1; fold fileExtension.
  destruct (eqb_jsstring fileExtension (lit ".pdf")) eqn:Hpdf.
  - apply eqb_jsstring_eq in Hpdf.
    destruct (processPDF env (path file) t) as [[[pages | e0]|] t0] eqn:Hrun;
      intros H; try discriminate H.
    injection H as <- <-.
    left; split; [exact Hpdf|].
    exact (processPDF_throws _ _ _ _ Hrun).
  - destruct (existsb (eqb_jsstring fileExtension) _) eqn:Himg.
    + apply existsb_exists in Himg as (x & Hx & Heq).
      apply eqb_jsstring_eq in Heq; subst x.
      unfold processImage, try_catch, bind, sharp_to_jpeg, bind, call, ret.
      destruct (sharp_decode env (FromPath (path file)));
        intros H; [discriminate H|].
      injection H as <- _; right; left; auto.
    + intros H; injection H as <- _.
      right; right; split; [|split; [|reflexivity]].
      * intros Heq; rewrite Heq in Hpdf; discriminate Hpdf.
      * intros Hin.
        assert (Hex : existsb (eqb_jsstring fileExtension)
                              [lit ".jpg"; lit ".jpeg"; lit ".png"] = true)
          by (apply existsb_exists; exists fileExtension; split;
              [exact Hin | now apply eqb_jsstring_eq]).
        rewrite Hex in Himg; discriminate Himg.
Qed.

(** X7. [processFile] never returns an empty list of pages. *)
Theorem processFile_gives_a_page (file : UploadedFile) (t t' : Trace)
        (pages : list Jpeg) :
  processFile env file t = (Some (Ok pages), t') ->
  (1 <= List.length pages)%nat.
Proof.
  unfold processFile, try_catch at 1.
  destruct (eqb_jsstring _ (lit ".pdf")).
  - destruct (processPDF_run env (path file) t)
      as (r & events & Hrun & [(pages' & -> & _ & Hlen) | (ev1 & ev2 & _ & Hfall)]);
      rewrite Hrun.
    + intros H; injection H as <- _; lia.
    + destruct (text_extraction_run env (path file) (t ++ ev1))
        as (r' & events2 & Hrun2 & Hr).
      rewrite Hfall in Hrun2; injection Hrun2 as <- _.
      destruct r as [pages' | e]; intros H; [|discriminate H].
      injection H as <- _; exact Hr.
  - destruct (existsb _ _).
    + unfold processImage, try_catch, bind, sharp_to_jpeg, bind, call, ret.
      destruct (sharp_decode env (FromPath (path file)));
        intros H; [|discriminate H].
      injection H as <- _; cbn; lia.
    + intros H; discriminate H.
Qed.

(** X8. The limit of 20 pages holds for every result that did not come
    from the fallback: when [processPDF] returns and its run has no
    call of the text extraction, it returns from 1 to 20 pages. *)
Theorem first_tier_within_limit (pdfPath : jsstring) (t : Trace)
        (events : list Event) (pages : list Jpeg) :
  processPDF env pdfPath t = (Some (Ok pages), t ++ events) ->
  existsb tier2_event events = false ->
  (1 <= List.length pages <= 20)%nat.
Proof.
  intros Hrun Hev.
  destruct (processPDF_run env pdfPath t)
    as (r & events' & Hrun'
        & [(pages' & Hr & _ & Hlen) | (ev1 & ev2 & Hevents & _)]);
    rewrite Hrun in Hrun'; injection Hrun' as <- Ht;
    apply app_inv_head in Ht; subst events'.
  - injection Hr as <-; exact Hlen.
  - rewrite Hevents, existsb_app in Hev; cbn in Hev.
    rewrite orb_true_r in Hev; discriminate Hev.
Qed.

(** X9. The files that are not PDFs.  For an image extension
    [processFile] makes one call, of the image library on the file, and
    returns the one page that [processImage] makes of the decoded image
    or throws [Failed to process image file]; for any other extension
    it makes no call and throws [Unsupported file type:] followed by
    the extension. *)
Theorem processFile_other_than_pdf (file : UploadedFile) (t : Trace) :
  let fileExtension := extname_lower env (originalname file) in
  (In fileExtension image_extensions ->
   exists r,
     processFile env file t = (Some r, t ++ [EvSharp (FromPath (path file))])
     /\ match r with
        | Ok pages =>
            exists img,
              sharp_decode env (FromPath (path file)) = Ok img
              /\ pages = [{| quality := 85;
                             image := resize 1024 1024
                                             inside_without_enlargement img |}]
        | Throw e => e = Error (lit "Failed to process image file")
        end)
  /\ (fileExtension <> lit ".pdf" ->
      ~ In fileExtension image_extensions ->
      processFile env file t
      = (Some (Throw (Error (lit "Unsupported file type: " ++ fileExtension))),
         t)).
Proof.
  intros fileExtension; split.
  - intros Himg.
    assert (Hpdf : eqb_jsstring fileExtension (lit ".pdf") = false).
    { destruct (eqb_jsstring fileExtension (lit ".pdf")) eqn:E; [|reflexivity].
      apply eqb_jsstring_eq in E; rewrite E in Himg.
      cbn in Himg; destruct Himg as [H | [H | [H | []]]]; discriminate H. }
    assert (Hin : existsb (eqb_jsstring fileExtension)
                          [lit ".jpg"; lit ".jpeg"; lit ".png"] = true).
    { apply existsb_exists; exists fileExtension; split; [exact Himg|].
      now apply eqb_jsstring_eq. }
    unfold processFile; fold fileExtension; rewrite Hpdf, Hin.
    unfold processImage, try_catch, bind, sharp_to_jpeg, bind, call, ret.
    destruct (sharp_decode env (FromPath (path file))) as [img | e].
    + eexists; split; [reflexivity|]; exists img; split; reflexivity.
    + eexists; split; reflexivity.
  - intros Hpdf Himg.
    unfold processFile; fold fileExtension.
    destruct (eqb_jsstring fileExtension (lit ".pdf")) eqn:E;
      [apply eqb_jsstring_eq in E; contradiction|].
    destruct (existsb (eqb_jsstring fileExtension) _) eqn:E'; [|reflexivity].
    apply existsb_exists in E' as (x & Hx & Heq).
    apply eqb_jsstring_eq in Heq; subst x; contradiction.
Qed.

End ProcessorProperties.

Section Calls.

Import Sharp IO FileProcessor PageText.

Variable env : Env.

(** One turn of the loop of the first tier: one call of the renderer,
    and a page of quality 85 or the end of the loop. *)
Lemma convert_page_cases (convert : Converter) (st : LoopState) (t : Trace) :
  exists st' events,
    convert_page env convert st t = (Some (Ok st'), t ++ events)
    /\ converted events = [pageNum st]
    /\ (st' = no_more_pages st
        \/ exists page,
             quality page = 85%N
             /\ st' = {| images := images st ++ [page];
                         pageNum := pageNum st + 1;
                         hasMorePages := hasMorePages st |}).
Proof.
  unfold convert_page, try_catch, bind at 1, call.
  destruct (convert (pageNum st)) as [[buffer|] | e].
  - unfold bind, sharp_to_jpeg, bind, call, ret.
    destruct (sharp_decode env (FromBuffer buffer)) as [img | e];
      rewrite <- app_assoc; eexists; eexists;
      (split; [reflexivity | split; [reflexivity|]]).
    + right; eexists; split; [|reflexivity]; reflexivity.
    + now left.
  - eexists; eexists; split; [reflexivity | split; [reflexivity | now left]].
  - eexists; eexists; split; [reflexivity | split; [reflexivity | now left]].
Qed.

Lemma converted_app (a b : list Event) :
  converted (a ++ b) = converted a ++ converted b.
Proof. unfold converted; apply flat_map_app. Qed.

(** The loop of the first tier: the renderer is asked for consecutive
    pages, none after page 20, and every page appended has the
    quality 85. *)
Lemma tier1_loop_calls (convert : Converter) :
  forall (fuel : nat) (st : LoopState) (t : Trace),
    (21 <= fuel + pageNum st)%nat ->
    Forall (fun page => quality page = 85%N) (images st) ->
    exists st' events m,
      while fuel loop_condition (convert_page env convert) st t
      = (Some (Ok st'), t ++ events)
      /\ converted events = seq (pageNum st) m
      /\ (m = 0%nat \/ (pageNum st + m <= 21)%nat)
      /\ (List.length (images st') <= List.length (images st) + m)%nat
      /\ Forall (fun page => quality page = 85%N) (images st').
Proof.
  induction fuel as [|fuel IH]; intros st t Hfuel Hq;
    destruct (loop_condition st) eqn:Hcond;
    try (rewrite while_done by exact Hcond;
         exists st, [], 0%nat; unfold ret; rewrite app_nil_r;
         split; [reflexivity|];
         split; [reflexivity|];
         split; [now left|];
         split; [lia | exact Hq]).
  - unfold loop_condition in Hcond.
    apply andb_true_iff in Hcond as [_ Hle]; apply Nat.leb_le in Hle; lia.
  - rewrite while_step by exact Hcond.
    unfold loop_condition in Hcond.
    apply andb_true_iff in Hcond as [Hmore Hle]; apply Nat.leb_le in Hle.
    unfold bind.
    destruct (convert_page_cases convert st t)
      as (st1 & events1 & Hbody & Hcalls & [-> | (page & Hpage & ->)]);
      rewrite Hbody.
    + rewrite while_done by reflexivity.
      exists (no_more_pages st), events1, 1%nat.
      split; [reflexivity|].
      split; [exact Hcalls|].
      split; [right; lia|].
      split; [cbn; lia | exact Hq].
    + destruct (IH {| images := images st ++ [page];
                      pageNum := pageNum st + 1;
                      hasMorePages := hasMorePages st |}
                   (t ++ events1))
        as (st' & events & m & Hrun & Hc & Hm & Hlen & Hq');
        [cbn; lia | cbn; apply Forall_app; split; [exact Hq | now constructor] |].
      cbn [images pageNum] in *.
      exists st', (events1 ++ events), (S m).
      split; [rewrite Hrun; now rewrite <- app_assoc|].
      split.
      { rewrite converted_app, Hcalls, Hc; cbn [seq app].
        now replace (pageNum st + 1)%nat with (S (pageNum st)) by lia. }
      split; [right; lia|].
      split; [rewrite length_app in Hlen; cbn [List.length] in Hlen; lia|].
      exact Hq'.
Qed.

(** X10. The first tier asks the renderer for the pages 1, 2, ... in
    order, each once, and for no page after page 20: whatever the
    renderer and the image library do, [processPDFWithPdf2Pic] ends,
    and the page numbers of its calls of the renderer are the numbers
    from 1 to some [m] of at most 20, where [m] is at least the number
    of pages returned. *)
Theorem renderer_asked_in_order (pdfPath : jsstring) (t : Trace) :
  exists r events m,
    processPDFWithPdf2Pic env pdfPath t = (Some r, t ++ events)
    /\ converted events = seq 1 m
    /\ (m <= 20)%nat
    /\ (forall pages, r = Ok pages -> (List.length pages <= m)%nat).
Proof.
  unfold processPDFWithPdf2Pic.
  destruct (pdf2pic env) as [module|].
  - unfold bind at 1, call.
    destruct (fromPath module pdfPath options) as [convert | e].
    + destruct (tier1_loop_calls
                  convert 20
                  {| images := []; pageNum := 1; hasMorePages := true |}
                  (t ++ [EvFromPath pdfPath]))
        as (st' & events & m & Hrun & Hc & Hm & Hlen & _);
        [cbn; lia | constructor |].
      cbn [images pageNum List.length] in *.
      unfold bind; rewrite Hrun.
      destruct (List.length (images st') =? 0)%nat;
        eexists; exists (EvFromPath pdfPath :: events), m;
        unfold throw, ret; rewrite <- app_assoc;
        (split; [reflexivity|]);
        (split; [exact Hc|]);
        (split; [lia|]).
      * discriminate.
      * intros pages H; injection H as <-; lia.
    + eexists; exists [EvFromPath pdfPath], 0%nat.
      split; [reflexivity|].
      split; [reflexivity|].
      split; [lia | discriminate].
  - eexists; exists [], 0%nat; unfold throw; rewrite app_nil_r.
    split; [reflexivity|].
    split; [reflexivity|].
    split; [lia | discriminate].
Qed.

Lemma tier1_quality (pdfPath : jsstring) (t t' : Trace) (pages : list Jpeg) :
  processPDFWithPdf2Pic env pdfPath t = (Some (Ok pages), t') ->
  Forall (fun page => quality page = 85%N) pages.
Proof.
  unfold processPDFWithPdf2Pic.
  destruct (pdf2pic env) as [module|]; [|discriminate].
  unfold bind at 1, call.
  destruct (fromPath module pdfPath options) as [convert | e]; [|discriminate].
  destruct (tier1_loop_calls
              convert 20
              {| images := []; pageNum := 1; hasMorePages := true |}
              (t ++ [EvFromPath pdfPath]))
    as (st' & events & m & Hrun & _ & _ & _ & Hq);
    [cbn; lia | constructor |].
  unfold bind; rewrite Hrun.
  destruct (List.length (images st') =? 0)%nat; [discriminate|].
  intros H; injection H as <- _; exact Hq.
Qed.

Lemma render_pages_quality (total : nat) (rest : list jsstring) :
  forall (i : nat) (done pages : list Jpeg) (t t' : Trace),
    render_pages env rest i total done t = (Some (Ok pages), t') ->
    Forall (fun page => quality page = 85%N) done ->
    Forall (fun page => quality page = 85%N) pages.
Proof.
  induction rest as [|c rest IH]; intros i done pages t t';
    cbn [render_pages].
  - intros H; injection H as <- _; auto.
  - unfold bind.
    destruct (sharp_decode env (FromSvg (text_page c (i + 1) total)))
      as [img | e] eqn:Hd.
    + rewrite (createTextImage_ok env _ _ _ img _ Hd).
      intros Hrun Hq; apply (IH _ _ _ _ _ Hrun).
      apply Forall_app; split; [exact Hq | now constructor].
    + rewrite (createTextImage_throw env _ _ _ e _ Hd); discriminate.
Qed.

Lemma fallback_quality (pdfPath : jsstring) (t t' : Trace)
      (pages : list Jpeg) :
  processPDFWithTextExtraction env pdfPath t = (Some (Ok pages), t') ->
  Forall (fun page => quality page = 85%N) pages.
Proof.
  unfold processPDFWithTextExtraction, try_catch, bind, call.
  destruct (fs_readFileSync env pdfPath) as [dataBuffer | e]; [|discriminate].
  destruct (pdfParse env dataBuffer) as [pdfData_text | e]; [|discriminate].
  destruct (split_pages _ _ _ _) as [texts|]; [|discriminate].
  match goal with
  | |- context [render_pages env ?texts ?i ?n ?done ?tr] =>
      destruct (render_pages env texts i n done tr) as [[[imgs | e]|] t1] eqn:Hrun
  end; try discriminate.
  intros H; injection H as <- _.
  eapply render_pages_quality; [exact Hrun | constructor].
Qed.

(** X11. Every page that [processFile] returns, from a PDF by either
    tier or from an image, is encoded with the quality 85. *)
Theorem pages_have_quality_85 (file : UploadedFile) (t t' : Trace)
        (pages : list Jpeg) :
  processFile env file t = (Some (Ok pages), t') ->
  Forall (fun page => quality page = 85%N) pages.
Proof.
  unfold processFile, try_catch at 1.
  destruct (eqb_jsstring _ (lit ".pdf")).
  - assert (Hfall : forall t0,
               match processPDFWithTextExtraction env (path file) t0 with
               | (Some (Throw error), t1) => (Some (Throw error), t1)
               | other => other
               end = (Some (Ok pages), t') ->
               Forall (fun page => quality page = 85%N) pages).
    { intros t0.
      destruct (processPDFWithTextExtraction env (path file) t0)
        as [[[imgs | e]|] t1] eqn:Hrun; try discriminate.
      intros H; injection H as <- _.
      now apply (fallback_quality (path file) t0 t1). }
    unfold processPDF.
    destruct (pdf2pic env) as [module|]; [|apply Hfall].
    unfold try_catch.
    destruct (processPDFWithPdf2Pic env (path file) t)
      as [[[imgs | e]|] t1] eqn:Hrun; try discriminate.
    + intros H; injection H as <- _.
      now apply (tier1_quality (path file) t t1).
    + apply Hfall.
  - destruct (existsb _ _); [|discriminate].
    unfold processImage, try_catch, bind, sharp_to_jpeg, bind, call, ret.
    destruct (sharp_decode env (FromPath (path file))); [|discriminate].
    intros H; injection H as <- _; now constructor.
Qed.

End Calls.

Lemma pages_have_quality_85_witness :
  let env := Scenario.document None (Scenario.text_of_length 4500)
                               Scenario.decoder in
  exists pages,
    fst (FileProcessor.processFile env (Scenario.upload "exam.pdf") [])
    = Some (Ok pages)
    /\ Forall (fun page => Sharp.quality page = 85%N) pages.
Proof.
  intros env.
  set (run := FileProcessor.processFile env (Scenario.upload "exam.pdf") []).
  exists (match fst run with Some (Ok pages) => pages | _ => [] end).
  split; [vm_compute; reflexivity|].
  apply (pages_have_quality_85 env (Scenario.upload "exam.pdf") [] (snd run)).
  vm_compute; reflexivity.
Defined.

Lemma plain_text_reaches_pages_witness :
  let env := Scenario.document None (lit "Question 1: 2 + 2 = 4")
                               Scenario.decoder in
  exists svgs,
    snd (FileProcessor.processPDFWithTextExtraction
           env (lit "uploads/files-1") [])
    = [] ++ IO.EvReadFile (lit "uploads/files-1") :: IO.EvPdfParse (lit "%PDF")
         :: map PageText.draw svgs
    /\ List.concat (map Sharp.svg_body svgs) = lit "Question 1: 2 + 2 = 4".
Proof.
  intros env.
  set (run := FileProcessor.processPDFWithTextExtraction
                env (lit "uploads/files-1") []).
  destruct (plain_text_reaches_pages
              env (lit "uploads/files-1") (lit "%PDF")
              (Some (lit "Question 1: 2 + 2 = 4"))
              (match fst run with Some (Ok pages) => pages | _ => [] end)
              [] (snd run) eq_refl eq_refl)
    as (svgs & Ht & _ & Hbody).
  - repeat constructor.
  - vm_compute; reflexivity.
  - exists svgs; split; [exact Ht | exact Hbody].
Defined.

Lemma processFile_errors_witness :
  let env := Scenario.document None (lit "2 + 2 = 4")
                               Scenario.rejecting_decoder in
  exists m,
    fst (FileProcessor.processFile env (Scenario.upload "exam.pdf") [])
    = Some (Throw (Error (lit "Failed to process PDF file: " ++ m))).
Proof.
  intros env.
  set (run := FileProcessor.processFile env (Scenario.upload "exam.pdf") []).
  destruct (processFile_errors
              env (Scenario.upload "exam.pdf") [] (snd run)
              (Error (lit "Failed to process PDF file: Failed to create text image")))
    as [(_ & m & Hm & _) | [[_ Himg] | (Hpdf & _)]].
  - vm_compute; reflexivity.
  - exists m; rewrite <- Hm; vm_compute; reflexivity.
  - discriminate Himg.
  - exfalso; apply Hpdf; vm_compute; reflexivity.
Defined.

Lemma processFile_gives_a_page_witness :
  let env := Scenario.document (Some 2%nat) [] Scenario.decoder in
  (1 <= List.length [Scenario.rendered_page 1; Scenario.rendered_page 2])%nat.
Proof.
  intros env.
  apply (processFile_gives_a_page
           env (Scenario.upload "exam.pdf") []
           (snd (FileProcessor.processFile env (Scenario.upload "exam.pdf") []))).
  vm_compute; reflexivity.
Defined.

Lemma first_tier_within_limit_witness :
  let env := Scenario.document (Some 30%nat) [] Scenario.decoder in
  exists pages,
    fst (FileProcessor.processPDF env (lit "uploads/files-1") [])
    = Some (Ok pages)
    /\ (1 <= List.length pages <= 20)%nat.
Proof.
  intros env.
  set (run := FileProcessor.processPDF env (lit "uploads/files-1") []).
  exists (match fst run with Some (Ok pages) => pages | _ => [] end).
  split; [vm_compute; reflexivity|].
  apply (first_tier_within_limit env (lit "uploads/files-1") [] (snd run));
    vm_compute; reflexivity.
Defined.

Lemma processFile_other_than_pdf_witness :
  let env := Scenario.document None [] Scenario.decoder in
  (exists r,
     FileProcessor.processFile env (Scenario.upload "Scan.PNG") []
     = (Some r, [IO.EvSharp (Sharp.FromPath (lit "uploads/files-1"))]))
  /\ FileProcessor.processFile env (Scenario.upload "notes.docx") []
     = (Some (Throw (Error (lit "Unsupported file type: .docx"))), []).
Proof.
  intros env; split.
  - destruct (processFile_other_than_pdf env (Scenario.upload "Scan.PNG") [])
      as [Himage _].
    destruct Himage as (r & Hrun & _); [vm_compute; tauto|].
    exists r; exact Hrun.
  - destruct (processFile_other_than_pdf env (Scenario.upload "notes.docx") [])
      as [_ Hother].
    apply Hother; vm_compute; intuition discriminate.
Defined.

(* ================================================================== *)
(** * The removal of the code fences *)
(* ================================================================== *)

Section Fences.

Import Cleaner.

Lemma trimStart_white (ws s : jsstring) :
  Forall (fun c => is_whitespace c = true) ws ->
  trimStart (ws ++ s) = trimStart s.
Proof.
  induction 1 as [|c ws Hc _ IH]; [reflexivity|].
  cbn; now rewrite Hc.
Qed.

Lemma trimEnd_white (s ws : jsstring) :
  Forall (fun c => is_whitespace c = true) ws ->
  trimEnd (s ++ ws) = trimEnd s.
Proof.
  intros H; unfold trimEnd; rewrite rev_app_distr, trimStart_white;
    [reflexivity | now apply Forall_rev].
Qed.

(** A text that is its own trim is not changed by a trim at either
    end. *)
Lemma trimmed_both_ends (body : jsstring) :
  trim body = body -> trimStart body = body /\ trimEnd body = body.
Proof.
  intros Ht.
  destruct (trim_shape body) as [E | (c & r & d & r' & E & Hc & Er & Hd)];
    rewrite Ht in *.
  - subst body; split; reflexivity.
  - split.
    + rewrite E; now apply trimStart_keeps.
    + unfold trimEnd; rewrite Er, (trimStart_keeps d r' Hd), <- Er.
      apply rev_involutive.
Qed.

Lemma replace_trailing_fence (body ws : jsstring) :
  trim body = body ->
  Forall (fun c => is_whitespace c = true) ws ->
  replace_trailing fence (body ++ ws ++ fence) = body.
Proof.
  intros Ht Hws; unfold replace_trailing.
  rewrite app_assoc, endsWith_app.
  rewrite length_app, Nat.add_sub, firstn_app, Nat.sub_diag, firstn_all.
  cbn [firstn]; rewrite app_nil_r, trimEnd_white by exact Hws.
  now apply trimmed_both_ends.
Qed.

Lemma unwrap_tail (body ws : jsstring) :
  trim body = body ->
  Forall (fun c => is_whitespace c = true) ws ->
  replace_trailing fence (trimStart (body ++ ws ++ fence)) = body.
Proof.
  intros Ht Hws.
  destruct (trim_shape body) as [E | (c & r & _ & _ & E & Hc & _)];
    rewrite Ht in E.
  - subst body; cbn [app]; rewrite trimStart_white by exact Hws.
    reflexivity.
  - rewrite E at 1; cbn [app]; rewrite (trimStart_keeps c _ Hc).
    change (c :: r ++ ws ++ fence) with ((c :: r) ++ ws ++ fence).
    rewrite <- E; now apply replace_trailing_fence.
Qed.

Lemma fenced_is_trimmed (opening rest : jsstring) :
  trim ((96%N :: opening) ++ rest ++ fence) = (96%N :: opening) ++ rest ++ fence.
Proof.
  eapply (trim_fixed _ 96%N 96%N); [reflexivity | reflexivity | | reflexivity].
  rewrite !rev_app_distr; cbn [rev fence lit map list_ascii_of_string app].
  reflexivity.
Qed.

Lemma unwrap_json_fence (ws1 ws2 body : jsstring) :
  Forall (fun c => is_whitespace c = true) ws1 ->
  Forall (fun c => is_whitespace c = true) ws2 ->
  trim body = body ->
  strip_fences (trim (fence_json ++ ws1 ++ body ++ ws2 ++ fence)) = body.
Proof.
  intros H1 H2 Ht.
  replace (ws1 ++ body ++ ws2 ++ fence) with ((ws1 ++ body ++ ws2) ++ fence)
    by (now rewrite <- !app_assoc).
  change fence_json with (96%N :: lit "``json").
  rewrite fenced_is_trimmed.
  change (96%N :: lit "``json") with fence_json.
  unfold strip_fences; rewrite startsWith_app.
  unfold replace_leading; rewrite startsWith_app.
  rewrite skipn_app, Nat.sub_diag, skipn_all; cbn [skipn app].
  rewrite <- !app_assoc, trimStart_white by exact H1.
  now apply unwrap_tail.
Qed.

Lemma unwrap_plain_fence (ws1 ws2 body : jsstring) :
  Forall (fun c => is_whitespace c = true) ws1 ->
  Forall (fun c => is_whitespace c = true) ws2 ->
  trim body = body ->
  startsWith (ws1 ++ body ++ ws2 ++ fence) (lit "json") = false ->
  strip_fences (trim (fence ++ ws1 ++ body ++ ws2 ++ fence)) = body.
Proof.
  intros H1 H2 Ht Hjson.
  replace (ws1 ++ body ++ ws2 ++ fence) with ((ws1 ++ body ++ ws2) ++ fence)
    by (now rewrite <- !app_assoc).
  change fence with (96%N :: lit "``") at 1.
  rewrite fenced_is_trimmed.
  change (96%N :: lit "``") with fence.
  rewrite <- !app_assoc.
  unfold strip_fences.
  replace (startsWith (fence ++ ws1 ++ body ++ ws2 ++ fence) fence_json)
    with false
    by (symmetry; change fence_json with (fence ++ lit "json");
        cbn [fence lit map list_ascii_of_string app startsWith];
        rewrite !N.eqb_refl; exact Hjson).
  rewrite startsWith_app.
  unfold replace_leading; rewrite startsWith_app.
  rewrite skipn_app, Nat.sub_diag, skipn_all; cbn [skipn app].
  rewrite trimStart_white by exact H1.
  now apply unwrap_tail.
Qed.

(** X12. The removal of the fences undoes the wrapping of a reply in a
    markdown code block.  A body that has no white space at either end,
    put between an opening fence (with or without the tag [json]) and
    a closing fence, with any white space around it, is given back by
    the trim and the removal of the fences; for the plain fence the
    text after it must not begin with [json]. *)
Theorem strip_fences_unwraps (ws1 ws2 body : jsstring) :
  Forall (fun c => is_whitespace c = true) ws1 ->
  Forall (fun c => is_whitespace c = true) ws2 ->
  trim body = body ->
  strip_fences (trim (fence_json ++ ws1 ++ body ++ ws2 ++ fence)) = body
  /\ (startsWith (ws1 ++ body ++ ws2 ++ fence) (lit "json") = false ->
      strip_fences (trim (fence ++ ws1 ++ body ++ ws2 ++ fence)) = body).
Proof.
  intros H1 H2 Ht; split.
  - now apply unwrap_json_fence.
  - now apply unwrap_plain_fence.
Qed.

(** X13. A reply that is the text of an object reaches the parser of
    [analyzeContentWithStatement] as it is, bare or in a code block:
    when the body has no white space at either end and ends with a
    closing brace, the clean step gives the body back for the body
    itself (if it does not begin with a fence) and for the body
    wrapped in a [json] code block. *)
Theorem clean_gives_object_text (ws1 ws2 body : jsstring) :
  Forall (fun c => is_whitespace c = true) ws1 ->
  Forall (fun c => is_whitespace c = true) ws2 ->
  trim body = body ->
  endsWith body closing_brace = true ->
  clean (fence_json ++ ws1 ++ body ++ ws2 ++ fence) = body
  /\ (startsWith body fence = false -> clean body = body).
Proof.
  intros H1 H2 Ht Hbrace; unfold clean; split.
  - rewrite unwrap_json_fence by assumption.
    now apply repair_fixed.
  - intros Hfence; rewrite Ht, strip_fences_none by exact Hfence.
    now apply repair_fixed.
Qed.

(** X14. Whatever the response, the text that
    [analyzeContentWithStatement] hands to the parser ends with a
    closing brace. *)
Theorem clean_ends_with_brace (analysisText : jsstring) :
  endsWith (clean analysisText) closing_brace = true.
Proof. unfold clean; apply repair_ends_with_brace. Qed.

End Fences.

Lemma clean_gives_object_text_witness :
  let body := lit "{" ++ quoted "overall_score" ++ lit ": 85}" in
  Cleaner.clean (Cleaner.fence_json ++ [10%N] ++ body ++ [10%N] ++ Cleaner.fence)
  = body
  /\ Cleaner.clean body = body.
Proof.
  intros body.
  destruct (clean_gives_object_text [10%N] [10%N] body) as [Hfenced Hbare].
  - repeat constructor.
  - repeat constructor.
  - vm_compute; reflexivity.
  - vm_compute; reflexivity.
  - split; [exact Hfenced | apply Hbare; vm_compute; reflexivity].
Defined.

Lemma strip_fences_unwraps_witness :
  let body := lit "{" ++ quoted "questions" ++ lit ": []}" in
  Cleaner.strip_fences
    (trim (Cleaner.fence_json ++ [10%N] ++ body ++ [10%N] ++ Cleaner.fence))
  = body
  /\ Cleaner.strip_fences
       (trim (Cleaner.fence ++ [10%N] ++ body ++ [10%N] ++ Cleaner.fence))
     = body.
Proof.
  intros body.
  destruct (strip_fences_unwraps [10%N] [10%N] body) as [Hjson Hplain].
  - repeat constructor.
  - repeat constructor.
  - vm_compute; reflexivity.
  - split; [exact Hjson | apply Hplain; vm_compute; reflexivity].
Defined.

(* ================================================================== *)
(** * The entry points of the AI service *)
(* ================================================================== *)

Section ServiceCalls.

Import Cleaner AIService AIServiceCalls.

Variable JSON_parse : jsstring -> Result JsValue.

Lemma eqb_jsstring_refl (k : jsstring) : eqb_jsstring k k = true.
Proof. now apply eqb_jsstring_eq. Qed.

Lemma lookup_define (k : jsstring) (x : JsValue)
      (fields : list (jsstring * JsValue)) :
  lookup k (define k x fields) = Some x.
Proof.
  induction fields as [|[k' v'] fields IH]; cbn [define lookup].
  - now rewrite eqb_jsstring_refl.
  - destruct (eqb_jsstring k k') eqn:E; cbn [lookup].
    + now rewrite eqb_jsstring_refl.
    + now rewrite E.
Qed.

(** What the inner [try] returns has its [question_analysis]. *)
Lemma validated_has_question_analysis (cleanedResponse : jsstring)
      (v : JsValue) :
  parse_and_validate JSON_parse cleanedResponse = Ok v ->
  has_field v "question_analysis".
Proof.
  unfold parse_and_validate, Exn.bind, has_field.
  destruct (JSON_parse cleanedResponse) as [p | e]; [|discriminate].
  destruct (get_field p (lit "question_analysis")) as [qa | e] eqn:Hqa;
    [|discriminate].
  destruct (truthy qa) eqn:Hq; cbn [negb].
  - intros H; injection H as <-; now exists qa.
  - destruct p; cbn [set_field]; try discriminate;
      intros H; injection H as <-; exists empty_array;
      cbn [get_field]; now rewrite lookup_define.
Qed.

Lemma recovered_has_question_analysis (reply : ApiReply) (v : JsValue) :
  analyzeContentWithStatement JSON_parse reply = Ok v ->
  has_field v "question_analysis".
Proof.
  unfold analyzeContentWithStatement, Exn.try_catch at 1, Exn.bind.
  destruct (response_text reply) as [analysisText | e]; [|discriminate].
  unfold analyzeContentWithStatement_recover, Exn.try_catch.
  destruct (parse_and_validate JSON_parse (clean analysisText))
    as [p | e] eqn:Hp.
  - intros H; injection H as <-.
    now apply (validated_has_question_analysis (clean analysisText)).
  - intros H; injection H as <-.
    exists empty_array; split; reflexivity.
Qed.

(** X15. Every value that [analyzeContentWithStatement] returns is an
    object or an array with a [question_analysis] that is truthy: the
    one the model gave, or the empty array that the service puts in.
    A parsed reply on which the array cannot be set (a number, a
    string, a boolean, [null]) is replaced by the fallback record. *)
Theorem statement_analysis_has_questions (reply : ApiReply) (v : JsValue) :
  analyzeContentWithStatement JSON_parse reply = Ok v ->
  has_field v "question_analysis"
  /\ ((exists fields, v = JObj fields)
      \/ (exists items named, v = JArr items named)).
Proof.
  intros H; pose proof (recovered_has_question_analysis reply v H) as Hq.
  split; [exact Hq|].
  destruct Hq as (x & Hget & Hx).
  destruct v; cbn in Hget; try discriminate Hget;
    try (injection Hget as <-; discriminate Hx).
  - right; eexists; eexists; reflexivity.
  - left; eexists; reflexivity.
Qed.

Lemma extractContent_cases (reply : ApiReply) :
  (exists extractedContent,
      reply = Content (Some extractedContent) /\ extractedContent <> []
      /\ extractContent reply = Ok extractedContent)
  \/ extractContent reply
     = Throw (Error (lit "Failed to extract content from images")).
Proof.
  destruct reply as [e | | [[|c s] |]]; try (right; reflexivity).
  left; exists (c :: s); repeat split; discriminate.
Qed.

(** X16. [analyzeExam] returns a record of the file name, the extracted
    content (which is never empty), the analysis and the time, where
    the analysis is what the parser made of the reply, or the fallback
    record of [analyzeContent] when the parser rejected the reply; and
    it throws one of two errors only, [AI analysis failed:] followed by
    the error of the failed stage. *)
Theorem analyzeExam_outcome (api : Api) (now : jsstring)
        (images : list Sharp.Jpeg) (filename : jsstring) :
  match analyzeExam JSON_parse api now images filename with
  | Ok v =>
      exists extractedContent analysisText analysis,
        vision api images = Content (Some extractedContent)
        /\ extractedContent <> []
        /\ AIServiceCalls.analysis api extractedContent filename
           = Content (Some analysisText)
        /\ analysisText <> []
        /\ (JSON_parse analysisText = Ok analysis
            \/ (exists e, JSON_parse analysisText = Throw e)
               /\ analysis = analyzeContent_fallback analysisText)
        /\ v = JObj [ key "filename" (JStr filename);
                      key "extractedContent" (JStr extractedContent);
                      key "analysis" analysis;
                      key "timestamp" (JStr now) ]
  | Throw e =>
      e = Error (lit "AI analysis failed: Failed to extract content from images")
      \/ e = Error (lit "AI analysis failed: Failed to analyze content")
  end.
Proof.
  unfold analyzeExam, Exn.try_catch at 1, Exn.bind at 1.
  destruct (extractContent_cases (vision api images))
    as [(c & Hv & Hc & ->) | ->]; [|now left].
  unfold analyzeContent, Exn.try_catch, Exn.bind.
  destruct (AIServiceCalls.analysis api c filename) as [e | | [[|a s] |]] eqn:Ha;
    cbn [response_text]; try (now right).
  unfold analyzeContent_recover, Exn.try_catch.
  destruct (JSON_parse (a :: s)) as [p | e] eqn:Hp.
  - exists c, (a :: s), p; repeat split; auto; discriminate.
  - exists c, (a :: s), (analyzeContent_fallback (a :: s)).
    repeat split; auto; try discriminate.
    right; split; [now exists e | reflexivity].
Qed.

(** X17. [analyzeExamWithStatement] returns a record of the file name,
    the extracted content (never empty), the analysis, the mark that a
    statement was used and the time, and the analysis always has its
    [question_analysis]; it throws one of two errors only,
    [Enhanced analysis failed:] followed by the error of the failed
    stage. *)
Theorem analyzeExamWithStatement_outcome (api : Api) (now : jsstring)
        (images : list Sharp.Jpeg) (statementQuestions : JsValue)
        (filename : jsstring) :
  match analyzeExamWithStatement JSON_parse api now images
                                 statementQuestions filename with
  | Ok v =>
      exists studentContent analysis,
        vision api images = Content (Some studentContent)
        /\ studentContent <> []
        /\ has_field analysis "question_analysis"
        /\ v = JObj [ key "filename" (JStr filename);
                      key "extractedContent" (JStr studentContent);
                      key "analysis" analysis;
                      key "statement_used" (JBool true);
                      key "timestamp" (JStr now) ]
  | Throw e =>
      e = Error (lit "Enhanced analysis failed: Failed to extract content from images")
      \/ e = Error (lit "Enhanced analysis failed: Failed to analyze content with statement context")
  end.
Proof.
  unfold analyzeExamWithStatement, Exn.try_catch at 1, Exn.bind at 1.
  destruct (extractContent_cases (vision api images))
    as [(c & Hv & Hc & ->) | ->]; [|now left].
  unfold Exn.bind.
  destruct (analyzeContentWithStatement
              JSON_parse (enhanced api c statementQuestions filename))
    as [analysis | e] eqn:Ha.
  - exists c, analysis; repeat split; auto.
    eapply recovered_has_question_analysis; exact Ha.
  - right.
    unfold analyzeContentWithStatement, Exn.try_catch at 1, Exn.bind in Ha.
    destruct (response_text _) as [analysisText | e'];
      [|injection Ha as <-; reflexivity].
    destruct (analyzeContentWithStatement_recover JSON_parse analysisText)
      as [p | e'']; [discriminate Ha | injection Ha as <-; reflexivity].
Qed.


(* ---------------------------------------------------------------- *)
(** ** [generateQuiz] *)

Lemma number_is_truthy (n : nat) : truthy (number (n + 1)) = true.
Proof.
  unfold number, truthy; apply negb_true_iff.
  destruct (Qeq_bool (inject_Z (Z.of_nat (n + 1))) 0) eqn:E; [|reflexivity].
  apply Qeq_bool_iff in E; unfold Qeq in E; cbn in E; lia.
Qed.

Lemma or_else_truthy (a b : JsValue) :
  truthy b = true -> truthy (or_else a b) = true.
Proof. intros Hb; unfold or_else; now destruct (truthy a) eqn:E. Qed.

Lemma is_string_eq (v : JsValue) (s : jsstring) :
  v = JStr s -> is_string v s = true.
Proof. intros ->; apply eqb_jsstring_refl. Qed.

Lemma validate_question_valid (q : JsValue) (index : nat) (v : JsValue) :
  validate_question q index = Ok v -> valid_question v.
Proof.
  unfold validate_question, Exn.bind.
  destruct (get_field q (lit "type")) as [type | e]; [|discriminate].
  destruct (get_field q (lit "question")) as [question | e]; [|discriminate].
  destruct (get_field q (lit "correctAnswer")) as [correctAnswer | e];
    [|discriminate].
  destruct (truthy type) eqn:Ht; [|discriminate].
  destruct (truthy question) eqn:Hq; [|discriminate].
  destruct (truthy correctAnswer) eqn:Hc; [|discriminate].
  cbn [negb orb].
  destruct (get_field q (lit "options")) as [options | e]; [|discriminate].
  destruct (is_string type (lit "multiple_choice")
            && (negb (truthy options) || negb (isArray options)
                || (array_length options <? 2)%nat)) eqn:Hm; [discriminate|].
  destruct (get_field q (lit "id")) as [id | e]; [|discriminate].
  intros H; injection H as <-.
  exists (or_else id (number (index + 1))), type, question,
    (or_else options JNull), correctAnswer.
  split; [reflexivity|].
  split; [apply or_else_truthy, number_is_truthy|].
  repeat (split; [assumption|]).
  split.
  - unfold or_else; destruct (truthy options) eqn:Ho; auto.
  - intros Htype; rewrite (is_string_eq type _ Htype) in Hm.
    cbn [andb] in Hm.
    apply orb_false_iff in Hm as [Hm Hlen].
    apply orb_false_iff in Hm as [Ho Ha].
    apply negb_false_iff in Ho, Ha.
    unfold or_else; rewrite Ho.
    destruct options; try discriminate Ha.
    eexists; eexists; split; [reflexivity|].
    cbn [array_length] in Hlen; apply Nat.ltb_ge in Hlen; exact Hlen.
Qed.

Lemma map_indexed_valid (items : list JsValue) :
  forall (index : nat) (vs : list JsValue),
    map_indexed validate_question items index = Ok vs ->
    List.length vs = List.length items /\ Forall valid_question vs.
Proof.
  induction items as [|q items IH]; intros index vs; cbn [map_indexed].
  - intros H; injection H as <-; split; [reflexivity | constructor].
  - unfold Exn.bind.
    destruct (validate_question q index) as [v | e] eqn:Hv; [|discriminate].
    destruct (map_indexed validate_question items (index + 1))
      as [vs' | e] eqn:Hvs; [|discriminate].
    intros H; injection H as <-.
    destruct (IH _ _ Hvs) as [Hlen Hall].
    split; [cbn; now rewrite Hlen|].
    constructor; [now apply (validate_question_valid q index) | exact Hall].
Qed.

(** X19. Every quiz that [generateQuiz] returns is an array with one
    question for each question of the parsed reply, and each of them
    is valid: it has the five fields, its identifier, type, text and
    answer are not empty, its options are present or [null], and a
    multiple-choice question has at least two options. *)
Theorem generateQuiz_questions_valid (reply : ApiReply) (v : JsValue) :
  generateQuiz JSON_parse reply = Ok v ->
  exists quizText quizData items named validatedQuestions,
    reply = Content (Some quizText)
    /\ JSON_parse (strip_fences (trim quizText)) = Ok quizData
    /\ get_field quizData (lit "questions") = Ok (JArr items named)
    /\ v = JArr validatedQuestions []
    /\ List.length validatedQuestions = List.length items
    /\ Forall valid_question validatedQuestions.
Proof.
  unfold generateQuiz, Exn.try_catch at 1, Exn.bind at 1.
  destruct reply as [e | | [[|c s] |]]; cbn [response_text]; try discriminate.
  unfold Exn.try_catch, parse_quiz, Exn.bind.
  destruct (JSON_parse (strip_fences (trim (c :: s)))) as [quizData | e]
    eqn:Hp; [|discriminate].
  destruct (get_field quizData (lit "questions")) as [questions | e]
    eqn:Hq; [|discriminate].
  destruct (truthy questions); [|discriminate].
  destruct questions as [| | | | |items named|]; cbn [negb orb isArray];
    try discriminate.
  destruct (map_indexed validate_question items 0) as [vs | e] eqn:Hvs;
    [|discriminate].
  intros H; injection H as <-.
  destruct (map_indexed_valid items 0 vs Hvs) as [Hlen Hall].
  exists (c :: s), quizData, items, named, vs; auto 10.
Qed.

Lemma map_indexed_stops (f : JsValue -> nat -> Result JsValue)
      (items : list JsValue) :
  forall (index i : nat) (q : JsValue) (e : JsError),
    nth_error items i = Some q ->
    f q (index + i)%nat = Throw e ->
    (forall j qj, (j < i)%nat -> nth_error items j = Some qj ->
                  exists vj, f qj (index + j)%nat = Ok vj) ->
    map_indexed f items index = Throw e.
Proof.
  induction items as [|q0 items IH]; intros index [|i] q e Hq He Hbefore;
    cbn [nth_error] in Hq; try discriminate; cbn [map_indexed];
    unfold Exn.bind.
  - injection Hq as ->; rewrite Nat.add_0_r in He; now rewrite He.
  - destruct (Hbefore 0%nat q0 ltac:(lia) eq_refl) as [v0 Hv0].
    rewrite Nat.add_0_r in Hv0; rewrite Hv0.
    rewrite (IH (index + 1)%nat i q e Hq); [reflexivity | |].
    + now replace (index + 1 + i)%nat with (index + S i)%nat by lia.
    + intros j qj Hj Hqj.
      replace (index + 1 + j)%nat with (index + S j)%nat by lia.
      apply Hbefore; [lia | exact Hqj].
Qed.

(** X20. One question without a type, a text or an answer makes
    [generateQuiz] reject the whole quiz, and the error names the
    index of the first such question: when the questions before index
    [i] pass the validation and the question at index [i] is an object
    that lacks one of the three fields, the error is [Quiz generation
    failed: Failed to parse quiz response: Invalid question at index
    i: missing required fields]. *)
Theorem generateQuiz_rejects_incomplete_question
        (quizText : jsstring) (quizData : JsValue)
        (items : list JsValue) (named : list (jsstring * JsValue))
        (i : nat) (fields : list (jsstring * JsValue)) (k : jsstring) :
  quizText <> [] ->
  JSON_parse (strip_fences (trim quizText)) = Ok quizData ->
  get_field quizData (lit "questions") = Ok (JArr items named) ->
  nth_error items i = Some (JObj fields) ->
  In k [lit "type"; lit "question"; lit "correctAnswer"] ->
  lookup k fields = None ->
  (forall j qj, (j < i)%nat -> nth_error items j = Some qj ->
                exists vj, validate_question qj j = Ok vj) ->
  generateQuiz JSON_parse (Content (Some quizText))
  = Throw (Error (lit "Quiz generation failed: Failed to parse quiz response: Invalid question at index "
                      ++ decimal i ++ lit ": missing required fields")).
Proof.
  intros Hne Hp Hq Hi Hk Hnone Hbefore.
  unfold generateQuiz, Exn.try_catch at 1, Exn.bind at 1.
  destruct quizText as [|c s]; [congruence|]; cbn [response_text].
  unfold Exn.try_catch, parse_quiz, Exn.bind at 1; rewrite Hp.
  unfold Exn.bind at 1; rewrite Hq; cbn [truthy negb orb isArray].
  rewrite (map_indexed_stops
             validate_question items 0 i (JObj fields)
             (Error (lit "Invalid question at index " ++ decimal i
                         ++ lit ": missing required fields")) Hi);
    [reflexivity | | exact Hbefore].
  cbn [Nat.add]; unfold validate_question, Exn.bind; cbn [get_field].
  cbn [In] in Hk; destruct Hk as [<- | [<- | [<- | []]]]; rewrite Hnone;
    cbn [truthy negb orb]; rewrite ?orb_true_r; reflexivity.
Qed.

End ServiceCalls.

Section ServiceRuns.

Import Cleaner AIService AIServiceCalls.

Lemma statement_analysis_has_questions_witness :
  let reply := Content (Some (lit "{" ++ quoted "overall_score" ++ lit ": 85}")) in
  analyzeContentWithStatement JSON.parse reply
  = Ok (JObj [ key "overall_score" (JNum 85);
               key "question_analysis" empty_array ])
  /\ has_field (JObj [ key "overall_score" (JNum 85);
                       key "question_analysis" empty_array ])
               "question_analysis".
Proof.
  intros reply.
  assert (Hrun : analyzeContentWithStatement JSON.parse reply
                 = Ok (JObj [ key "overall_score" (JNum 85);
                              key "question_analysis" empty_array ]))
    by (vm_compute; reflexivity).
  split; [exact Hrun|].
  exact (proj1 (statement_analysis_has_questions JSON.parse reply _ Hrun)).
Defined.

Lemma generateQuiz_questions_valid_witness :
  let reply := Content (Some QuizScenario.fenced_quiz) in
  exists validatedQuestions,
    generateQuiz JSON.parse reply = Ok (JArr validatedQuestions [])
    /\ List.length validatedQuestions = 2%nat
    /\ Forall valid_question validatedQuestions.
Proof.
  intros reply.
  assert (Hrun : generateQuiz JSON.parse reply
                 = Ok (JArr QuizScenario.validated_quiz []))
    by (vm_compute; reflexivity).
  destruct (generateQuiz_questions_valid JSON.parse reply _ Hrun)
    as (quizText & quizData & items & named & vs & _ & _ & _ & Hv & _ & Hall).
  injection Hv as <-.
  exists QuizScenario.validated_quiz.
  split; [exact Hrun | split; [reflexivity | exact Hall]].
Defined.

Lemma generateQuiz_rejects_incomplete_question_witness :
  generateQuiz JSON.parse (Content (Some QuizScenario.incomplete_quiz))
  = Throw (Error (lit "Quiz generation failed: Failed to parse quiz response: Invalid question at index 1: missing required fields")).
Proof.
  eapply (generateQuiz_rejects_incomplete_question
            JSON.parse QuizScenario.incomplete_quiz _ _ _ 1 _
            (lit "correctAnswer")).
  - discriminate.
  - vm_compute; reflexivity.
  - reflexivity.
  - reflexivity.
  - cbn; auto.
  - reflexivity.
  - intros j qj Hj Hqj.
    destruct j as [|j]; [|lia].
    cbn in Hqj; injection Hqj as <-.
    eexists; vm_compute; reflexivity.
Defined.

End ServiceRuns.

(* ================================================================== *)
(** * The built-in [Map] *)
(* ================================================================== *)

From Stdlib Require Import DecimalNat.

Section MapFacts.

Import JsMap.

Context {V : Type}.

Lemma eqb_jsstring_neq (a b : jsstring) : a <> b -> eqb_jsstring a b = false.
Proof.
  intros H; destruct (eqb_jsstring a b) eqn:E; [|reflexivity].
  apply eqb_jsstring_eq in E; contradiction.
Qed.

Lemma map_get_set_same (k : jsstring) (v : V) (m : list (jsstring * V)) :
  map_get k (map_set k v m) = Some v.
Proof.
  induction m as [|[k' v'] m IH]; cbn [map_set map_get].
  - now rewrite eqb_jsstring_refl.
  - destruct (eqb_jsstring k k') eqn:E; cbn [map_get].
    + now rewrite eqb_jsstring_refl.
    + now rewrite E.
Qed.

Lemma map_get_set_other (k k' : jsstring) (v : V) (m : list (jsstring * V)) :
  k' <> k -> map_get k' (map_set k v m) = map_get k' m.
Proof.
  intros Hne; induction m as [|[k0 v0] m IH]; cbn [map_set map_get].
  - now rewrite (eqb_jsstring_neq k' k Hne).
  - destruct (eqb_jsstring k k0) eqn:E; cbn [map_get].
    + apply eqb_jsstring_eq in E; subst k0.
      now rewrite (eqb_jsstring_neq k' k Hne).
    + now rewrite IH.
Qed.

Lemma map_get_delete_same (k : jsstring) (m : list (jsstring * V)) :
  map_get k (map_delete k m) = None.
Proof.
  unfold map_delete; induction m as [|[k' v'] m IH]; cbn [filter fst];
    [reflexivity|].
  destruct (eqb_jsstring k k') eqn:E; cbn [negb]; [exact IH|].
  cbn [map_get]; now rewrite E.
Qed.

Lemma map_get_delete_other (k k' : jsstring) (m : list (jsstring * V)) :
  k' <> k -> map_get k' (map_delete k m) = map_get k' m.
Proof.
  intros Hne; unfold map_delete.
  induction m as [|[k0 v0] m IH]; cbn [filter fst map_get]; [reflexivity|].
  destruct (eqb_jsstring k k0) eqn:E; cbn [negb map_get].
  - apply eqb_jsstring_eq in E; subst k0.
    now rewrite (eqb_jsstring_neq k' k Hne).
  - now rewrite IH.
Qed.

(** A new key goes to the end. *)
Lemma map_set_new (k : jsstring) (v : V) (m : list (jsstring * V)) :
  map_get k m = None -> map_set k v m = m ++ [(k, v)].
Proof.
  induction m as [|[k' v'] m IH]; cbn [map_get map_set app]; [reflexivity|].
  destruct (eqb_jsstring k k'); [discriminate|].
  intros H; now rewrite IH.
Qed.

End MapFacts.

(* ================================================================== *)
(** * The statement service *)
(* ================================================================== *)

Section Identifiers.

Import AIServiceCalls StatementService.

Lemma digits_are_digits (u : Decimal.uint) :
  Forall (fun c => (48 <= c <= 57)%N) (digits u).
Proof. induction u; cbn [digits]; constructor; (lia || assumption). Qed.

Lemma digits_inj (u u' : Decimal.uint) : digits u = digits u' -> u = u'.
Proof.
  revert u'; induction u as [|u IH|u IH|u IH|u IH|u IH|u IH|u IH|u IH|u IH|u IH];
    intros [|u'|u'|u'|u'|u'|u'|u'|u'|u'|u'] H; cbn [digits] in H;
    try discriminate H; try reflexivity;
    injection H as H; f_equal; now apply IH.
Qed.

Lemma decimal_inj (n n' : nat) : decimal n = decimal n' -> n = n'.
Proof.
  intros H; apply DecimalNat.Unsigned.to_uint_inj, digits_inj, H.
Qed.

Lemma decimal_has_no_underscore (n : nat) : ~ In 95%N (decimal n).
Proof.
  intros H; pose proof (digits_are_digits (Nat.to_uint n)) as Hd.
  rewrite Forall_forall in Hd; apply Hd in H; lia.
Qed.

(** Two texts cut at their first underscore. *)
Lemma cut_at_underscore (a a' b b' : jsstring) :
  ~ In 95%N a -> ~ In 95%N a' ->
  a ++ 95%N :: b = a' ++ 95%N :: b' -> a = a'.
Proof.
  revert a'; induction a as [|x a IH]; intros [|x' a'] Ha Ha' H;
    cbn [app] in H.
  - reflexivity.
  - injection H as Hx _; exfalso; apply Ha'; now left.
  - injection H as Hx _; exfalso; apply Ha; now left.
  - injection H as -> H; f_equal; apply (IH a').
    + intros Hin; apply Ha; now right.
    + intros Hin; apply Ha'; now right.
    + exact H.
Qed.

(** The counter can be read off an identifier. *)
Lemma statement_id_counter (counter now counter' now' : nat) :
  statement_id counter now = statement_id counter' now' ->
  counter = counter'.
Proof.
  unfold statement_id; intros H.
  apply app_inv_head in H.
  apply decimal_inj.
  apply (cut_at_underscore _ _ (decimal now) (decimal now'));
    [apply decimal_has_no_underscore | apply decimal_has_no_underscore | exact H].
Qed.

End Identifiers.

Section StatementFacts.

Import Cleaner AIService AIServiceCalls JsMap StatementService.

Variable JSON_parse : jsstring -> Result JsValue.

Lemma truthy_is_defined (v : JsValue) : truthy v = true -> defined v.
Proof. intros H; split; intros ->; discriminate H. Qed.

Lemma or_else_array_truthy (v : JsValue) :
  truthy (or_else v empty_array) = true.
Proof. now apply or_else_truthy. Qed.

(** [parseQuestionsFromContent] returns, and what it returns is
    truthy. *)
Lemma parsed_questions (reply : ApiReply) :
  exists questions,
    parseQuestionsFromContent JSON_parse reply = Ok questions
    /\ truthy questions = true.
Proof.
  unfold parseQuestionsFromContent, Exn.try_catch, Exn.bind.
  destruct (unchecked_text reply) as [analysisText | e];
    [|exists empty_array; split; reflexivity].
  destruct (JSON_parse (strip_fences (trim analysisText))) as [p | e];
    [|exists empty_array; split; reflexivity].
  destruct (get_field p (lit "questions")) as [q | e];
    [|exists empty_array; split; reflexivity].
  exists (or_else q empty_array); split;
    [reflexivity | apply or_else_array_truthy].
Qed.

Lemma get_length_defined (v : JsValue) :
  defined v -> exists n, get_length v = Ok n.
Proof.
  intros [Hnull Hundef]; destruct v; try congruence; eexists; reflexivity.
Qed.

Lemma has_of_get {V} (k : jsstring) (m : list (jsstring * V)) (v : V) :
  map_get k m = Some v -> map_has k m = true.
Proof. unfold map_has; now intros ->. Qed.

Lemma has_set {V} (k k' : jsstring) (v : V) (m : list (jsstring * V)) :
  map_has k' m = true -> map_has k' (map_set k v m) = true.
Proof.
  unfold map_has; intros H.
  destruct (list_eq_dec N.eq_dec k' k) as [-> | Hne].
  - now rewrite map_get_set_same.
  - now rewrite map_get_set_other.
Qed.

(** A run of [extractQuestions] that changes the state. *)
Lemma extractQuestions_cases (vision : ApiReply)
      (extraction : jsstring -> jsstring -> ApiReply)
      (statementId : jsstring) (s : State) :
  let run := extractQuestions JSON_parse vision extraction statementId s in
  (snd run = s
   /\ exists m,
        fst run = Throw (Error (lit "Failed to extract questions: " ++ m)))
  \/ exists statement extractedContent questions,
       map_get statementId (documents s) = Some statement
       /\ truthy questions = true
       /\ snd run
          = {| documents :=
                 map_set statementId
                         {| st_id := st_id statement;
                            st_filename := st_filename statement;
                            st_originalPath := st_originalPath statement;
                            st_content := Some extractedContent;
                            st_questions := questions;
                            st_timestamp := st_timestamp statement;
                            st_processed := true |}
                         (documents s);
               questionCache :=
                 map_set statementId questions (questionCache s);
               activeStatement := activeStatement s;
               idCounter := idCounter s |}
       /\ fst run = Ok questions.
Proof.
  intros run; subst run; unfold extractQuestions.
  destruct (map_get statementId (documents s)) as [statement|] eqn:Hget;
    [|left; split; [reflexivity | eexists; reflexivity]].
  unfold Exn.bind.
  destruct (extractContent vision) as [extractedContent | e];
    [|left; split; [reflexivity | eexists; reflexivity]].
  destruct (parsed_questions (extraction extractedContent (st_filename statement)))
    as (questions & -> & Hq).
  right; exists statement, extractedContent, questions.
  destruct (get_length_defined questions (truthy_is_defined _ Hq)) as [n ->].
  auto.
Qed.

(** [extractQuestions] without another request in between is its two
    stretches run one after the other, on the statement that is
    stored. *)
Lemma extractQuestions_in_stretches (vision : ApiReply)
      (extraction : jsstring -> jsstring -> ApiReply)
      (statementId : jsstring) (s : State) :
  extractQuestions JSON_parse vision extraction statementId s
  = match beginExtraction statementId s with
    | Throw error => (Throw error, s)
    | Ok statement =>
        completeExtraction JSON_parse vision
          (fun extractedContent =>
             extraction extractedContent (st_filename statement))
          true statementId s
    end.
Proof.
  unfold extractQuestions, beginExtraction, completeExtraction.
  destruct (map_get statementId (documents s)) as [statement|];
    reflexivity.
Qed.

(** The second stretch of [extractQuestions]. *)
Lemma completeExtraction_cases (vision : ApiReply)
      (extraction : jsstring -> ApiReply) (stored : bool)
      (statementId : jsstring) (s : State) :
  let run :=
    completeExtraction JSON_parse vision extraction stored statementId s in
  (snd run = s
   /\ exists m,
        fst run = Throw (Error (lit "Failed to extract questions: " ++ m)))
  \/ exists extractedContent questions,
       truthy questions = true
       /\ snd run
          = {| documents :=
                 match (if stored then map_get statementId (documents s)
                        else None) with
                 | Some statement =>
                     map_set statementId
                             {| st_id := st_id statement;
                                st_filename := st_filename statement;
                                st_originalPath := st_originalPath statement;
                                st_content := Some extractedContent;
                                st_questions := questions;
                                st_timestamp := st_timestamp statement;
                                st_processed := true |}
                             (documents s)
                 | None => documents s
                 end;
               questionCache :=
                 map_set statementId questions (questionCache s);
               activeStatement := activeStatement s;
               idCounter := idCounter s |}
       /\ fst run = Ok questions.
Proof.
  intros run; subst run; unfold completeExtraction, Exn.bind.
  destruct (extractContent vision) as [extractedContent | e];
    [|left; split; [reflexivity | eexists; reflexivity]].
  destruct (parsed_questions (extraction extractedContent))
    as (questions & -> & Hq).
  right; exists extractedContent, questions.
  destruct (get_length_defined questions (truthy_is_defined _ Hq)) as [n ->].
  auto.
Qed.

Lemma initial_invariant : invariant initial.
Proof.
  split; cbn; discriminate.
Qed.

Lemma processStatement_fresh (file : FileProcessor.UploadedFile)
      (now : nat) (iso : jsstring) (s : State) :
  invariant s ->
  map_get (statement_id (idCounter s) now) (documents s) = None.
Proof.
  intros Hinv.
  destruct (map_get (statement_id (idCounter s) now) (documents s))
    as [statement|] eqn:E; [|reflexivity].
  destruct (inv_keys s Hinv _ _ E) as (_ & _ & counter & now' & Hid & Hlt).
  apply statement_id_counter in Hid; lia.
Qed.

Lemma processStatement_invariant (file : FileProcessor.UploadedFile)
      (now : nat) (iso : jsstring) (s : State) :
  invariant s -> invariant (snd (processStatement file now iso s)).
Proof.
  intros Hinv; unfold processStatement; cbn [snd].
  set (k0 := statement_id (idCounter s) now) in *.
  split; cbn [documents questionCache activeStatement idCounter].
  - intros k statement Hget.
    destruct (list_eq_dec N.eq_dec k k0) as [-> | Hne].
    + rewrite map_get_set_same in Hget; injection Hget as <-.
      cbn [st_id st_questions].
      split; [reflexivity|].
      split; [split; discriminate|].
      exists (idCounter s), now; split; [reflexivity | lia].
    + rewrite map_get_set_other in Hget by exact Hne.
      destruct (inv_keys s Hinv _ _ Hget) as (H1 & H2 & c & n & H3 & H4).
      split; [exact H1|]; split; [exact H2|].
      exists c, n; split; [exact H3 | lia].
  - exact (inv_cache s Hinv).
  - intros k Hk; apply has_set, (inv_active s Hinv k Hk).
Qed.

(** The second stretch of [extractQuestions] keeps the invariant,
    whether or not its statement is still stored. *)
Lemma completeExtraction_invariant (vision : ApiReply)
      (extraction : jsstring -> ApiReply) (stored : bool)
      (statementId : jsstring) (s : State) :
  invariant s ->
  invariant (snd (completeExtraction JSON_parse vision extraction stored
                                     statementId s)).
Proof.
  intros Hinv.
  destruct (completeExtraction_cases vision extraction stored statementId s)
    as [[-> _] | (c & questions & Hq & -> & _)];
    [exact Hinv|].
  split; cbn [documents questionCache activeStatement idCounter].
  - intros k statement' Hget'.
    destruct (if stored then map_get statementId (documents s) else None)
      as [statement|] eqn:Hheld; [|exact (inv_keys s Hinv _ _ Hget')].
    assert (Hget : map_get statementId (documents s) = Some statement)
      by (destruct stored; [exact Hheld | discriminate Hheld]).
    destruct (inv_keys s Hinv _ _ Hget) as (Hid & _ & Hmade).
    destruct (list_eq_dec N.eq_dec k statementId) as [-> | Hne].
    + rewrite map_get_set_same in Hget'; injection Hget' as <-.
      cbn [st_id st_questions].
      split; [exact Hid|].
      split; [now apply truthy_is_defined | exact Hmade].
    + rewrite map_get_set_other in Hget' by exact Hne.
      exact (inv_keys s Hinv _ _ Hget').
  - intros k questions' Hget'.
    destruct (list_eq_dec N.eq_dec k statementId) as [-> | Hne].
    + rewrite map_get_set_same in Hget'; injection Hget' as <-.
      now apply truthy_is_defined.
    + rewrite map_get_set_other in Hget' by exact Hne.
      exact (inv_cache s Hinv _ _ Hget').
  - intros k Hk.
    destruct (if stored then map_get statementId (documents s) else None);
      [apply has_set|]; exact (inv_active s Hinv k Hk).
Qed.

Lemma selectStatement_invariant (statementId : jsstring) (s : State) :
  invariant s -> invariant (snd (selectStatement statementId s)).
Proof.
  intros Hinv; unfold selectStatement.
  destruct (map_get statementId (documents s)) as [statement|] eqn:Hget;
    [|exact Hinv].
  split; cbn [snd documents questionCache activeStatement idCounter];
    try apply Hinv.
  intros k Hk; injection Hk as <-; now apply (has_of_get _ _ statement).
Qed.

Lemma has_delete {V} (k k' : jsstring) (m : list (jsstring * V)) :
  k' <> k -> map_has k' m = true -> map_has k' (map_delete k m) = true.
Proof.
  unfold map_has; intros Hne H; now rewrite map_get_delete_other.
Qed.

Lemma get_after_delete {V} (k k' : jsstring) (m : list (jsstring * V)) (v : V) :
  map_get k' (map_delete k m) = Some v -> k' <> k /\ map_get k' m = Some v.
Proof.
  intros H; destruct (list_eq_dec N.eq_dec k' k) as [-> | Hne].
  - rewrite map_get_delete_same in H; discriminate H.
  - rewrite map_get_delete_other in H by exact Hne; auto.
Qed.

(** A run of [removeStatement]. *)
Lemma removeStatement_cases (fs : Fs) (statementId : jsstring) (s : State) :
  removeStatement fs statementId s = (false, s)
  \/ (map_has statementId (documents s) = true
      /\ removeStatement fs statementId s
         = (true,
            {| documents := map_delete statementId (documents s);
               questionCache := map_delete statementId (questionCache s);
               activeStatement :=
                 match activeStatement s with
                 | Some active =>
                     if eqb_jsstring active statementId then None
                     else Some active
                 | None => None
                 end;
               idCounter := idCounter s |})).
Proof.
  unfold removeStatement.
  destruct (map_get statementId (documents s)) as [statement|] eqn:Hget;
    [|now left].
  match goal with
  | |- context [match ?x with Ok _ => _ | Throw _ => _ end] => destruct x
  end; [right | now left].
  split; [now apply (has_of_get _ _ statement) | reflexivity].
Qed.

Lemma removeStatement_invariant (fs : Fs) (statementId : jsstring) (s : State) :
  invariant s -> invariant (snd (removeStatement fs statementId s)).
Proof.
  intros Hinv.
  destruct (removeStatement_cases fs statementId s) as [-> | [_ ->]];
    [exact Hinv|].
  split; cbn [snd documents questionCache activeStatement idCounter].
  - intros k statement Hget.
    apply get_after_delete in Hget as [_ Hget].
    exact (inv_keys s Hinv _ _ Hget).
  - intros k questions Hget.
    apply get_after_delete in Hget as [_ Hget].
    exact (inv_cache s Hinv _ _ Hget).
  - intros k Hk.
    destruct (activeStatement s) as [active|] eqn:Ha; [|discriminate Hk].
    destruct (eqb_jsstring active statementId) eqn:E; [discriminate Hk|].
    injection Hk as <-.
    apply has_delete; [|now apply (inv_active s Hinv)].
    intros ->; now rewrite eqb_jsstring_refl in E.
Qed.

(** The invariant holds between any two stretches, whatever calls of
    [extractQuestions] are waiting. *)
Lemma running_system_invariant (sys : System) :
  running_system JSON_parse sys -> invariant (service sys).
Proof.
  induction 1 as [|sys sys' _ IH Hstep]; [exact initial_invariant|].
  destruct Hstep; cbn [service].
  - now apply processStatement_invariant.
  - now apply selectStatement_invariant.
  - now apply removeStatement_invariant.
  - exact initial_invariant.
  - exact IH.
  - now apply completeExtraction_invariant.
Qed.

(** The invariant holds in every state of the service. *)
Lemma reachable_invariant (s : State) :
  reachable JSON_parse s -> invariant s.
Proof.
  intros (sys & Hsys & <-); now apply running_system_invariant.
Qed.

(** The statement of a waiting call that is marked as stored is
    stored. *)
Lemma stored_call_has_document (sys : System) :
  running_system JSON_parse sys ->
  forall call, In call (running sys) -> ex_stored call = true ->
               map_has (ex_id call) (documents (service sys)) = true.
Proof.
  induction 1 as [|sys sys' _ IH Hstep]; [intros call []|].
  destruct Hstep
    as [file now iso | statementId | fs statementId | fs
       | statementId statement Hbegin
       | before after call reply extraction Hrunning];
    cbn [service running].
  - intros call Hin Hst; unfold processStatement; cbn [snd documents].
    now apply has_set, IH.
  - intros call Hin Hst; unfold selectStatement.
    destruct (map_get statementId (documents (service sys)));
      cbn [snd documents]; now apply IH.
  - destruct (removeStatement_cases fs statementId (service sys))
      as [-> | [_ ->]]; cbn [fst snd documents]; [exact IH|].
    intros call Hin Hst; unfold detach in Hin.
    apply in_map_iff in Hin as (call0 & Hcall & Hin0).
    destruct (eqb_jsstring (ex_id call0) statementId) eqn:E;
      subst call; [discriminate Hst|].
    apply has_delete; [|now apply IH].
    intros Heq; rewrite Heq, eqb_jsstring_refl in E; discriminate E.
  - intros call Hin Hst; unfold detach_all in Hin.
    apply in_map_iff in Hin as (call0 & <- & _); discriminate Hst.
  - intros call [<- | Hin] Hst; [|now apply IH].
    cbn [ex_id]; unfold beginExtraction in Hbegin.
    destruct (map_get statementId (documents (service sys))) eqn:Hget;
      [|discriminate Hbegin].
    now apply (has_of_get _ _ s).
  - intros call0 Hin Hst.
    assert (Hin0 : In call0 (running sys)).
    { rewrite Hrunning; apply in_app_iff;
        apply in_app_iff in Hin as [Hin | Hin];
        [now left | right; now right]. }
    specialize (IH call0 Hin0 Hst).
    destruct (completeExtraction_cases reply extraction (ex_stored call)
                                       (ex_id call) (service sys))
      as [[-> _] | (c & questions & _ & -> & _)]; [exact IH|].
    cbn [documents].
    destruct (if ex_stored call
              then map_get (ex_id call) (documents (service sys))
              else None); [now apply has_set | exact IH].
Qed.

(** What a run of a whole function makes of a state of the service is
    a state of the service. *)
Lemma reachable_processStatement (file : FileProcessor.UploadedFile)
      (now : nat) (iso : jsstring) (s : State) :
  reachable JSON_parse s ->
  reachable JSON_parse (snd (processStatement file now iso s)).
Proof.
  intros (sys & Hsys & <-).
  exists {| service := snd (processStatement file now iso (service sys));
            running := running sys |};
    split; [|reflexivity].
  apply (system_step JSON_parse sys);
    [exact Hsys | exact (step_processStatement JSON_parse sys file now iso)].
Qed.

Lemma reachable_extractQuestions (vision : ApiReply)
      (extraction : jsstring -> jsstring -> ApiReply)
      (statementId : jsstring) (s : State) :
  reachable JSON_parse s ->
  reachable JSON_parse
            (snd (extractQuestions JSON_parse vision extraction statementId s)).
Proof.
  intros Hs; rewrite extractQuestions_in_stretches.
  destruct (beginExtraction statementId s) as [statement | error] eqn:Hbegin;
    [|exact Hs].
  destruct Hs as (sys & Hsys & <-).
  set (call := {| ex_id := statementId; ex_stored := true |}).
  set (waiting := {| service := service sys; running := call :: running sys |}).
  exists {| service :=
              snd (completeExtraction
                     JSON_parse vision
                     (fun extractedContent =>
                        extraction extractedContent (st_filename statement))
                     true statementId (service sys));
            running := running sys |};
    split; [|reflexivity].
  apply (system_step JSON_parse waiting);
    [apply (system_step JSON_parse sys);
     [exact Hsys
     |exact (step_beginExtraction JSON_parse sys statementId statement Hbegin)]
    |].
  exact (step_completeExtraction
           JSON_parse waiting [] (running sys) call vision
           (fun extractedContent =>
              extraction extractedContent (st_filename statement))
           eq_refl).
Qed.

End StatementFacts.

Section StatementProperties.

Import Cleaner AIService AIServiceCalls JsMap StatementService.

Variable JSON_parse : jsstring -> Result JsValue.


(** X22. A new statement never replaces a stored one: in every state
    of the service, [processStatement] returns a statement whose
    identifier is not yet a key of the documents, adds it after the
    stored ones, advances the counter and changes nothing else. *)
Theorem processStatement_never_replaces
        (file : FileProcessor.UploadedFile) (now : nat) (iso : jsstring)
        (s : State) :
  reachable JSON_parse s ->
  let statementId := statement_id (idCounter s) now in
  exists statement,
    processStatement file now iso s
    = (Ok statement,
       {| documents := documents s ++ [(statementId, statement)];
          questionCache := questionCache s;
          activeStatement := activeStatement s;
          idCounter := idCounter s + 1 |})
    /\ st_id statement = statementId
    /\ map_get statementId (documents s) = None.
Proof.
  intros Hs statementId.
  pose proof (processStatement_fresh
                file now iso s (reachable_invariant JSON_parse s Hs)) as Hnew.
  fold statementId in Hnew.
  eexists; split; [|split; [|exact Hnew]].
  - unfold processStatement; fold statementId.
    rewrite (map_set_new statementId _ (documents s) Hnew); reflexivity.
  - reflexivity.
Qed.

(** X23. In every state of the service, whatever requests were served
    while calls of [extractQuestions] were waiting, [getQuestions]
    returns a value that is neither [null] nor [undefined] (so that
    its [length] can be read); for an identifier that is neither a key
    of the documents nor of the cache it returns the empty array.  The
    cache may hold the questions of a statement that was removed while
    its extraction was waiting: these are then what is returned. *)
Theorem getQuestions_is_defined (statementId : jsstring) (s : State) :
  reachable JSON_parse s ->
  defined (getQuestions statementId s)
  /\ (map_has statementId (documents s) = false ->
      map_has statementId (questionCache s) = false ->
      getQuestions statementId s = empty_array).
Proof.
  intros Hs; pose proof (reachable_invariant JSON_parse s Hs) as Hinv.
  unfold getQuestions, map_has.
  destruct (map_get statementId (questionCache s)) as [questions|] eqn:Hc.
  - split; [exact (inv_cache s Hinv _ _ Hc) | discriminate].
  - destruct (map_get statementId (documents s)) as [statement|] eqn:Hd.
    + destruct (inv_keys s Hinv _ _ Hd) as (_ & Hdef & _).
      split; [exact Hdef | discriminate].
    + split; [split; discriminate | reflexivity].
Qed.

(** X24. In every state of the service [selectStatement] throws
    [Statement document not found] for an identifier that is not a
    key of the documents, and leaves the state as it is; for a stored
    statement it returns, and [getActiveStatement] then gives that
    statement; the documents and the cache are not changed. *)
Theorem selectStatement_outcome (statementId : jsstring) (s : State) :
  reachable JSON_parse s ->
  match map_get statementId (documents s) with
  | None =>
      selectStatement statementId s
      = (Throw (Error (lit "Statement document not found")), s)
  | Some statement =>
      exists summary s',
        selectStatement statementId s = (Ok summary, s')
        /\ getActiveStatement s' = Some statement
        /\ documents s' = documents s
        /\ questionCache s' = questionCache s
  end.
Proof.
  intros Hs; pose proof (reachable_invariant JSON_parse s Hs) as Hinv.
  unfold selectStatement.
  destruct (map_get statementId (documents s)) as [statement|] eqn:Hget;
    [|reflexivity].
  destruct (inv_keys s Hinv _ _ Hget) as (_ & Hdef & c & n & Hid & _).
  destruct (get_length_defined _ Hdef) as [len ->].
  eexists; eexists; split; [reflexivity|].
  split; [|split; reflexivity].
  unfold getActiveStatement; cbn [activeStatement documents].
  destruct statementId as [|x statementId]; [discriminate Hid | exact Hget].
Qed.

(** X25. When [removeStatement] returns [true], the statement is
    neither a document nor in the cache nor active, its questions are
    the empty array, and every other statement is as it was: its
    document, its questions, and its being active.  When it returns
    [false], the state is as it was. *)
Theorem removeStatement_effects (fs : Fs) (statementId : jsstring)
        (s s' : State) (removed : bool) :
  removeStatement fs statementId s = (removed, s') ->
  if removed then
    map_get statementId (documents s') = None
    /\ getQuestions statementId s' = empty_array
    /\ activeStatement s' <> Some statementId
    /\ (forall k,
           k <> statementId ->
           map_get k (documents s') = map_get k (documents s)
           /\ getQuestions k s' = getQuestions k s
           /\ (activeStatement s = Some k -> activeStatement s' = Some k))
  else s' = s.
Proof.
  intros Hrun.
  destruct (removeStatement_cases fs statementId s) as [H | [_ H]];
    rewrite H in Hrun; injection Hrun as <- <-; [reflexivity|].
  cbn [documents questionCache activeStatement].
  split; [apply map_get_delete_same|].
  split.
  { unfold getQuestions, map_has; cbn [documents questionCache].
    now rewrite !map_get_delete_same. }
  split.
  { destruct (activeStatement s) as [active|]; [|discriminate].
    destruct (eqb_jsstring active statementId) eqn:E; [discriminate|].
    intros Heq; injection Heq as ->; now rewrite eqb_jsstring_refl in E. }
  intros k Hne.
  split; [now apply map_get_delete_other|].
  split.
  { unfold getQuestions, map_has; cbn [documents questionCache].
    now rewrite !map_get_delete_other. }
  intros ->; now rewrite (eqb_jsstring_neq k statementId Hne).
Qed.

(** X26. The questions that [extractQuestions] returns are the
    questions that [getQuestions] gives afterwards for that statement;
    the statement is then marked as processed and holds these
    questions and the extracted content, the other documents and the
    active statement are as they were.  When [extractQuestions]
    throws, the state is as it was and the message begins with
    [Failed to extract questions:]. *)
Theorem extractQuestions_then_getQuestions
        (vision : ApiReply) (extraction : jsstring -> jsstring -> ApiReply)
        (statementId : jsstring) (s s' : State) (r : Result JsValue) :
  extractQuestions JSON_parse vision extraction statementId s = (r, s') ->
  match r with
  | Ok questions =>
      getQuestions statementId s' = questions
      /\ (exists statement' extractedContent,
             map_get statementId (documents s') = Some statement'
             /\ st_questions statement' = questions
             /\ st_content statement' = Some extractedContent
             /\ st_processed statement' = true)
      /\ activeStatement s' = activeStatement s
      /\ (forall k, k <> statementId ->
                    map_get k (documents s') = map_get k (documents s))
  | Throw e =>
      s' = s
      /\ exists m, e = Error (lit "Failed to extract questions: " ++ m)
  end.
Proof.
  intros Hrun.
  destruct (extractQuestions_cases JSON_parse vision extraction statementId s)
    as [[Hs [m He]] | (statement & c & questions & Hget & Hq & Hs & Hr)];
    rewrite Hrun in Hs; rewrite Hrun in *; cbn [fst snd] in *; subst r s'.
  - split; [reflexivity | now exists m].
  - cbn [documents questionCache activeStatement].
    split.
    { unfold getQuestions, map_has; cbn [questionCache].
      now rewrite map_get_set_same. }
    split.
    { eexists; exists c; rewrite map_get_set_same.
      split; [reflexivity|]; cbn; auto. }
    split; [reflexivity|].
    intros k Hne; now apply map_get_set_other.
Qed.

(** X27. In every state of the service, whatever requests were served
    while calls of [extractQuestions] were waiting, the active
    statement that [getStats] reports, when there is one, is a stored
    document: there is at least one document, and
    [getActiveStatement] returns the statement of that identifier.
    (The two sizes are not ordered: the cache may hold the questions
    of a statement that is no longer stored.) *)
Theorem getStats_consistent (s : State) :
  reachable JSON_parse s ->
  let '(total_statements, active_statement, cached_questions) := getStats s in
  forall k, active_statement = Some k ->
            (0 < total_statements)%nat
            /\ exists statement,
                 getActiveStatement s = Some statement
                 /\ st_id statement = k.
Proof.
  intros Hs; pose proof (reachable_invariant JSON_parse s Hs) as Hinv.
  unfold getStats; intros k Hk.
  pose proof (inv_active s Hinv k Hk) as Hhas; unfold map_has in Hhas.
  destruct (map_get k (documents s)) as [statement|] eqn:E;
    [|discriminate Hhas].
  split.
  { destruct (documents s); [discriminate E | cbn; lia]. }
  destruct (inv_keys s Hinv _ _ E) as (Hid & _ & c & n & Hk' & _).
  exists statement; split; [|exact Hid].
  unfold getActiveStatement; rewrite Hk.
  destruct k as [|x k]; [discriminate Hk' | exact E].
Qed.

End StatementProperties.

(* ================================================================== *)
(** * The routes of the server *)
(* ================================================================== *)

Section Routes.

Import Sharp IO FileProcessor AIService AIServiceCalls JsMap StatementService.
Import Server.

Variable env : Env.
Variable JSON_parse : jsstring -> Result JsValue.
Variable api : nat -> Api.
Variable clock : nat -> jsstring.
Variable extraction : jsstring -> jsstring -> ApiReply.
Variable other_greater_than_zero : JsValue -> bool.

Lemma analyzeExam_throws (a : Api) (now : jsstring) (images : list Jpeg)
      (filename : jsstring) (e : JsError) :
  analyzeExam JSON_parse a now images filename = Throw e ->
  In (message e) analysis_errors.
Proof.
  unfold analyzeExam, Exn.try_catch at 1, Exn.bind at 1.
  destruct (extractContent_cases (vision a images))
    as [(c & _ & _ & ->) | ->];
    [|intros H; injection H as <-; cbn; auto].
  unfold Exn.bind.
  destruct (analyzeContent JSON_parse (analysis a c filename))
    as [v | e'] eqn:Ha; [discriminate|].
  intros H; injection H as <-.
  unfold analyzeContent, Exn.try_catch at 1 in Ha.
  destruct (Exn.bind _ _); [discriminate Ha|].
  injection Ha as <-; cbn; auto.
Qed.

Lemma analyzeExamWithStatement_throws (a : Api) (now : jsstring)
      (images : list Jpeg) (statementQuestions : JsValue)
      (filename : jsstring) (e : JsError) :
  analyzeExamWithStatement JSON_parse a now images statementQuestions filename
  = Throw e ->
  In (message e) analysis_errors.
Proof.
  unfold analyzeExamWithStatement, Exn.try_catch at 1, Exn.bind at 1.
  destruct (extractContent_cases (vision a images))
    as [(c & _ & _ & ->) | ->];
    [|intros H; injection H as <-; cbn; auto].
  unfold Exn.bind.
  destruct (analyzeContentWithStatement
              JSON_parse (enhanced a c statementQuestions filename))
    as [v | e'] eqn:Ha; [discriminate|].
  intros H; injection H as <-.
  unfold analyzeContentWithStatement, Exn.try_catch at 1 in Ha.
  destruct (Exn.bind _ _); [discriminate Ha|].
  injection Ha as <-; cbn; auto 6.
Qed.

Lemma has_questions_total (statementQuestions : JsValue) :
  exists enhanced,
    has_questions other_greater_than_zero statementQuestions = Ok enhanced.
Proof.
  unfold has_questions.
  destruct (truthy statementQuestions) eqn:Ht; [|now exists false].
  destruct (get_length_defined _ (truthy_is_defined _ Ht)) as [n ->].
  eexists; reflexivity.
Qed.

(** The loop over the files: a result for each file, in order, or the
    first error. *)
Lemma analyze_files_run (statementQuestions : JsValue)
      (files : list UploadedFile) :
  forall (index : nat) (results : list JsValue) (t : Trace),
  exists r t',
    analyze_files env JSON_parse api clock other_greater_than_zero
                  statementQuestions files index results t
    = (Some r, t')
    /\ match r with
       | Ok all =>
           exists new, all = results ++ new /\ Forall2 result_of files new
       | Throw e =>
           (exists file t0 t1,
               In file files
               /\ processFile env file t0 = (Some (Throw e), t1))
           \/ In (message e) analysis_errors
       end.
Proof.
  induction files as [|file files IH]; intros index results t;
    cbn [analyze_files].
  - exists (Ok results), t; split; [reflexivity|].
    exists []; split; [now rewrite app_nil_r | constructor].
  - unfold bind at 1.
    destruct (processFile_total env file t) as ([images | e] & t1 & Hrun);
      rewrite Hrun.
    + destruct (has_questions_total statementQuestions) as [enhanced He].
      unfold bind at 1, lift at 1; rewrite He.
      unfold bind at 1, lift at 1.
      match goal with
      | |- context [if enhanced then ?a else ?b] =>
          destruct (if enhanced then a else b) as [analysis | e] eqn:Ha
      end.
      * destruct (IH (index + 1)%nat
                     (results ++ [JObj [ key "filename" (JStr (originalname file));
                                         key "analysis" analysis ]]) t1)
          as (r & t' & Hrest & Hr).
        exists r, t'; split; [exact Hrest|].
        destruct r as [all | e]; [|].
        -- destruct Hr as (new & -> & Hnew).
           eexists; split; [now rewrite <- app_assoc|].
           constructor; [now exists analysis | exact Hnew].
        -- destruct Hr as [(f & t0 & t2 & Hin & Hf) | Hm]; [left | now right].
           exists f, t0, t2; split; [now right | exact Hf].
      * exists (Throw e), t1; split; [reflexivity|]; right.
        destruct enhanced;
          [eapply analyzeExamWithStatement_throws
          | eapply analyzeExam_throws]; exact Ha.
    + exists (Throw e), t1; split; [reflexivity|]; left.
      exists file, t, t1; split; [now left | exact Hrun].
Qed.

(** X28. The route [/api/analyze] answers all or nothing.  It always
    answers, with the status 400 for a request without files, with
    the status 200 and one result for each file, in the order of the
    request, each with the name of its file, or with the status 500
    and the message of the first error: the error of [processFile] on
    one of the files, one of the four errors of the analysis, or the
    error of the read of the [length] of the questions.  One file that
    fails leaves the request without any result. *)
Theorem analyze_all_or_nothing (files : list UploadedFile)
        (statement_id : option jsstring) (s : State) (t : Trace) :
  exists response t',
    analyze env JSON_parse api clock other_greater_than_zero
            files statement_id s t
    = (Some (Ok response), t')
    /\ ((files = [] /\ response = failure 400 "No files uploaded")
        \/ (status response = 200%nat
            /\ exists results statement_used,
                 body response
                 = JObj [ key "success" (JBool true);
                          key "results" (JArr results []);
                          key "statement_used" (JBool statement_used) ]
                 /\ Forall2 result_of files results)
        \/ (exists e,
               response = failure_with_details "Failed to process files" e
               /\ ((exists file t0 t1,
                       In file files
                       /\ processFile env file t0 = (Some (Throw e), t1))
                   \/ In (message e) analysis_errors
                   \/ statement_questions statement_id s = Throw e))).
Proof.
  unfold analyze, try_catch.
  destruct files as [|file files].
  - eexists; eexists; split; [reflexivity | now left].
  - unfold bind at 1, lift at 1.
    destruct (statement_questions statement_id s) as [q | e] eqn:Hq.
    + destruct (analyze_files_run q (file :: files) 0 [] t)
        as (r & t' & Hrun & Hr).
      unfold bind; rewrite Hrun.
      destruct r as [all | e].
      * destruct Hr as (new & -> & Hnew).
        eexists; eexists; split; [reflexivity|].
        right; left; split; [reflexivity|].
        eexists; eexists; split; [reflexivity | exact Hnew].
      * eexists; eexists; split; [reflexivity|].
        right; right; exists e; split; [reflexivity|].
        destruct Hr as [H | H]; auto.
    + eexists; eexists; split; [reflexivity|].
      right; right; exists e; split; [reflexivity | now right; right].
Qed.

(** X29. The route [/api/statement] stores the statement before it
    processes the file.  For a request with one file the first
    stretch of the handler stores the new statement, unprocessed and
    without questions, under a new identifier and advances the
    counter.  The handler then always answers, whatever the other
    requests have made of the service while it waited: with the
    status 500 it has changed nothing more; with the status 200 it has
    put the questions in the cache, where [getQuestions] finds them,
    and has left the other documents and the active statement as the
    other requests left them; a statement that was removed in the
    meantime is not stored again.  When no other request is served
    while the handler waits, the statement is still stored at the
    answer: processed, with the questions that [getQuestions] gives,
    with the status 200, and as it was stored, in the state that the
    first stretch left, with the status 500. *)
Theorem upload_statement_keeps_statement (file : UploadedFile) (now : nat)
        (iso : jsstring) (s : State) (t : Trace)
        (resumed completed : State) (stored : bool) :
  let statementId := statement_id (idCounter s) now in
  exists statementData s1,
    upload_statement_begin [file] now iso s = (inr (file, statementData), s1)
    /\ st_id statementData = statementId
    /\ st_filename statementData = originalname file
    /\ st_processed statementData = false
    /\ st_questions statementData = empty_array
    /\ idCounter s1 = (idCounter s + 1)%nat
    /\ map_get statementId (documents s1) = Some statementData
    /\ questionCache s1 = questionCache s
    /\ (let '(response, s', t') :=
          upload_statement_resume env JSON_parse api extraction
                                  file statementData t
                                  resumed completed stored in
        exists answer,
          response = Some answer
          /\ ((status answer = 500%nat /\ (s' = resumed \/ s' = completed))
              \/ (status answer = 200%nat
                  /\ defined (getQuestions statementId s')
                  /\ questionCache s'
                     = map_set statementId (getQuestions statementId s')
                               (questionCache completed)
                  /\ activeStatement s' = activeStatement completed
                  /\ idCounter s' = idCounter completed
                  /\ (forall k, k <> statementId ->
                                map_get k (documents s')
                                = map_get k (documents completed))
                  /\ (map_get statementId (documents completed) = None ->
                      map_get statementId (documents s') = None))))
    /\ (let '(response, s', t') :=
          upload_statement_resume env JSON_parse api extraction
                                  file statementData t s1 s1 true in
        exists answer statement,
          response = Some answer
          /\ map_get statementId (documents s') = Some statement
          /\ st_filename statement = originalname file
          /\ ((status answer = 200%nat
               /\ st_processed statement = true
               /\ getQuestions statementId s' = st_questions statement)
              \/ (status answer = 500%nat
                  /\ statement = statementData
                  /\ s' = s1))).
Proof.
  intros statementId.
  unfold upload_statement_begin, processStatement; fold statementId.
  set (statementData := {| st_id := statementId |}).
  set (s1 := {| documents := map_set statementId statementData (documents s) |}).
  assert (Hstored : map_get statementId (documents s1) = Some statementData)
    by apply map_get_set_same.
  exists statementData, s1.
  do 8 (split; [reflexivity || exact Hstored|]).
  unfold upload_statement_resume.
  destruct (processFile_total env file t) as ([images | e] & t1 & Hrun);
    rewrite Hrun; cbn [st_id statementData];
    [|split;
      [eexists; split; [reflexivity|];
       left; split; [reflexivity | now left]
      |eexists; exists statementData;
       split; [reflexivity|]; split; [exact Hstored|]; split; [reflexivity|];
       right; repeat split]].
  split.
  - destruct (beginExtraction statementId resumed) as [statement | e];
      [|eexists; split; [reflexivity|];
        left; split; [reflexivity | now left]].
    pose proof (completeExtraction_cases
                  JSON_parse (vision (api 0%nat) images)
                  (fun extractedContent =>
                     extraction extractedContent (st_filename statement))
                  stored statementId completed) as Hcases.
    cbv zeta in Hcases.
    destruct (completeExtraction _ _ _ _ _ _) as [r s2].
    cbn [fst snd] in Hcases.
    destruct Hcases as [[-> [m ->]] | (c & questions & Hq & -> & ->)].
    + eexists; split; [reflexivity|].
      left; split; [reflexivity | now right].
    + destruct (get_length_defined _ (truthy_is_defined _ Hq)) as [n ->].
      eexists; split; [reflexivity|].
      right; split; [reflexivity|].
      assert (Hquestions :
                getQuestions statementId
                  {| documents :=
                       match (if stored
                              then map_get statementId (documents completed)
                              else None) with
                       | Some statement0 =>
                           map_set statementId
                                   {| st_id := st_id statement0;
                                      st_filename := st_filename statement0;
                                      st_originalPath := st_originalPath statement0;
                                      st_content := Some c;
                                      st_questions := questions;
                                      st_timestamp := st_timestamp statement0;
                                      st_processed := true |}
                                   (documents completed)
                       | None => documents completed
                       end;
                     questionCache :=
                       map_set statementId questions (questionCache completed);
                     activeStatement := activeStatement completed;
                     idCounter := idCounter completed |}
                = questions).
      { unfold getQuestions, map_has; cbn [questionCache].
        now rewrite map_get_set_same. }
      rewrite Hquestions; cbn [documents questionCache activeStatement idCounter].
      split; [now apply truthy_is_defined|].
      do 3 (split; [reflexivity|]).
      split.
      * intros k Hne.
        destruct (if stored then map_get statementId (documents completed)
                  else None); [now apply map_get_set_other | reflexivity].
      * intros Hnone; rewrite Hnone.
        destruct stored; exact Hnone.
  - unfold beginExtraction; rewrite Hstored.
    pose proof (completeExtraction_cases
                  JSON_parse (vision (api 0%nat) images)
                  (fun extractedContent =>
                     extraction extractedContent (st_filename statementData))
                  true statementId s1) as Hcases.
    cbv zeta in Hcases.
    destruct (completeExtraction _ _ _ _ _ _) as [r s2].
    cbn [fst snd] in Hcases.
    destruct Hcases as [[-> [m ->]] | (c & questions & Hq & -> & ->)].
    + eexists; exists statementData.
      split; [reflexivity|]; split; [exact Hstored|]; split; [reflexivity|].
      right; repeat split.
    + rewrite Hstored.
      destruct (get_length_defined _ (truthy_is_defined _ Hq)) as [n ->].
      eexists; eexists.
      split; [reflexivity|].
      cbn [documents]; split; [apply map_get_set_same|].
      split; [reflexivity|].
      left; split; [reflexivity|]; split; [reflexivity|].
      unfold getQuestions, map_has; cbn [questionCache].
      now rewrite map_get_set_same.
Qed.

End Routes.

Section StatementRuns.

Import AIService AIServiceCalls JsMap StatementService StatementScenario.

Lemma initial_is_reachable : reachable JSON.parse initial.
Proof.
  exists {| service := initial; running := [] |};
    split; [apply system_initial | reflexivity].
Qed.

Lemma uploaded_is_reachable : reachable JSON.parse uploaded.
Proof.
  apply reachable_processStatement, initial_is_reachable.
Qed.

Lemma extracted_is_reachable : reachable JSON.parse (snd extracted).
Proof.
  apply reachable_extractQuestions, uploaded_is_reachable.
Qed.

(** The statement is removed while the call of [extractQuestions] for
    it is waiting: the service is left with the questions of a
    statement that it does not store, and with more questions in the
    cache than documents. *)
Example questions_outlive_removed_statement :
  reachable JSON.parse (snd removed_meanwhile)
  /\ fst removed_meanwhile = Ok extracted_questions
  /\ documents (snd removed_meanwhile) = []
  /\ getQuestions (lit "stmt_1_42") (snd removed_meanwhile)
     = extracted_questions
  /\ getStats (snd removed_meanwhile) = (0%nat, None, 1%nat).
Proof.
  split; [|repeat split; vm_compute; reflexivity].
  set (waiting := {| ex_id := lit "stmt_1_42"; ex_stored := true |}).
  set (detached := {| ex_id := lit "stmt_1_42"; ex_stored := false |}).
  set (removed := snd (removeStatement no_files (lit "stmt_1_42") uploaded)).
  exists {| service := snd removed_meanwhile; running := [] |};
    split; [|reflexivity].
  apply (system_step JSON.parse
                     {| service := removed; running := [detached] |});
    [|exact (step_completeExtraction
               JSON.parse {| service := removed; running := [detached] |}
               [] [] detached
               (Content (Some (lit "1. ... 2. ...")))
               (fun _ => Content (Some two_questions)) eq_refl)].
  apply (system_step JSON.parse
                     {| service := uploaded; running := [waiting] |});
    [|exact (step_removeStatement
               JSON.parse {| service := uploaded; running := [waiting] |}
               no_files (lit "stmt_1_42"))].
  apply (system_step JSON.parse {| service := uploaded; running := [] |}).
  - apply (system_step JSON.parse {| service := initial; running := [] |});
      [apply system_initial|].
    exact (step_processStatement
             JSON.parse {| service := initial; running := [] |}
             (Scenario.upload "statement.pdf") 42 iso).
  - refine (step_beginExtraction
              JSON.parse {| service := uploaded; running := [] |}
              (lit "stmt_1_42") _ _).
    vm_compute; reflexivity.
Qed.

Lemma processStatement_never_replaces_witness :
  exists statement,
    fst (processStatement (Scenario.upload "second.pdf") 43 iso uploaded)
    = Ok statement
    /\ st_id statement = lit "stmt_2_43"
    /\ map_get (lit "stmt_2_43") (documents uploaded) = None.
Proof.
  destruct (processStatement_never_replaces
              JSON.parse (Scenario.upload "second.pdf") 43 iso uploaded
              uploaded_is_reachable)
    as (statement & Hrun & Hid & Hnew).
  exists statement; rewrite Hrun; split; [reflexivity|].
  split; [exact Hid | exact Hnew].
Defined.

Lemma getQuestions_is_defined_witness :
  defined (getQuestions (lit "stmt_1_42") (snd extracted))
  /\ defined (getQuestions (lit "stmt_1_42") (snd removed_meanwhile))
  /\ getQuestions (lit "stmt_9_9") (snd extracted) = empty_array.
Proof.
  split; [|split].
  - apply (getQuestions_is_defined JSON.parse), extracted_is_reachable.
  - apply (getQuestions_is_defined JSON.parse),
      questions_outlive_removed_statement.
  - apply (getQuestions_is_defined JSON.parse);
      [apply extracted_is_reachable | vm_compute; reflexivity
      | vm_compute; reflexivity].
Defined.

Lemma selectStatement_outcome_witness :
  selectStatement (lit "stmt_9_9") uploaded
  = (Throw (Error (lit "Statement document not found")), uploaded)
  /\ exists summary s',
       selectStatement (lit "stmt_1_42") uploaded = (Ok summary, s')
       /\ option_map st_filename (getActiveStatement s')
          = Some (lit "statement.pdf").
Proof.
  split.
  - exact (selectStatement_outcome JSON.parse (lit "stmt_9_9") uploaded
                                   uploaded_is_reachable).
  - pose proof (selectStatement_outcome JSON.parse (lit "stmt_1_42") uploaded
                                        uploaded_is_reachable) as H.
    vm_compute (map_get _ _) in H.
    destruct H as (summary & s' & Hrun & Hactive & _).
    exists summary, s'; split; [exact Hrun|].
    rewrite Hactive; reflexivity.
Defined.

Lemma removeStatement_effects_witness :
  let s' := snd (removeStatement no_files (lit "stmt_1_42") (snd extracted)) in
  map_get (lit "stmt_1_42") (documents s') = None
  /\ getQuestions (lit "stmt_1_42") s' = empty_array.
Proof.
  intros s'.
  pose proof (removeStatement_effects
                no_files (lit "stmt_1_42") (snd extracted) s' true) as H.
  cbv beta iota in H.
  destruct H as (Hdoc & Hq & _); [vm_compute; reflexivity|].
  split; [exact Hdoc | exact Hq].
Defined.

Lemma extractQuestions_then_getQuestions_witness :
  fst extracted = Ok extracted_questions
  /\ getQuestions (lit "stmt_1_42") (snd extracted) = extracted_questions.
Proof.
  assert (Hrun : extracted = (Ok extracted_questions, snd extracted))
    by (vm_compute; reflexivity).
  split; [now rewrite Hrun|].
  exact (proj1 (extractQuestions_then_getQuestions
                  JSON.parse _ _ _ _ _ _ Hrun)).
Defined.

Lemma getStats_consistent_witness :
  exists statement,
    getActiveStatement (snd (selectStatement (lit "stmt_1_42") (snd extracted)))
    = Some statement
    /\ st_id statement = lit "stmt_1_42".
Proof.
  assert (Hs : reachable JSON.parse
                         (snd (selectStatement (lit "stmt_1_42")
                                               (snd extracted)))).
  { destruct extracted_is_reachable as (sys & Hsys & Hservice).
    eexists; split;
      [eapply system_step;
       [exact Hsys | apply (step_selectStatement _ _ (lit "stmt_1_42"))]
      |cbn [service]; now rewrite Hservice]. }
  pose proof (getStats_consistent JSON.parse _ Hs) as H.
  destruct (getStats _) as [[total active] cached] eqn:Hstats.
  apply H.
  vm_compute in Hstats; injection Hstats as _ <- _; reflexivity.
Defined.

End StatementRuns.
